(** * Chkobba Signal: connection bootstrap, session recovery and drawing sync

    A shallow embedding of the controller in [App.tsx] and of the
    [DrawingBoard] component, followed by the deck of [constants.tsx],
    the canvas drawing of [DrawingBoard] and the service worker of
    [sw.js].  The React component is an event-driven
    program: every user action, timer and network callback runs one
    handler to completion.  Handlers are embedded as computations in a
    small state/exception/output monad over the application state; the
    browser objects the handlers hold references to (peer connections,
    data channels, relay clients, timers, local storage) live in an
    explicit store addressed by identifiers, so aliasing through closures
    and refs is kept.

    Built-ins the program calls but does not define (JSON, the lz-string
    codec, the RTCPeerConnection negotiation methods, the engine's
    coercions of non-primitive values) are fields of the [Platform]
    class; every theorem holds for every platform.  A small concrete
    platform at the end of the definitions is used to run examples.

    Strings are held in UTF-8 (a surrogate without a partner as the
    three bytes of its code unit); [js_length] counts UTF-16 code units.

    Not modelled: the markup the components return, the [Card]
    component, the wake lock, the clipboard helper, console output, and
    the redraw of the canvas that follows a render (the drawing calls
    themselves are embedded in [Render]).  An [await] inside a handler is
    taken as completing before the next event is delivered. *)

From Stdlib Require Import ZArith QArith Qabs Qround Qpower String Ascii List DecimalString Lia Lqa.
From Stdlib Require Import DecimalPos DecimalZ.
From stdpp Require Import base option gmap strings list.

#[local] Set Warnings "-register-all".

Open Scope Z_scope.

(** ** JavaScript values *)

(** A finite number is the rational it denotes; the three non-finite
    values are the ones a division by zero can produce.  The result of
    an arithmetic operation is rounded to the nearest double
    ([Double.round]).  Overflow to an infinity is not part of
    [Double.round]: a statement about operands that could reach
    2^1024 - 2^970 bounds them. *)
Inductive JsNum : Type :=
| Fin (q : Q)
| NaN
| PosInf
| NegInf.

Inductive JsValue : Type :=
| JUndefined
| JNull
| JBool (b : bool)
| JNum (n : JsNum)
| JStr (s : string)
| JArr (items : list JsValue)
| JObj (fields : list (string * JsValue)).

Definition Qlt_bool (a b : Q) : bool := negb (Qle_bool b a).

(** IEEE 754 binary64 rounding, on rationals. *)
Module Double.

(** [floor (log2 q)] for a positive rational. *)
Definition log2_floor (q : Q) : Z :=
  let e := Z.log2 (Qnum q) - Z.log2 (Zpos (Qden q)) in
  if Qle_bool (2 ^ e) q then e else e - 1.

(** The integer nearest to a non-negative rational, ties to even. *)
Definition nearest_even (x : Q) : Z :=
  let f := Qfloor x in
  let rest := (x - inject_Z f)%Q in
  if Qle_bool rest (1 # 2) then
    if Qle_bool (1 # 2) rest then (if Z.even f then f else f + 1) else f
  else f + 1.

(** The spacing of the doubles around a positive rational: 53
    significant bits, and no finer than the subnormal spacing. *)
Definition ulp (q : Q) : Q := (2 ^ (Z.max (log2_floor q) (-1022) - 52))%Q.

(** The double nearest to a rational, ties to even. *)
Definition round (q : Q) : Q :=
  if Qle_bool q 0 then
    if Qle_bool 0 q then 0%Q
    else (- (inject_Z (nearest_even (- q / ulp (- q))) * ulp (- q)))%Q
  else (inject_Z (nearest_even (q / ulp q)) * ulp q)%Q.

End Double.

(** [a - b] on numbers. *)
Definition js_sub (a b : JsNum) : JsNum :=
  match a, b with
  | NaN, _ | _, NaN => NaN
  | Fin x, Fin y => Fin (Double.round (x - y))
  | Fin _, PosInf => NegInf
  | Fin _, NegInf => PosInf
  | PosInf, PosInf => NaN
  | PosInf, _ => PosInf
  | NegInf, NegInf => NaN
  | NegInf, _ => NegInf
  end.

(** [a / b] on finite operands. *)
Definition js_div (a b : Q) : JsNum :=
  if Qeq_bool b 0 then
    (if Qeq_bool a 0 then NaN else if Qlt_bool 0 a then PosInf else NegInf)
  else Fin (Double.round (a / b)).

(** [a < b]. *)
Definition js_lt (a b : JsNum) : bool :=
  match a, b with
  | NaN, _ | _, NaN => false
  | Fin x, Fin y => Qlt_bool x y
  | NegInf, NegInf => false
  | NegInf, _ => true
  | _, PosInf => match a with PosInf => false | _ => true end
  | _, _ => false
  end.

(** [Number.prototype.toString] on an integer of at most 2^53 in
    absolute value, where the shortest digits that read back as the
    number are all the digits of its decimal numeral.  It is applied to
    timestamps, room codes, array indices and ranks. *)
Definition Z_toString (z : Z) : string := NilZero.string_of_int (Z.to_int z).

(** [s.length]: the number of UTF-16 code units, one for a character of
    up to three bytes and two for a character of four bytes. *)
Fixpoint js_length (s : string) : nat :=
  match s with
  | EmptyString => 0%nat
  | String c rest =>
      let n := N_of_ascii c in
      ((if (n <? 128)%N then 1
        else if (n <? 192)%N then 0
        else if (n <? 240)%N then 1
        else 2) + js_length rest)%nat
  end.

(** [!!v] *)
Definition truthy (v : JsValue) : bool :=
  match v with
  | JUndefined | JNull => false
  | JBool b => b
  | JNum (Fin q) => negb (Qeq_bool q 0)
  | JNum NaN => false
  | JNum _ => true
  | JStr s => negb (String.eqb s "")
  | JArr _ | JObj _ => true
  end.

(** Own-property lookup in an object literal's field list. *)
Fixpoint obj_get (k : string) (fields : list (string * JsValue)) : JsValue :=
  match fields with
  | [] => JUndefined
  | (k', v) :: rest => if String.eqb k k' then v else obj_get k rest
  end.

(** Property definition: overwrite in place, or append. *)
Fixpoint obj_set (k : string) (v : JsValue) (fields : list (string * JsValue))
  : list (string * JsValue) :=
  match fields with
  | [] => [(k, v)]
  | (k', v') :: rest =>
      if String.eqb k k' then (k, v) :: rest else (k', v') :: obj_set k v rest
  end.

Definition obj_assign (base more : list (string * JsValue)) : list (string * JsValue) :=
  fold_left (fun o kv => obj_set (fst kv) (snd kv) o) more base.

Fixpoint index_fields {A} (f : A -> JsValue) (i : nat) (l : list A)
  : list (string * JsValue) :=
  match l with
  | [] => []
  | a :: rest => (Z_toString (Z.of_nat i), f a) :: index_fields f (S i) rest
  end.

(** A byte that continues a character. *)
Definition is_continuation (c : ascii) : bool :=
  ((128 <=? N_of_ascii c) && (N_of_ascii c <? 192))%N.

(** The three bytes of a code unit from U+0800 on. *)
Definition three_bytes (u : N) : string :=
  String (ascii_of_N (224 + u / 4096))
    (String (ascii_of_N (128 + (u / 64) mod 64))
      (String (ascii_of_N (128 + u mod 64)) EmptyString)).

(** The code units of one character, each as a string: the character
    itself, or the two surrogates of a character of four bytes. *)
Definition code_units (ch : string) : list string :=
  match ch with
  | String b1 (String b2 (String b3 (String b4 EmptyString))) =>
      if (240 <=? N_of_ascii b1)%N then
        let cp := ((N_of_ascii b1 mod 8) * 262144 + (N_of_ascii b2 mod 64) * 4096
                   + (N_of_ascii b3 mod 64) * 64 + N_of_ascii b4 mod 64)%N in
        let v := (cp - 65536)%N in
        [three_bytes (55296 + v / 1024); three_bytes (56320 + v mod 1024)]
      else [ch]
  | _ => [ch]
  end.

(** The bytes that continue a character are kept until its first byte
    is met, from the end of the string backwards. *)
Fixpoint split_chars (s : string) : string * list string :=
  match s with
  | EmptyString => (EmptyString, [])
  | String c rest =>
      let '(pending, units) := split_chars rest in
      if is_continuation c then (String c pending, units)
      else (EmptyString, code_units (String c pending) ++ units)
  end.

(** The code units of a string, each as a string of its own: what
    indexing and spreading a string enumerate. *)
Definition chars (s : string) : list string :=
  let '(pending, units) := split_chars s in
  match pending with
  | EmptyString => units
  | _ => pending :: units
  end.

(** The own enumerable properties copied by [{...v}]. *)
Definition spread (v : JsValue) : list (string * JsValue) :=
  match v with
  | JObj fields => fields
  | JArr items => index_fields (fun x => x) 0 items
  | JStr s => index_fields JStr 0 (chars s)
  | _ => []
  end.

(** [s.endsWith(suffix)] *)
Fixpoint endsWith (s suffix : string) : bool :=
  String.eqb s suffix ||
  match s with
  | EmptyString => false
  | String _ rest => endsWith rest suffix
  end.

(** ** Peer connection objects, as the browser exposes them *)

Inductive SignalingState : Type :=
| stable | have_local_offer | have_remote_offer
| have_local_pranswer | have_remote_pranswer | sig_closed.

Inductive ConnectionState : Type :=
| conn_new | connecting | connected | disconnected | failed | conn_closed.

Inductive IceConnectionState : Type :=
| ice_new | ice_checking | ice_connected | ice_completed
| ice_failed | ice_disconnected | ice_closed.

Inductive ReadyState : Type :=
| rs_connecting | rs_open | rs_closing | rs_closed.

Record PC : Type := MkPC {
  signalingState : SignalingState;
  connectionState : ConnectionState;
  localDescription : JsValue;
  remoteDescription : JsValue
}.

(** [new RTCPeerConnection(RTC_CONFIG)] *)
Definition new_pc : PC := MkPC stable conn_new JNull JNull.

(** [pc.close()] *)
Definition close_pc (pc : PC) : PC :=
  MkPC sig_closed conn_closed (localDescription pc) (remoteDescription pc).

(** ** The platform *)

(** A [None] result is a thrown exception or a rejected promise. *)
Class Platform : Type := {
  JSON_parse : string -> option JsValue;
  JSON_stringify : JsValue -> string;
  (** [ToString] and [ToNumber] on the values where the engine's
      algorithm is not a table lookup. *)
  ToString_other : JsValue -> string;
  ToNumber_other : JsValue -> JsNum;
  (** lz-string; [decompressFromBase64] answers [null] as [None]. *)
  compressToBase64 : string -> string;
  decompressFromBase64 : string -> option string;
  (** JSEP negotiation. *)
  createOffer : PC -> option JsValue;
  createAnswer : PC -> option JsValue;
  setLocalDescription : PC -> JsValue -> option PC;
  setRemoteDescription : PC -> JsValue -> option PC;
  (** Whether [navigator.vibrate] is defined. *)
  navigator_vibrate : bool
}.

Section WithPlatform.
Context {P : Platform}.

(** Template-literal interpolation [`${v}`]. *)
Definition js_ToString (v : JsValue) : string :=
  match v with
  | JStr s => s
  | _ => ToString_other v
  end.

(** The coercion applied by the binary [-]. *)
Definition js_ToNumber (v : JsValue) : JsNum :=
  match v with
  | JNum n => n
  | JUndefined => NaN
  | JNull => Fin 0
  | JBool true => Fin 1
  | JBool false => Fin 0
  | _ => ToNumber_other v
  end.

End WithPlatform.

(** ** Application data *)

Inductive ViewState : Type :=
| HOME | HOST_LOBBY | JOIN_LOBBY | MANUAL_HOST | MANUAL_JOIN | GAME.

Inductive Role : Type := HOST | JOINER.
Inductive Mode : Type := CLOUD | MANUAL.

Definition Role_str (r : Role) : string :=
  match r with HOST => "HOST" | JOINER => "JOINER" end.
Definition Mode_str (m : Mode) : string :=
  match m with CLOUD => "CLOUD" | MANUAL => "MANUAL" end.

Record SessionData : Type := MkSession {
  mode : Mode;
  role : Role;
  code : string;
  timestamp : Z
}.

(** The object literal [{ mode, role, code, timestamp }]. *)
Definition session_obj (s : SessionData) : JsValue :=
  JObj [("mode", JStr (Mode_str (mode s)));
        ("role", JStr (Role_str (role s)));
        ("code", JStr (code s));
        ("timestamp", JNum (Fin (inject_Z (timestamp s))))].

Record Point : Type := MkPoint { px : JsNum; py : JsNum }.

Record Stroke : Type := MkStroke {
  id : string;
  points : list Point;
  color : string;
  isRemote : bool
}.

Definition point_obj (p : Point) : JsValue :=
  JObj [("x", JNum (px p)); ("y", JNum (py p))].

Definition stroke_obj (s : Stroke) : JsValue :=
  JObj [("id", JStr (id s));
        ("points", JArr (map point_obj (points s)));
        ("color", JStr (color s));
        ("isRemote", JBool (isRemote s))].

(** The [useState] cells of [App]. *)
Record Ui : Type := MkUi {
  view : ViewState;
  status : string;
  errorMsg : string;
  shortCode : string;
  inputCode : string;
  localOffer : string;
  remoteAnswer : string;
  flash : bool;
  strokes : list JsValue;
  isReconnecting : bool
}.

(** The [useRef] cells of [App]. *)
Record Refs : Type := MkRefs {
  pcRef : option nat;
  dataChannelRef : option nat;
  mqttClientRef : option nat
}.

(** A peer connection together with the [onicecandidate] handler the
    manual flows attach to it. *)
Record PcCell : Type := MkPcCell {
  pc_obj : PC;
  pc_onicecandidate : option Role
}.

(** What the handlers registered on a relay client close over. *)
Record Client : Type := MkClient {
  cl_role : Role;
  cl_code : string;
  cl_pc : nat;
  cl_isReconnecting : bool;
  cl_ended : bool
}.

(** Pending [setTimeout] callbacks. *)
Inductive Timer : Type :=
| TRestore (is_host : bool) (session_code : string)
| TAnswer (client pc : nat) (room : string)
| TFlashOff.

(** Objects reachable from the page, and the page's storage. *)
Record Browser : Type := MkBrowser {
  pcs : gmap nat PcCell;
  channels : gmap nat ReadyState;
  clients : gmap nat Client;
  timers : list Timer;
  localStorage : gmap string string;
  next_id : nat
}.

Record AppState : Type := MkApp {
  ui : Ui;
  refs : Refs;
  browser : Browser
}.

(** Calls the application makes on platform objects, in program order. *)
Inductive Effect : Type :=
| MqttConnect (client : nat)
| MqttEnd (client : nat)
| MqttSubscribe (client : nat) (topic : string)
| MqttPublish (client : nat) (topic payload : string)
| DcSend (channel : nat) (data : string)
| RtcNew (pc : nat)
| RtcClose (pc : nat)
| RtcCreateDataChannel (pc channel : nat)
| RtcCreateOffer (pc : nat) (ok : bool)
| RtcCreateAnswer (pc : nat) (ok : bool)
| RtcSetLocal (pc : nat) (desc : JsValue) (ok : bool)
| RtcSetRemote (pc : nat) (desc : JsValue) (ok : bool)
| SetTimeout (t : Timer) (ms : Z)
| Vibrate (pattern : list Z)
| ConsoleError
| Reload
| Uncaught.

(** ** The handler monad *)

Inductive Completion (A : Type) : Type :=
| Normal (a : A)
| Thrown.
Arguments Normal {A} a.
Arguments Thrown {A}.

Definition M (A : Type) : Type := AppState -> Completion A * AppState * list Effect.

Definition ret {A} (a : A) : M A := fun st => (Normal a, st, []).

Definition bind {A B} (m : M A) (k : A -> M B) : M B :=
  fun st =>
    match m st with
    | (Normal a, st1, out1) =>
        match k a st1 with
        | (r, st2, out2) => (r, st2, out1 ++ out2)
        end
    | (Thrown, st1, out1) => (Thrown, st1, out1)
    end.

Definition throw {A} : M A := fun st => (Thrown, st, []).

(** [try { body } catch (e) { handler }] *)
Definition try_catch (body handler : M unit) : M unit :=
  fun st =>
    match body st with
    | (Normal a, st1, out1) => (Normal a, st1, out1)
    | (Thrown, st1, out1) =>
        match handler st1 with
        | (r, st2, out2) => (r, st2, out1 ++ out2)
        end
    end.

Definition emit (e : Effect) : M unit := fun st => (Normal tt, st, [e]).
Definition get_state : M AppState := fun st => (Normal st, st, []).
Definition modify (f : AppState -> AppState) : M unit := fun st => (Normal tt, f st, []).

(** A value that may be an exception. *)
Definition unwrap {A} (o : option A) : M A :=
  match o with Some a => ret a | None => throw end.

Definition when (b : bool) (m : M unit) : M unit := if b then m else ret tt.

#[export] Instance M_ret : MRet M := @ret.
#[export] Instance M_bind : MBind M := fun A B k m => bind m k.

(** *** State updates *)

Definition with_ui (f : Ui -> Ui) (st : AppState) : AppState :=
  MkApp (f (ui st)) (refs st) (browser st).
Definition with_refs (f : Refs -> Refs) (st : AppState) : AppState :=
  MkApp (ui st) (f (refs st)) (browser st).
Definition with_browser (f : Browser -> Browser) (st : AppState) : AppState :=
  MkApp (ui st) (refs st) (f (browser st)).

Definition setView (v : ViewState) : M unit :=
  modify (with_ui (fun u => MkUi v (status u) (errorMsg u) (shortCode u) (inputCode u)
    (localOffer u) (remoteAnswer u) (flash u) (strokes u) (isReconnecting u))).
Definition setStatus (s : string) : M unit :=
  modify (with_ui (fun u => MkUi (view u) s (errorMsg u) (shortCode u) (inputCode u)
    (localOffer u) (remoteAnswer u) (flash u) (strokes u) (isReconnecting u))).
Definition setErrorMsg (s : string) : M unit :=
  modify (with_ui (fun u => MkUi (view u) (status u) s (shortCode u) (inputCode u)
    (localOffer u) (remoteAnswer u) (flash u) (strokes u) (isReconnecting u))).
Definition setShortCode (s : string) : M unit :=
  modify (with_ui (fun u => MkUi (view u) (status u) (errorMsg u) s (inputCode u)
    (localOffer u) (remoteAnswer u) (flash u) (strokes u) (isReconnecting u))).
Definition setInputCode (s : string) : M unit :=
  modify (with_ui (fun u => MkUi (view u) (status u) (errorMsg u) (shortCode u) s
    (localOffer u) (remoteAnswer u) (flash u) (strokes u) (isReconnecting u))).
Definition setLocalOffer (s : string) : M unit :=
  modify (with_ui (fun u => MkUi (view u) (status u) (errorMsg u) (shortCode u) (inputCode u)
    s (remoteAnswer u) (flash u) (strokes u) (isReconnecting u))).
Definition setRemoteAnswer (s : string) : M unit :=
  modify (with_ui (fun u => MkUi (view u) (status u) (errorMsg u) (shortCode u) (inputCode u)
    (localOffer u) s (flash u) (strokes u) (isReconnecting u))).
Definition setFlash (b : bool) : M unit :=
  modify (with_ui (fun u => MkUi (view u) (status u) (errorMsg u) (shortCode u) (inputCode u)
    (localOffer u) (remoteAnswer u) b (strokes u) (isReconnecting u))).
(** [setStrokes(prev => f(prev))] *)
Definition setStrokes (f : list JsValue -> list JsValue) : M unit :=
  modify (with_ui (fun u => MkUi (view u) (status u) (errorMsg u) (shortCode u) (inputCode u)
    (localOffer u) (remoteAnswer u) (flash u) (f (strokes u)) (isReconnecting u))).
Definition setIsReconnecting (b : bool) : M unit :=
  modify (with_ui (fun u => MkUi (view u) (status u) (errorMsg u) (shortCode u) (inputCode u)
    (localOffer u) (remoteAnswer u) (flash u) (strokes u) b)).

Definition set_pcRef (r : option nat) : M unit :=
  modify (with_refs (fun x => MkRefs r (dataChannelRef x) (mqttClientRef x))).
Definition set_dataChannelRef (r : option nat) : M unit :=
  modify (with_refs (fun x => MkRefs (pcRef x) r (mqttClientRef x))).
Definition set_mqttClientRef (r : option nat) : M unit :=
  modify (with_refs (fun x => MkRefs (pcRef x) (dataChannelRef x) r)).

Definition with_pcs (f : gmap nat PcCell -> gmap nat PcCell) (b : Browser) : Browser :=
  MkBrowser (f (pcs b)) (channels b) (clients b) (timers b) (localStorage b) (next_id b).
Definition with_channels (f : gmap nat ReadyState -> gmap nat ReadyState) (b : Browser) : Browser :=
  MkBrowser (pcs b) (f (channels b)) (clients b) (timers b) (localStorage b) (next_id b).
Definition with_clients (f : gmap nat Client -> gmap nat Client) (b : Browser) : Browser :=
  MkBrowser (pcs b) (channels b) (f (clients b)) (timers b) (localStorage b) (next_id b).
Definition with_timers (f : list Timer -> list Timer) (b : Browser) : Browser :=
  MkBrowser (pcs b) (channels b) (clients b) (f (timers b)) (localStorage b) (next_id b).
Definition with_localStorage (f : gmap string string -> gmap string string) (b : Browser) : Browser :=
  MkBrowser (pcs b) (channels b) (clients b) (timers b) (f (localStorage b)) (next_id b).

(** A fresh object identity. *)
Definition alloc : M nat := fun st =>
  let b := browser st in
  (Normal (next_id b),
   with_browser (fun b => MkBrowser (pcs b) (channels b) (clients b) (timers b)
                            (localStorage b) (S (next_id b))) st,
   []).

(** [localStorage.getItem], [setItem], [removeItem] *)
Definition getItem (k : string) : M (option string) :=
  st ← get_state; ret (localStorage (browser st) !! k).
Definition setItem (k v : string) : M unit :=
  modify (with_browser (with_localStorage (insert k v))).
Definition removeItem (k : string) : M unit :=
  modify (with_browser (with_localStorage (delete k))).

(** [setTimeout(callback, ms)] *)
Definition setTimeout (t : Timer) (ms : Z) : M unit :=
  modify (with_browser (with_timers (fun ts => ts ++ [t])));;
  emit (SetTimeout t ms).

(** The peer connection behind an identity; a handler only ever holds
    identities it obtained from [initPC]. *)
Definition the_pc (i : nat) (st : AppState) : PC :=
  match pcs (browser st) !! i with
  | Some c => pc_obj c
  | None => close_pc new_pc
  end.

Definition update_pc (i : nat) (f : PC -> PC) : M unit :=
  modify (with_browser (with_pcs (alter (fun c => MkPcCell (f (pc_obj c)) (pc_onicecandidate c)) i))).

Definition set_onicecandidate (i : nat) (r : Role) : M unit :=
  modify (with_browser (with_pcs (alter (fun c => MkPcCell (pc_obj c) (Some r)) i))).

(** [dataChannelRef.current?.readyState === 'open'] *)
Definition channel_open (st : AppState) : option nat :=
  match dataChannelRef (refs st) with
  | Some ch =>
      match channels (browser st) !! ch with
      | Some rs_open => Some ch
      | _ => None
      end
  | None => None
  end.

(** Member access [v.k]: a [TypeError] on [null] and [undefined]. *)
Definition member (v : JsValue) (k : string) : M JsValue :=
  match v with
  | JUndefined | JNull => throw
  | JObj fields => ret (obj_get k fields)
  | _ => ret JUndefined
  end.

(** [v === 'literal'] *)
Definition is_str (v : JsValue) (lit : string) : bool :=
  match v with
  | JStr s => String.eqb s lit
  | _ => false
  end.

(** ** The controller ([App.tsx]) *)

Section Controller.
Context {P : Platform}.

(** *** Platform calls, with their outcome recorded *)

Definition rtc_createOffer (i : nat) : M JsValue :=
  st ← get_state;
  match createOffer (the_pc i st) with
  | Some d => emit (RtcCreateOffer i true);; ret d
  | None => emit (RtcCreateOffer i false);; throw
  end.

Definition rtc_createAnswer (i : nat) : M JsValue :=
  st ← get_state;
  match createAnswer (the_pc i st) with
  | Some d => emit (RtcCreateAnswer i true);; ret d
  | None => emit (RtcCreateAnswer i false);; throw
  end.

Definition rtc_setLocalDescription (i : nat) (desc : JsValue) : M unit :=
  st ← get_state;
  match setLocalDescription (the_pc i st) desc with
  | Some pc' => update_pc i (fun _ => pc');; emit (RtcSetLocal i desc true)
  | None => emit (RtcSetLocal i desc false);; throw
  end.

Definition rtc_setRemoteDescription (i : nat) (desc : JsValue) : M unit :=
  st ← get_state;
  match setRemoteDescription (the_pc i st) desc with
  | Some pc' => update_pc i (fun _ => pc');; emit (RtcSetRemote i desc true)
  | None => emit (RtcSetRemote i desc false);; throw
  end.

(** [pc.createDataChannel("chkobba")] *)
Definition rtc_createDataChannel (i : nat) : M nat :=
  ch ← alloc;
  modify (with_browser (with_channels (insert ch rs_connecting)));;
  emit (RtcCreateDataChannel i ch);;
  ret ch.

(** [mqtt.connect(BROKER_URL)], with the closure the two [client.on]
    registrations that follow it capture. *)
Definition mqtt_connect (r : Role) (room : string) (pc : nat) (reconnecting : bool) : M nat :=
  c ← alloc;
  modify (with_browser (with_clients (insert c (MkClient r room pc reconnecting false))));;
  emit (MqttConnect c);;
  ret c.

(** [client.end()] *)
Definition mqtt_end (c : nat) : M unit :=
  modify (with_browser (with_clients
    (alter (fun x => MkClient (cl_role x) (cl_code x) (cl_pc x) (cl_isReconnecting x) true) c)));;
  emit (MqttEnd c).

(** [JSON.parse(text)] *)
Definition parse (text : string) : M JsValue := unwrap (JSON_parse text).

(** The relay topic [`chkobba/${code}/<leaf>`]. *)
Definition topic (room leaf : string) : string :=
  "chkobba/" +:+ room +:+ "/" +:+ leaf.

(** *** Session management *)

Definition saveSession (m : Mode) (r : Role) (c : string) (now : Z) : M unit :=
  setItem "chkobba_session" (JSON_stringify (session_obj (MkSession m r c now))).

Definition clearSession : M unit :=
  removeItem "chkobba_session";;
  removeItem "chkobba_manual_state".

(** A string read from storage that passes [if (saved)]. *)
Definition present (o : option string) : option string :=
  match o with
  | Some s => if String.eqb s "" then None else Some s
  | None => None
  end.

(** [x || ''] for a text field.  A stored value that is truthy but not
    a string (which the application never writes) is taken in its
    string form. *)
Definition or_empty (v : JsValue) : string :=
  if truthy v then js_ToString v else "".

(** The body of the restore-on-mount effect.  [session.code] is kept in
    its string form, the form in which every later use interpolates it. *)
Definition restoreSession (now : Z) : M unit :=
  saved ← getItem "chkobba_session";
  match present saved with
  | Some saved =>
      try_catch
        (session ← parse saved;
         ts ← member session "timestamp";
         if js_lt (js_sub (Fin (inject_Z now)) (js_ToNumber ts))
                  (Fin (inject_Z (2 * 60 * 60 * 1000)))
         then
           m ← member session "mode";
           c ← member session "code";
           r ← member session "role";
           if is_str m "CLOUD" then
             setShortCode (js_ToString c);;
             setInputCode (js_ToString c);;
             setIsReconnecting true;;
             setTimeout (TRestore (is_str r "HOST") (js_ToString c)) 100
           else if is_str m "MANUAL" then
             manualState ← getItem "chkobba_manual_state";
             match present manualState with
             | Some manualState =>
                 parsed ← parse manualState;
                 lo ← member parsed "localOffer";
                 setLocalOffer (or_empty lo);;
                 ra ← member parsed "remoteAnswer";
                 setRemoteAnswer (or_empty ra);;
                 if is_str r "HOST" then setView MANUAL_HOST else setView MANUAL_JOIN
             | None => ret tt
             end
           else ret tt
         else clearSession)
        clearSession
  | None => ret tt
  end.

(** The effect that backs up the manual-mode text fields. *)
Definition saveManualState : M unit :=
  st ← get_state;
  match view (ui st) with
  | MANUAL_HOST | MANUAL_JOIN =>
      setItem "chkobba_manual_state"
        (JSON_stringify (JObj [("localOffer", JStr (localOffer (ui st)));
                               ("remoteAnswer", JStr (remoteAnswer (ui st)))]))
  | _ => ret tt
  end.

(** *** Peer link *)

Definition sendSync (type : string) (payload : list (string * JsValue)) : M unit :=
  st ← get_state;
  match channel_open st with
  | Some ch => emit (DcSend ch (JSON_stringify (JObj (obj_assign [("type", JStr type)] payload))))
  | None => ret tt
  end.

(** One tick of the 3-second interval that exists while the view is [GAME]. *)
Definition heartbeat : M unit :=
  st ← get_state;
  match view (ui st) with
  | GAME =>
      match channel_open st with
      | Some ch => emit (DcSend ch (JSON_stringify (JObj [("type", JStr "HEARTBEAT")])))
      | None => ret tt
      end
  | _ => ret tt
  end.

Definition clearBoard : M unit :=
  setStrokes (fun _ => []);;
  sendSync "CLEAR_BOARD" [].

(** [navigator.vibrate(50)] is recorded as the one-entry pattern. *)
Definition triggerPing : M unit :=
  when navigator_vibrate (emit (Vibrate [50]));;
  sendSync "PING" [].

Definition handleIncomingPing : M unit :=
  setFlash true;;
  when navigator_vibrate (emit (Vibrate [200; 100; 200]));;
  setTimeout TFlashOff 500.

(** A freshly loaded page.  Object identities are never reused, so the
    counter survives a reload. *)
Definition init_ui : Ui := MkUi HOME "" "" "" "" "" "" false [] false.
Definition loaded (storage : gmap string string) (next : nat) : AppState :=
  MkApp init_ui (MkRefs None None None) (MkBrowser ∅ ∅ ∅ [] storage next).
Definition init_state (storage : gmap string string) : AppState := loaded storage 0.

(** [window.location.reload()]: the page's objects are gone, its storage stays. *)
Definition reload : M unit :=
  emit Reload;;
  modify (fun st => loaded (localStorage (browser st)) (next_id (browser st))).

Definition exitGame (confirmed : bool) : M unit :=
  if confirmed then clearSession;; reload else ret tt.

Definition initPC : M nat :=
  st ← get_state;
  match pcRef (refs st) with
  | Some old => update_pc old close_pc;; emit (RtcClose old)
  | None => ret tt
  end;;
  pc ← alloc;
  modify (with_browser (with_pcs (insert pc (MkPcCell new_pc None))));;
  emit (RtcNew pc);;
  set_pcRef (Some pc);;
  ret pc.

(** [pc.onconnectionstatechange] *)
Definition onconnectionstatechange (pc : nat) : M unit :=
  st ← get_state;
  match connectionState (the_pc pc st) with
  | connected =>
      setStatus "Connected";;
      setView GAME;;
      setIsReconnecting false;;
      match mqttClientRef (refs st) with
      | Some c => mqtt_end c
      | None => ret tt
      end
  | disconnected | failed => setStatus "Disconnected. Trying to reconnect..."
  | _ => ret tt
  end.

(** [pc.oniceconnectionstatechange] *)
Definition oniceconnectionstatechange (s : IceConnectionState) : M unit :=
  match s with
  | ice_disconnected => setStatus "Connection paused..."
  | _ => ret tt
  end.

Definition setupDataChannel (ch : nat) : M unit :=
  set_dataChannelRef (Some ch).

(** [channel.onopen] *)
Definition channel_onopen : M unit :=
  setStatus "Connected";;
  setView GAME.

(** [channel.onmessage] *)
Definition channel_onmessage (data : string) : M unit :=
  try_catch
    (data ← parse data;
     type ← member data "type";
     stroke ← member data "stroke";
     if is_str type "SYNC_STROKE" && truthy stroke then
       setStrokes (fun prev => prev ++
         [JObj (obj_assign (spread stroke)
                  [("isRemote", JBool true); ("color", JStr "#22c55e")])])
     else if is_str type "CLEAR_BOARD" then setStrokes (fun _ => [])
     else if is_str type "PING" then handleIncomingPing
     else ret tt)
    (ret tt).

Definition handleStrokeComplete (pts : list Point) (now : Z) : M unit :=
  let newStroke := MkStroke (Z_toString now) pts "#3b82f6" false in
  setStrokes (fun prev => prev ++ [stroke_obj newStroke]);;
  sendSync "SYNC_STROKE" [("stroke", stroke_obj newStroke)].

(** *** Cloud mode (short codes) *)

(** [Math.floor(1000 + Math.random() * 9000).toString()] *)
Definition room_code (random : Q) : string :=
  Z_toString (Qfloor (Double.round (1000 + Double.round (random * 9000)))).

(** [isReconnecting] is the value captured by the closure that calls. *)
Definition connectCloudHost (isReconnecting : bool) (room : string) : M unit :=
  setView HOST_LOBBY;;
  setStatus (if isReconnecting then "Reconnecting..." else "Initializing Host...");;
  pc ← initPC;
  channel ← rtc_createDataChannel pc;
  setupDataChannel channel;;
  st ← get_state;
  match mqttClientRef (refs st) with
  | Some old => mqtt_end old
  | None => ret tt
  end;;
  client ← mqtt_connect HOST room pc isReconnecting;
  set_mqttClientRef (Some client).

Definition startCloudHost (now : Z) (random : Q) : M unit :=
  let room := room_code random in
  setShortCode room;;
  saveSession CLOUD HOST room now;;
  st ← get_state;
  connectCloudHost (isReconnecting (ui st)) room.

(** [client.on('connect', ...)] of the host *)
Definition host_onconnect (client : nat) (c : Client) : M unit :=
  setStatus "Waiting for player...";;
  emit (MqttSubscribe client (topic (cl_code c) "join"));;
  emit (MqttSubscribe client (topic (cl_code c) "answer"));;
  offer ← rtc_createOffer (cl_pc c);
  rtc_setLocalDescription (cl_pc c) offer;;
  when (cl_isReconnecting c)
    (emit (MqttPublish client (topic (cl_code c) "restart") "host_back")).

(** [client.on('message', ...)] of the host *)
Definition host_onmessage (client : nat) (c : Client) (tp msg : string) : M unit :=
  when (endsWith tp "/join" || endsWith tp "/restart")
    (st ← get_state;
     let offer := JSON_stringify (localDescription (the_pc (cl_pc c) st)) in
     emit (MqttPublish client (topic (cl_code c) "offer") offer);;
     setStatus "Sending Offer...");;
  when (endsWith tp "/answer")
    (try_catch
       (answerDesc ← parse msg;
        st ← get_state;
        match signalingState (the_pc (cl_pc c) st) with
        | have_local_offer =>
            rtc_setRemoteDescription (cl_pc c) answerDesc;;
            setStatus "Connecting P2P..."
        | _ => ret tt
        end)
       (emit ConsoleError)).

(** [view] and [isReconnecting] are the values captured by the caller's closure. *)
Definition connectCloudJoiner (view : ViewState) (isReconnecting : bool) (room : string) : M unit :=
  match view with GAME => ret tt | _ => setView JOIN_LOBBY end;;
  setStatus (if isReconnecting then "Reconnecting..." else "Connecting to Cloud...");;
  pc ← initPC;
  st ← get_state;
  match mqttClientRef (refs st) with
  | Some old => mqtt_end old
  | None => ret tt
  end;;
  client ← mqtt_connect JOINER room pc isReconnecting;
  set_mqttClientRef (Some client).

Definition joinCloudGame (now : Z) : M unit :=
  st ← get_state;
  if negb (Nat.eqb (js_length (inputCode (ui st))) 4) then ret tt
  else
    saveSession CLOUD JOINER (inputCode (ui st)) now;;
    connectCloudJoiner (view (ui st)) (isReconnecting (ui st)) (inputCode (ui st)).

(** [client.on('connect', ...)] of the joiner *)
Definition joiner_onconnect (client : nat) (c : Client) : M unit :=
  setStatus "Looking for room...";;
  emit (MqttSubscribe client (topic (cl_code c) "offer"));;
  emit (MqttSubscribe client (topic (cl_code c) "restart"));;
  emit (MqttPublish client (topic (cl_code c) "join") "hello").

(** [client.on('message', ...)] of the joiner *)
Definition joiner_onmessage (client : nat) (c : Client) (tp msg : string) : M unit :=
  if endsWith tp "/restart" then
    emit (MqttPublish client (topic (cl_code c) "join") "hello_again")
  else
    when (endsWith tp "/offer")
      (setStatus "Found Host. Processing...";;
       offerDesc ← parse msg;
       rtc_setRemoteDescription (cl_pc c) offerDesc;;
       answer ← rtc_createAnswer (cl_pc c);
       rtc_setLocalDescription (cl_pc c) answer;;
       setTimeout (TAnswer client (cl_pc c) (cl_code c)) 1000).

(** The callback of the joiner's 1-second timer. *)
Definition publish_answer (client pc : nat) (room : string) : M unit :=
  st ← get_state;
  let answerString := JSON_stringify (localDescription (the_pc pc st)) in
  emit (MqttPublish client (topic room "answer") answerString);;
  setStatus "Connecting P2P...".

(** The callback of the 100 ms timer of the restore effect; its closure
    is the first render's. *)
Definition restore_connect (is_host : bool) (room : string) : M unit :=
  if is_host then connectCloudHost false room
  else connectCloudJoiner HOME false room.

(** The [visibilitychange] listener, when the document became visible.
    The listener is re-created when [view] changes, so its [view] is
    current; [isReconnecting] is the value its render saw. *)
Definition handleVisibilityChange (isReconnecting : bool) : M unit :=
  st ← get_state;
  let is_connected :=
    match pcRef (refs st) with
    | Some pc => match connectionState (the_pc pc st) with connected => true | _ => false end
    | None => false
    end in
  match view (ui st) with
  | GAME =>
      if is_connected then ret tt
      else
        saved ← getItem "chkobba_session";
        match present saved with
        | Some saved =>
            session ← parse saved;
            m ← member session "mode";
            c ← member session "code";
            r ← member session "role";
            when (is_str m "CLOUD")
              (setIsReconnecting true;;
               if is_str r "HOST" then connectCloudHost isReconnecting (js_ToString c)
               else connectCloudJoiner GAME isReconnecting (js_ToString c))
        | None => ret tt
        end
  | _ => ret tt
  end.

(** *** Manual mode (long codes) *)

(** [pc.onicecandidate], when gathering has finished ([e.candidate === null]). *)
Definition onicecandidate_null (pc : nat) (r : Role) : M unit :=
  st ← get_state;
  let sdp := JSON_stringify (localDescription (the_pc pc st)) in
  let compressed := compressToBase64 sdp in
  setLocalOffer compressed;;
  setStatus (match r with HOST => "Ready" | JOINER => "Reply Generated" end).

Definition startManualHost (now : Z) : M unit :=
  setView MANUAL_HOST;;
  saveSession MANUAL HOST "manual" now;;
  setStatus "Generating Code...";;
  pc ← initPC;
  channel ← rtc_createDataChannel pc;
  setupDataChannel channel;;
  set_onicecandidate pc HOST;;
  offer ← rtc_createOffer pc;
  rtc_setLocalDescription pc offer.

(** [JSON.parse(LZString.decompressFromBase64(text))]; a [null] argument
    is parsed in its string form. *)
Definition decode_descriptor (text : string) : M JsValue :=
  parse (default "null" (decompressFromBase64 text)).

Definition handleManualHostConnect : M unit :=
  try_catch
    (st ← get_state;
     match pcRef (refs st) with
     | None => ret tt
     | Some pc =>
         if String.eqb (remoteAnswer (ui st)) "" then ret tt
         else
           desc ← decode_descriptor (remoteAnswer (ui st));
           rtc_setRemoteDescription pc desc;;
           setStatus "Connecting..."
     end)
    (setErrorMsg "Invalid Answer Code").

Definition startManualJoin (now : Z) : M unit :=
  setView MANUAL_JOIN;;
  saveSession MANUAL JOINER "manual" now;;
  setRemoteAnswer "".

Definition handleManualJoinGenerate : M unit :=
  try_catch
    (pc ← initPC;
     st ← get_state;
     offerDesc ← decode_descriptor (remoteAnswer (ui st));
     rtc_setRemoteDescription pc offerDesc;;
     set_onicecandidate pc JOINER;;
     answer ← rtc_createAnswer pc;
     rtc_setLocalDescription pc answer)
    (setErrorMsg "Invalid Host Code").

(** The back arrows of the lobby and of the manual views. *)
Definition lobby_back : M unit := clearSession;; reload.
Definition manual_back : M unit := clearSession;; setView HOME.

End Controller.

(** ** The drawing surface ([DrawingBoard.tsx]) *)

Module DrawingBoard.

(** [canvas.getBoundingClientRect()] *)
Record Rect : Type := MkRect {
  rect_left : Q;
  rect_top : Q;
  rect_width : Q;
  rect_height : Q
}.

(** The native event, reduced to what [getCoords] reads: the pointer
    position of a mouse event, or the [touches] list of a touch event. *)
Inductive NativeEvent : Type :=
| MouseEvent (clientX clientY : Q)
| TouchEvent (touches : list (Q * Q)).

(** [canvas] is [canvasRef.current] with its bounding rectangle. *)
Definition getCoords (canvas : option Rect) (e : NativeEvent) : Completion (option Point) :=
  match canvas with
  | None => Normal None
  | Some rect =>
      let at_ (clientX clientY : Q) :=
        Normal (Some (MkPoint
          (js_div (Double.round (clientX - rect_left rect)) (rect_width rect))
          (js_div (Double.round (clientY - rect_top rect)) (rect_height rect)))) in
      match e with
      | TouchEvent [] => Thrown
      | TouchEvent ((x, y) :: _) => at_ x y
      | MouseEvent x y => at_ x y
      end
  end.

Record Board : Type := MkBoard {
  isDrawing : bool;
  currentPath : list Point
}.

Definition init_board : Board := MkBoard false [].

(** Each handler returns the component's next state, whether it threw,
    and the argument of the [onStrokeComplete] call it made, if any. *)
Definition startDrawing (canvas : option Rect) (e : NativeEvent) (b : Board)
  : Completion (option (list Point)) * Board :=
  match getCoords canvas e with
  | Normal (Some pt) => (Normal None, MkBoard true [pt])
  | Normal None => (Normal None, MkBoard true [])
  | Thrown => (Thrown, MkBoard true [])
  end.

Definition moveDrawing (canvas : option Rect) (e : NativeEvent) (b : Board)
  : Completion (option (list Point)) * Board :=
  if negb (isDrawing b) then (Normal None, b)
  else
    match getCoords canvas e with
    | Normal (Some pt) => (Normal None, MkBoard (isDrawing b) (currentPath b ++ [pt]))
    | Normal None => (Normal None, b)
    | Thrown => (Thrown, b)
    end.

Definition endDrawing (b : Board) : Completion (option (list Point)) * Board :=
  if negb (isDrawing b) then (Normal None, b)
  else
    (Normal (match currentPath b with
             | [] => None
             | path => Some path
             end),
     MkBoard false []).

Inductive Gesture : Type :=
| Start (canvas : option Rect) (e : NativeEvent)
| Move (canvas : option Rect) (e : NativeEvent)
| End_.

Definition handle (g : Gesture) (b : Board) : Completion (option (list Point)) * Board :=
  match g with
  | Start canvas e => startDrawing canvas e b
  | Move canvas e => moveDrawing canvas e b
  | End_ => endDrawing b
  end.

End DrawingBoard.

(** ** The page: events, dispatch, runs *)

#[export] Instance Timer_eq_dec : EqDecision Timer.
Proof. solve_decision. Defined.

#[export] Instance ViewState_eq_dec : EqDecision ViewState.
Proof. solve_decision. Defined.

Fixpoint remove_first (t : Timer) (ts : list Timer) : list Timer :=
  match ts with
  | [] => []
  | t' :: rest => if decide (t = t') then rest else t' :: remove_first t rest
  end.

Inductive Event : Type :=
(* lifecycle and timers *)
| EvMount (now : Z)
| EvVisible (captured_isReconnecting : bool)
| EvHeartbeat
| EvTimer (t : Timer)
(* user actions *)
| EvStartCloudHost (now : Z) (random : Q)
| EvTypeInputCode (text : string)
| EvJoinCloudGame (now : Z)
| EvStartManualHost (now : Z)
| EvStartManualJoin (now : Z)
| EvTypeRemoteAnswer (text : string)
| EvManualHostConnect
| EvManualJoinGenerate
| EvLobbyBack
| EvManualBack
| EvPing
| EvClearBoard
| EvExit (confirmed : bool)
| EvGesture (g : DrawingBoard.Gesture) (now : Z)
(* relay client callbacks *)
| EvMqttConnect (client : nat)
| EvMqttMessage (client : nat) (topic message : string)
(* peer connection and data channel callbacks *)
| EvConnectionState (pc : nat) (s : ConnectionState)
| EvIceConnectionState (pc : nat) (s : IceConnectionState)
| EvIceCandidate (pc : nat) (is_null : bool)
| EvDataChannel (pc : nat) (ready : ReadyState)
| EvChannelReadyState (channel : nat) (s : ReadyState)
| EvChannelMessage (channel : nat) (data : string).

Record Page : Type := MkPage {
  page_app : AppState;
  board : DrawingBoard.Board
}.

Inductive LogItem : Type :=
| Got (e : Event)
| Did (x : Effect).

Section Dispatch.
Context {P : Platform}.

Definition fire_timer (t : Timer) : M unit :=
  st ← get_state;
  if decide (t ∈ timers (browser st)) then
    modify (with_browser (with_timers (remove_first t)));;
    match t with
    | TRestore is_host room => restore_connect is_host room
    | TAnswer client pc room => publish_answer client pc room
    | TFlashOff => setFlash false
    end
  else ret tt.

(** The handler the controller runs for an event.  Callbacks of objects
    that were never created do not occur. *)
Definition handle (e : Event) : M unit :=
  match e with
  | EvMount now => restoreSession now
  | EvVisible captured => handleVisibilityChange captured
  | EvHeartbeat => heartbeat
  | EvTimer t => fire_timer t
  | EvStartCloudHost now random => startCloudHost now random
  | EvTypeInputCode text => setInputCode text
  | EvJoinCloudGame now => joinCloudGame now
  | EvStartManualHost now => startManualHost now
  | EvStartManualJoin now => startManualJoin now
  | EvTypeRemoteAnswer text => setRemoteAnswer text
  | EvManualHostConnect => handleManualHostConnect
  | EvManualJoinGenerate => handleManualJoinGenerate
  | EvLobbyBack => lobby_back
  | EvManualBack => manual_back
  | EvPing => triggerPing
  | EvClearBoard => clearBoard
  | EvExit confirmed => exitGame confirmed
  | EvGesture _ _ => ret tt
  | EvMqttConnect client =>
      st ← get_state;
      match clients (browser st) !! client with
      | Some c =>
          match cl_role c with
          | HOST => host_onconnect client c
          | JOINER => joiner_onconnect client c
          end
      | None => ret tt
      end
  | EvMqttMessage client tp msg =>
      st ← get_state;
      match clients (browser st) !! client with
      | Some c =>
          match cl_role c with
          | HOST => host_onmessage client c tp msg
          | JOINER => joiner_onmessage client c tp msg
          end
      | None => ret tt
      end
  | EvConnectionState pc s =>
      st ← get_state;
      match pcs (browser st) !! pc with
      | Some _ =>
          update_pc pc (fun x => MkPC (signalingState x) s (localDescription x) (remoteDescription x));;
          onconnectionstatechange pc
      | None => ret tt
      end
  | EvIceConnectionState pc s =>
      st ← get_state;
      match pcs (browser st) !! pc with
      | Some _ => oniceconnectionstatechange s
      | None => ret tt
      end
  | EvIceCandidate pc is_null =>
      st ← get_state;
      match pcs (browser st) !! pc with
      | Some (MkPcCell _ (Some r)) => when is_null (onicecandidate_null pc r)
      | _ => ret tt
      end
  | EvDataChannel pc ready =>
      st ← get_state;
      match pcs (browser st) !! pc with
      | Some _ =>
          ch ← alloc;
          modify (with_browser (with_channels (insert ch ready)));;
          setupDataChannel ch
      | None => ret tt
      end
  | EvChannelReadyState ch s =>
      st ← get_state;
      match channels (browser st) !! ch with
      | Some _ =>
          modify (with_browser (with_channels (insert ch s)));;
          match s with rs_open => channel_onopen | _ => ret tt end
      | None => ret tt
      end
  | EvChannelMessage ch data =>
      st ← get_state;
      match channels (browser st) !! ch with
      | Some _ => channel_onmessage data
      | None => ret tt
      end
  end.

(** The dependency list [localOffer, remoteAnswer, view] of the backup effect. *)
Definition manual_deps_changed (before after : Ui) : bool :=
  negb (String.eqb (localOffer before) (localOffer after)
        && String.eqb (remoteAnswer before) (remoteAnswer after)
        && bool_decide (view before = view after)).

(** One event: the handler runs (an exception it does not catch is
    reported by the runtime), then the render that follows runs the
    backup effect if its dependencies changed.  The redraw of the canvas
    in that render is not part of the step. *)
Definition app_step (m : M unit) (st : AppState) : AppState * list Effect :=
  match m st with
  | (r, st1, out) =>
      let out := match r with Normal _ => out | Thrown => out ++ [Uncaught] end in
      if manual_deps_changed (ui st) (ui st1) then
        match saveManualState st1 with
        | (_, st2, out2) => (st2, out ++ out2)
        end
      else (st1, out)
  end.

(** What an event runs.  The drawing surface is mounted while the view
    is [GAME]; a finished gesture calls [handleStrokeComplete]. *)
Definition dispatch (e : Event) (pg : Page) : M unit * DrawingBoard.Board * bool :=
  match e with
  | EvGesture g now =>
      match view (ui (page_app pg)) with
      | GAME =>
          match DrawingBoard.handle g (board pg) with
          | (Normal (Some pts), b) => (handleStrokeComplete pts now, b, false)
          | (Normal None, b) => (mret tt, b, false)
          | (Thrown, b) => (mret tt, b, true)
          end
      | _ => (mret tt, board pg, false)
      end
  | _ => (handle e, board pg, false)
  end.

Definition step (e : Event) (pg : Page) : Page * list Effect :=
  let '(m, b, thrown) := dispatch e pg in
  let '(st, out) := app_step m (page_app pg) in
  (MkPage st (match view (ui st) with GAME => b | _ => DrawingBoard.init_board end),
   out ++ (if thrown : bool then [Uncaught] else [])).

Fixpoint run (evs : list Event) (pg : Page) : Page * list LogItem :=
  match evs with
  | [] => (pg, [])
  | e :: rest =>
      let '(pg1, out) := step e pg in
      let '(pg2, log) := run rest pg1 in
      (pg2, Got e :: map Did out ++ log)
  end.

Definition init_page (storage : gmap string string) : Page :=
  MkPage (init_state storage) DrawingBoard.init_board.

End Dispatch.

(** ** A concrete platform for running examples

    JSON restricted to a fragment (no exponents, no [\u] escapes;
    numbers printed as integers or to six decimals), the identity as
    the text codec, and the offer/answer core of JSEP. *)

Module Demo.

Definition dquote : ascii := ascii_of_nat 34.
Definition backslash : ascii := ascii_of_nat 92.

Definition is_ws (c : ascii) : bool :=
  let n := nat_of_ascii c in
  (Nat.eqb n 32 || Nat.eqb n 9 || Nat.eqb n 10 || Nat.eqb n 13)%bool.

Fixpoint skip_ws (s : string) : string :=
  match s with
  | String c r => if is_ws c then skip_ws r else s
  | EmptyString => s
  end.

Definition digit_of (c : ascii) : option Z :=
  let n := Z.of_nat (nat_of_ascii c) - 48 in
  if (0 <=? n) && (n <=? 9) then Some n else None.

Fixpoint read_digits (s : string) (acc : Z) (count : nat) : Z * nat * string :=
  match s with
  | String c r =>
      match digit_of c with
      | Some d => read_digits r (10 * acc + d) (S count)
      | None => (acc, count, s)
      end
  | EmptyString => (acc, count, s)
  end.

Definition leading_zero (s : string) : bool :=
  match s with
  | String c (String d _) => Ascii.eqb c "0" && bool_decide (is_Some (digit_of d))
  | _ => false
  end.

(** The double a decimal numeral denotes, in lowest terms. *)
Definition to_double (q : Q) : Q := Qred (Double.round q).

Definition read_number (s : string) : option (Q * string) :=
  let '(negative, s1) :=
    match s with
    | String c r => if Ascii.eqb c "-" then (true, r) else (false, s)
    | EmptyString => (false, s)
    end in
  if leading_zero s1 then None
  else
    match read_digits s1 0 0 with
    | (_, O, _) => None
    | (n, _, s2) =>
        let signed (q : Q) := if negative : bool then Qopp q else q in
        match s2 with
        | String c r =>
            if Ascii.eqb c "." then
              match read_digits r 0 0 with
              | (_, O, _) => None
              | (f, k, s3) =>
                  Some (signed (to_double (inject_Z n + Qmake f (Z.to_pos (10 ^ Z.of_nat k)))), s3)
              end
            else Some (signed (to_double (inject_Z n)), s2)
        | EmptyString => Some (signed (to_double (inject_Z n)), s2)
        end
    end.

Definition unescape (c : ascii) : option ascii :=
  if Ascii.eqb c dquote then Some dquote
  else if Ascii.eqb c backslash then Some backslash
  else if Ascii.eqb c "/" then Some "/"%char
  else if Ascii.eqb c "n" then Some (ascii_of_nat 10)
  else if Ascii.eqb c "r" then Some (ascii_of_nat 13)
  else if Ascii.eqb c "t" then Some (ascii_of_nat 9)
  else if Ascii.eqb c "b" then Some (ascii_of_nat 8)
  else if Ascii.eqb c "f" then Some (ascii_of_nat 12)
  else None.

(** The characters after an opening quote, up to the closing one. *)
Fixpoint read_string (s : string) : option (string * string) :=
  match s with
  | EmptyString => None
  | String c r =>
      if Ascii.eqb c dquote then Some (EmptyString, r)
      else if Ascii.eqb c backslash then
        match r with
        | String e r' =>
            match unescape e, read_string r' with
            | Some x, Some (body, rest) => Some (String x body, rest)
            | _, _ => None
            end
        | EmptyString => None
        end
      else if Nat.ltb (nat_of_ascii c) 32 then None
      else
        match read_string r with
        | Some (body, rest) => Some (String c body, rest)
        | None => None
        end
  end.

Definition literal (word : string) (v : JsValue) (s : string) : option (JsValue * string) :=
  if String.prefix word s
  then Some (v, String.substring (String.length word) (String.length s - String.length word) s)
  else None.

(** [value ("," value)* "]"] *)
Fixpoint read_items (value : string -> option (JsValue * string)) (fuel : nat) (s : string)
  : option (list JsValue * string) :=
  match fuel with
  | O => None
  | S fuel =>
      match value s with
      | Some (v, r) =>
          match skip_ws r with
          | String c r' =>
              if Ascii.eqb c "]" then Some ([v], r')
              else if Ascii.eqb c "," then
                match read_items value fuel r' with
                | Some (vs, rest) => Some (v :: vs, rest)
                | None => None
                end
              else None
          | EmptyString => None
          end
      | None => None
      end
  end.

(** [string ":" value ("," string ":" value)* "}"]; a repeated key
    keeps its first position and its last value. *)
Fixpoint read_members (value : string -> option (JsValue * string)) (fuel : nat) (s : string)
  (acc : list (string * JsValue)) : option (list (string * JsValue) * string) :=
  match fuel with
  | O => None
  | S fuel =>
      match skip_ws s with
      | String q r =>
          if Ascii.eqb q dquote then
            match read_string r with
            | Some (k, r1) =>
                match skip_ws r1 with
                | String c r2 =>
                    if Ascii.eqb c ":" then
                      match value r2 with
                      | Some (v, r3) =>
                          match skip_ws r3 with
                          | String d r4 =>
                              if Ascii.eqb d "}" then Some (obj_set k v acc, r4)
                              else if Ascii.eqb d "," then read_members value fuel r4 (obj_set k v acc)
                              else None
                          | EmptyString => None
                          end
                      | None => None
                      end
                    else None
                | EmptyString => None
                end
            | None => None
            end
          else None
      | EmptyString => None
      end
  end.

Fixpoint read_value (fuel : nat) (s : string) : option (JsValue * string) :=
  match fuel with
  | O => None
  | S fuel =>
      match skip_ws s with
      | EmptyString => None
      | String c r as s' =>
          if Ascii.eqb c dquote then
            match read_string r with
            | Some (body, rest) => Some (JStr body, rest)
            | None => None
            end
          else if Ascii.eqb c "[" then
            match skip_ws r with
            | String d r' =>
                if Ascii.eqb d "]" then Some (JArr [], r')
                else
                  match read_items (read_value fuel) fuel r with
                  | Some (vs, rest) => Some (JArr vs, rest)
                  | None => None
                  end
            | EmptyString => None
            end
          else if Ascii.eqb c "{" then
            match skip_ws r with
            | String d r' =>
                if Ascii.eqb d "}" then Some (JObj [], r')
                else
                  match read_members (read_value fuel) fuel r [] with
                  | Some (fs, rest) => Some (JObj fs, rest)
                  | None => None
                  end
            | EmptyString => None
            end
          else if Ascii.eqb c "t" then literal "true" (JBool true) s'
          else if Ascii.eqb c "f" then literal "false" (JBool false) s'
          else if Ascii.eqb c "n" then literal "null" JNull s'
          else
            match read_number s' with
            | Some (q, rest) => Some (JNum (Fin q), rest)
            | None => None
            end
      end
  end.

Definition json_parse (s : string) : option JsValue :=
  match read_value (S (String.length s)) s with
  | Some (v, rest) =>
      match skip_ws rest with
      | EmptyString => Some v
      | _ => None
      end
  | None => None
  end.

Definition hex_digit (n : nat) : ascii :=
  ascii_of_nat (if Nat.ltb n 10 then 48 + n else 87 + n).

Fixpoint escape (s : string) : string :=
  match s with
  | EmptyString => EmptyString
  | String c r =>
      let n := nat_of_ascii c in
      (if Ascii.eqb c dquote || Ascii.eqb c backslash then String backslash (String c EmptyString)
       else if Nat.eqb n 10 then String backslash "n"
       else if Nat.eqb n 13 then String backslash "r"
       else if Nat.eqb n 9 then String backslash "t"
       else if Nat.ltb n 32 then
         String backslash (String "u" (String "0" (String "0"
           (String (hex_digit (Nat.div n 16)) (String (hex_digit (Nat.modulo n 16)) EmptyString)))))
       else String c EmptyString) +:+ escape r
  end.

Definition quoted (s : string) : string :=
  String dquote (escape s +:+ String dquote EmptyString).

Fixpoint pad_left (width : nat) (s : string) : string :=
  match Nat.sub width (String.length s) with
  | O => s
  | S _ => match width with O => s | S w => "0" +:+ pad_left w s end
  end.

(** Integers exactly; other rationals to six decimals. *)
Definition number_text (n : JsNum) : string :=
  match n with
  | Fin q =>
      if Pos.eqb (Qden (Qred q)) 1 then Z_toString (Qnum (Qred q))
      else
        let a := Qabs q in
        let whole := Qfloor a in
        let frac := Qfloor ((a - inject_Z whole) * 1000000) in
        (if Qlt_bool q 0 then "-" else "") +:+ Z_toString whole +:+ "."
          +:+ pad_left 6 (Z_toString frac)
  | _ => "null"
  end.

Fixpoint json_stringify (v : JsValue) : string :=
  match v with
  | JUndefined => "undefined"
  | JNull => "null"
  | JBool true => "true"
  | JBool false => "false"
  | JNum n => number_text n
  | JStr s => quoted s
  | JArr items =>
      "[" +:+ String.concat ","
        ((fix each (l : list JsValue) : list string :=
            match l with
            | [] => []
            | JUndefined :: r => "null" :: each r
            | x :: r => json_stringify x :: each r
            end) items) +:+ "]"
  | JObj fields =>
      "{" +:+ String.concat ","
        ((fix each (l : list (string * JsValue)) : list string :=
            match l with
            | [] => []
            | (_, JUndefined) :: r => each r
            | (k, x) :: r => (quoted k +:+ ":" +:+ json_stringify x) :: each r
            end) fields) +:+ "}"
  end.

Fixpoint to_string_other (v : JsValue) : string :=
  match v with
  | JUndefined => "undefined"
  | JNull => "null"
  | JBool true => "true"
  | JBool false => "false"
  | JNum NaN => "NaN"
  | JNum PosInf => "Infinity"
  | JNum NegInf => "-Infinity"
  | JNum n => number_text n
  | JStr s => s
  | JArr items =>
      String.concat ","
        ((fix each (l : list JsValue) : list string :=
            match l with
            | [] => []
            | JUndefined :: r | JNull :: r => EmptyString :: each r
            | x :: r => to_string_other x :: each r
            end) items)
  | JObj _ => "[object Object]"
  end.

Definition string_to_number (s : string) : JsNum :=
  match skip_ws s with
  | EmptyString => Fin 0
  | s' =>
      match read_number s' with
      | Some (q, rest) => match skip_ws rest with EmptyString => Fin q | _ => NaN end
      | None => NaN
      end
  end.

Definition to_number_other (v : JsValue) : JsNum :=
  match v with
  | JStr s => string_to_number s
  | JArr _ => string_to_number (to_string_other v)
  | _ => NaN
  end.

Definition descriptor (type : string) : JsValue :=
  JObj [("type", JStr type); ("sdp", JStr "v=0")].

Definition create_offer (pc : PC) : option JsValue :=
  match signalingState pc with
  | sig_closed => None
  | _ => Some (descriptor "offer")
  end.

Definition create_answer (pc : PC) : option JsValue :=
  match signalingState pc with
  | have_remote_offer => Some (descriptor "answer")
  | _ => None
  end.

Definition well_formed (desc : JsValue) (type : string) : bool :=
  match desc with
  | JObj fields =>
      is_str (obj_get "type" fields) type
      && match obj_get "sdp" fields with JStr _ => true | _ => false end
  | _ => false
  end.

Definition set_local (pc : PC) (desc : JsValue) : option PC :=
  match signalingState pc with
  | stable =>
      if well_formed desc "offer"
      then Some (MkPC have_local_offer (connectionState pc) desc (remoteDescription pc))
      else None
  | have_remote_offer =>
      if well_formed desc "answer"
      then Some (MkPC stable (connectionState pc) desc (remoteDescription pc))
      else None
  | _ => None
  end.

Definition set_remote (pc : PC) (desc : JsValue) : option PC :=
  match signalingState pc with
  | stable =>
      if well_formed desc "offer"
      then Some (MkPC have_remote_offer (connectionState pc) (localDescription pc) desc)
      else None
  | have_local_offer =>
      if well_formed desc "answer"
      then Some (MkPC stable (connectionState pc) (localDescription pc) desc)
      else None
  | _ => None
  end.

Definition decompress (s : string) : option string :=
  if String.eqb s "" then None else Some s.

#[export] Instance platform : Platform := {|
  JSON_parse := json_parse;
  JSON_stringify := json_stringify;
  ToString_other := to_string_other;
  ToNumber_other := to_number_other;
  compressToBase64 := fun s => s;
  decompressFromBase64 := decompress;
  createOffer := create_offer;
  createAnswer := create_answer;
  setLocalDescription := set_local;
  setRemoteDescription := set_remote;
  navigator_vibrate := true
|}.

End Demo.


(** ** The deck ([constants.tsx]) *)

Module Deck.

Inductive Suit : Type := DINARI | BSTONI | KOB | SBATI.

Definition Suit_str (s : Suit) : string :=
  match s with
  | DINARI => "DINARI"
  | BSTONI => "BSTONI"
  | KOB => "KOB"
  | SBATI => "SBATI"
  end.

#[export] Instance Suit_eq_dec : EqDecision Suit.
Proof. solve_decision. Defined.

(** [CardData] of [types.ts].  A rank is an integer of at most 2^53
    in absolute value, where [toString] prints its decimal numeral; the
    ranks of the deck are 1 to 10. *)
Record CardData : Type := MkCard {
  id : string;
  rank : Z;
  suit : Suit;
  label : string
}.

Definition SUITS : list Suit := [DINARI; BSTONI; KOB; SBATI].

Definition RANKS : list Z := [1; 2; 3; 4; 5; 6; 7; 8; 9; 10].

(** [rank] is an integer in the range of [Z_toString]. *)
Definition getRankLabel (rank : Z) : string :=
  if rank =? 1 then "A"
  else if rank =? 8 then "J"
  else if rank =? 9 then "Q"
  else if rank =? 10 then "K"
  else Z_toString rank.

(** The two nested [forEach] loops push suit by suit, rank by rank. *)
Definition generateDeck : list CardData :=
  flat_map (fun suit =>
    map (fun rank =>
      MkCard (Suit_str suit +:+ "-" +:+ Z_toString rank) rank suit (getRankLabel rank))
      RANKS)
    SUITS.

End Deck.

(** ** Drawing on the canvas ([DrawingBoard.tsx]) *)

Module Render.

(** [a * b] for a coordinate and a finite size. *)
Definition js_mul (a : JsNum) (b : Q) : JsNum :=
  match a with
  | Fin x => Fin (Double.round (x * b))
  | NaN => NaN
  | PosInf => if Qeq_bool b 0 then NaN else if Qlt_bool 0 b then PosInf else NegInf
  | NegInf => if Qeq_bool b 0 then NaN else if Qlt_bool 0 b then NegInf else PosInf
  end.

(** Assignments to, and calls on, the canvas and its 2D context, in
    program order. *)
Inductive CanvasCall : Type :=
| SetWidth (w : Z)
| SetHeight (h : Z)
| ClearRect (x y w h : Z)
| BeginPath
| SetStrokeStyle (color : string)
| SetLineWidth (w : Z)
| SetLineCap (cap : string)
| SetLineJoin (join : string)
| MoveTo (x y : JsNum)
| LineTo (x y : JsNum)
| StrokePath.

Definition drawStroke (stroke : Stroke) (width height : Z) : list CanvasCall :=
  if (length (points stroke) <? 2)%nat then []
  else
    match points stroke with
    | [] => []
    | first :: rest =>
        [BeginPath; SetStrokeStyle (color stroke); SetLineWidth 6;
         SetLineCap "round"; SetLineJoin "round";
         MoveTo (js_mul (px first) (inject_Z width)) (js_mul (py first) (inject_Z height))]
        ++ map (fun p => LineTo (js_mul (px p) (inject_Z width))
                                (js_mul (py p) (inject_Z height))) rest
        ++ [StrokePath]
    end.

(** [mounted] is the container's [clientWidth] and [clientHeight] when
    both refs are set; [has_ctx] tells whether [getContext('2d')]
    answered a context. *)
Definition renderCanvas (mounted : option (Z * Z)) (has_ctx : bool)
    (strokes : list Stroke) (b : DrawingBoard.Board) (color : string) : list CanvasCall :=
  match mounted with
  | None => []
  | Some (width, height) =>
      [SetWidth width; SetHeight height]
      ++ (if has_ctx then
            [ClearRect 0 0 width height]
            ++ flat_map (fun s => drawStroke s width height) strokes
            ++ (if DrawingBoard.isDrawing b
                   && (0 <? length (DrawingBoard.currentPath b))%nat
                then drawStroke (MkStroke "temp" (DrawingBoard.currentPath b) color false)
                                width height
                else [])
          else [])
  end.

End Render.

(** ** The service worker ([sw.js]) *)

Module ServiceWorker.

Record Request : Type := MkRequest {
  method : string;
  url : string
}.

Inductive ResponseType : Type :=
| basic | cors | default_type | error_type | opaque | opaqueredirect.

Record Response : Type := MkResponse {
  status : Z;
  type : ResponseType;
  body : string
}.

(** The [Cache] interface as far as the worker uses it.  How a cache
    matches a request to a stored response is the browser's business;
    [put] is taken to succeed. *)
Class CacheApi : Type := {
  Cache : Type;
  empty_cache : Cache;
  cache_match : Cache -> Request -> option Response;
  cache_put : Cache -> Request -> Response -> Cache
}.

Definition CACHE_NAME : string := "chkobba-offline-v1".

Definition ASSETS_TO_CACHE : list string :=
  ["./"; "./index.html"; "./index.tsx"; "./App.tsx"; "./types.ts"; "./constants.tsx";
   "./components/DrawingBoard.tsx"; "./components/Card.tsx";
   "https://cdn.tailwindcss.com";
   "https://esm.sh/react@^19.2.4"; "https://esm.sh/react-dom@^19.2.4/";
   "https://esm.sh/lucide-react@^0.563.0"; "https://esm.sh/lz-string@1.5.0"].

Section Worker.
Context {C : CacheApi}.

(** [CacheStorage]: the named caches in creation order. *)
Definition CacheStorage : Type := list (string * Cache).

Fixpoint lookup_cache (name : string) (cs : CacheStorage) : option Cache :=
  match cs with
  | [] => None
  | (k, c) :: rest => if String.eqb k name then Some c else lookup_cache name rest
  end.

Fixpoint replace_cache (name : string) (c : Cache) (cs : CacheStorage) : CacheStorage :=
  match cs with
  | [] => []
  | (k, old) :: rest =>
      if String.eqb k name then (k, c) :: rest else (k, old) :: replace_cache name c rest
  end.

(** [caches.open(name)]: the cache of that name, created if there is none. *)
Definition caches_open (name : string) (cs : CacheStorage) : Cache * CacheStorage :=
  match lookup_cache name cs with
  | Some c => (c, cs)
  | None => (empty_cache, cs ++ [(name, empty_cache)])
  end.

(** [caches.match(request)]: the first match, caches taken in creation order. *)
Fixpoint caches_match (req : Request) (cs : CacheStorage) : option Response :=
  match cs with
  | [] => None
  | (_, c) :: rest =>
      match cache_match c req with
      | Some r => Some r
      | None => caches_match req rest
      end
  end.

(** [caches.open(name).then(cache => cache.put(request, response))] *)
Definition put_in (name : string) (req : Request) (r : Response) (cs : CacheStorage)
  : CacheStorage :=
  let '(c, cs1) := caches_open name cs in
  replace_cache name (cache_put c req r) cs1.

(** [response.ok] *)
Definition ok (r : Response) : bool := (200 <=? status r) && (status r <=? 299).

(** [cache.addAll(urls)]: every URL is fetched; unless every fetch
    succeeds with an [ok] response nothing is stored and the promise
    rejects ([None]).  [asset_response] is the outcome for one URL. *)
Definition asset_response (fetched : string -> option Response) (u : string)
  : option (string * Response) :=
  match fetched u with
  | Some r => if ok r then Some (u, r) else None
  | None => None
  end.

Definition addAll (fetched : string -> option Response) (urls : list string) (c : Cache)
  : option Cache :=
  match mapM (asset_response fetched) urls with
  | Some responses =>
      Some (fold_left (fun c ur => cache_put c (MkRequest "GET" ur.1) ur.2) responses c)
  | None => None
  end.

(** The [install] listener; the boolean tells whether the failure of
    [addAll] was caught and logged. *)
Definition on_install (fetched : string -> option Response) (cs : CacheStorage)
  : CacheStorage * bool :=
  let '(c, cs1) := caches_open CACHE_NAME cs in
  match addAll fetched ASSETS_TO_CACHE c with
  | Some c' => (replace_cache CACHE_NAME c' cs1, false)
  | None => (cs1, true)
  end.

(** The [activate] listener: every cache of another name is deleted. *)
Definition on_activate (cs : CacheStorage) : CacheStorage :=
  List.filter (fun entry => String.eqb entry.1 CACHE_NAME) cs.

(** The [fetch] listener.  [network] is what [fetch(event.request)]
    resolves to, [None] when it rejects.  The result is [None] when the
    listener returns without [respondWith], and otherwise what the
    promise given to [respondWith] resolves to ([Some None] for
    [undefined]). *)
Definition on_fetch (req : Request) (network : option Response) (cs : CacheStorage)
  : option (option Response) * CacheStorage :=
  if negb (String.eqb (method req) "GET") then (None, cs)
  else
    let cachedResponse := caches_match req cs in
    let cs' :=
      match network with
      | Some networkResponse =>
          if (status networkResponse =? 200)
             && match type networkResponse with basic => true | _ => false end
          then put_in CACHE_NAME req networkResponse cs
          else cs
      | None => cs
      end in
    (Some (match cachedResponse with
           | Some r => Some r
           | None => network
           end),
     cs').

End Worker.

(** A cache that matches by URL, for running examples. *)
#[export] Instance url_cache : CacheApi := {|
  Cache := list (string * Response);
  empty_cache := [];
  cache_match c req :=
    (fix find (l : list (string * Response)) : option Response :=
       match l with
       | [] => None
       | (u, r) :: rest => if String.eqb u (url req) then Some r else find rest
       end) c;
  cache_put c req r := (url req, r) :: c
|}.

End ServiceWorker.
(** * Specification vocabulary *)

(** [sat R Φ m]: from every state, [m] ends in a state related to the
    start by [R] and performs only effects satisfying [Φ].  With [R] a
    preorder the judgement composes along the handler's text. *)
Definition sat (R : AppState -> AppState -> Prop) (Φ : Effect -> Prop) {A} (m : M A) : Prop :=
  forall st, R st (m st).1.2 /\ Forall Φ (m st).2.

(** Every storage key other than the two the application owns keeps its value. *)
Definition keeps_other_keys (a b : AppState) : Prop :=
  forall k, k ≠ "chkobba_session" -> k ≠ "chkobba_manual_state" ->
    localStorage (browser b) !! k = localStorage (browser a) !! k.

(** The state after both owned keys were removed. *)
Definition cleared (st : AppState) : AppState :=
  with_browser (with_localStorage
    (fun ls => delete "chkobba_manual_state" (delete "chkobba_session" ls))) st.

(** The message shapes of the peer link. *)
Definition stroke_sync_shape (obj : JsValue) : Prop :=
  exists stroke, obj = JObj [("type", JStr "SYNC_STROKE"); ("stroke", stroke)].
Definition clear_board_shape (obj : JsValue) : Prop :=
  obj = JObj [("type", JStr "CLEAR_BOARD")].
Definition ping_shape (obj : JsValue) : Prop :=
  obj = JObj [("type", JStr "PING")].
Definition heartbeat_shape (obj : JsValue) : Prop :=
  obj = JObj [("type", JStr "HEARTBEAT")].

Definition three_shapes (obj : JsValue) : Prop :=
  stroke_sync_shape obj \/ clear_board_shape obj \/ ping_shape obj.
Definition four_shapes (obj : JsValue) : Prop :=
  three_shapes obj \/ heartbeat_shape obj.

(** An effect that, if it is a send on a data channel, sends the JSON
    text of an object of one of the given shapes. *)
Definition sends_only {P : Platform} (shape : JsValue -> Prop) (x : Effect) : Prop :=
  match x with
  | DcSend _ data => exists obj, data = JSON_stringify obj /\ shape obj
  | _ => True
  end.

(** The four relay topics of a room. *)
Definition relay_topic {P : Platform} (t : string) : Prop :=
  exists room, t = topic room "join" \/ t = topic room "offer"
            \/ t = topic room "answer" \/ t = topic room "restart".

Definition on_relay_topic {P : Platform} (x : Effect) : Prop :=
  match x with
  | MqttSubscribe _ t | MqttPublish _ t _ => relay_topic t
  | _ => True
  end.

(** The relation that constrains nothing. *)
Definition any_state (a b : AppState) : Prop := True.

(** Lifts a property of effects to the entries of a log. *)
Definition did (Φ : Effect -> Prop) (x : LogItem) : Prop :=
  match x with
  | Did e => Φ e
  | Got _ => True
  end.

Definition is_send (x : Effect) : bool :=
  match x with DcSend _ _ => true | _ => false end.

(** The strokes list is what it was. *)
Definition same_strokes (a b : AppState) : Prop :=
  strokes (ui b) = strokes (ui a).

(** The callbacks through which the page learns that a link came up. *)
Definition connection_event (e : Event) : bool :=
  match e with
  | EvConnectionState _ _ | EvIceConnectionState _ _
  | EvDataChannel _ _ | EvChannelReadyState _ _ => true
  | _ => false
  end.

(** The messages without a payload: the two control messages and the
    keep-alive. *)
Definition control_shape (obj : JsValue) : Prop :=
  clear_board_shape obj \/ ping_shape obj \/ heartbeat_shape obj.

(** The path an event completes: the points drawn so far, when the
    pointer is lifted from the mounted surface while a path with at
    least one point is being drawn; with the time of the lift. *)
Definition completed (e : Event) (pg : Page) : option (list Point * Z) :=
  match e, view (ui (page_app pg)) with
  | EvGesture DrawingBoard.End_ now, GAME =>
      if DrawingBoard.isDrawing (board pg) then
        match DrawingBoard.currentPath (board pg) with
        | [] => None
        | path => Some (path, now)
        end
      else None
  | _, _ => None
  end.

(** The largest double below 1. *)
Definition below_one : Q := (1 - (1 # 9007199254740992))%Q.

(** *** Manual codes *)

(** What a pasted code decodes to: the text is decompressed and the
    result parsed as JSON. *)
Definition decoded {P : Platform} (text : string) : option JsValue :=
  JSON_parse (default "null" (decompressFromBase64 text)).

(** A pasted code is valid for a peer connection when it decodes to a
    descriptor the connection accepts as its remote description. *)
Definition valid_code {P : Platform} (pc : PC) (text : string) : bool :=
  match decoded text with
  | Some desc => bool_decide (is_Some (setRemoteDescription pc desc))
  | None => false
  end.

(** No remote description was set. *)
Definition sets_no_remote (x : Effect) : Prop :=
  match x with
  | RtcSetRemote _ _ true => False
  | _ => True
  end.

(** *** Gestures *)

(** The point a pointer event adds to the path, if any. *)
Definition captured (canvas : option DrawingBoard.Rect) (e : DrawingBoard.NativeEvent)
  : list Point :=
  match DrawingBoard.getCoords canvas e with
  | Normal (Some pt) => [pt]
  | _ => []
  end.

(** A pointer event as the surface sees it: the canvas at that moment,
    the native event, and the clock. *)
Definition Pointer : Type := option DrawingBoard.Rect * DrawingBoard.NativeEvent * Z.

Definition move_event (p : Pointer) : Event :=
  EvGesture (DrawingBoard.Move p.1.1 p.1.2) p.2.

(** One gesture: pointer down, any number of moves, pointer up. *)
Definition gesture (down : Pointer) (moves : list Pointer) (up_time : Z) : list Event :=
  EvGesture (DrawingBoard.Start down.1.1 down.1.2) down.2
    :: map move_event moves ++ [EvGesture DrawingBoard.End_ up_time].

(** The points of a gesture, in the order the events arrived. *)
Definition gesture_points (down : Pointer) (moves : list Pointer) : list Point :=
  captured down.1.1 down.1.2 ++ concat (map (fun p : Pointer => captured p.1.1 p.1.2) moves).

(** The data-channel sends of a log, in order. *)
Definition sends (log : list LogItem) : list Effect :=
  omap (fun x => match x with Did (DcSend ch d) => Some (DcSend ch d) | _ => None end) log.

(** *** Scenarios *)

(** A host connects, draws one stroke, loses the link, draws a second
    stroke, and reconnects. *)
Definition reconnect_before : list Event :=
  let canvas := Some (DrawingBoard.MkRect 0 56 400 600) in
  let answer := Demo.json_stringify (Demo.descriptor "answer") in
  [EvStartCloudHost 1700000000000 (1 # 2);
   EvMqttConnect 2;
   EvMqttMessage 2 "chkobba/5500/join" "hello";
   EvMqttMessage 2 "chkobba/5500/answer" answer;
   EvConnectionState 0 connected;
   EvChannelReadyState 1 rs_open;
   EvGesture (DrawingBoard.Start canvas (DrawingBoard.MouseEvent 100 356)) 1700000001000;
   EvGesture DrawingBoard.End_ 1700000002000;
   EvChannelReadyState 1 rs_closed;
   EvConnectionState 0 disconnected;
   EvGesture (DrawingBoard.Start canvas (DrawingBoard.MouseEvent 200 356)) 1700000003000;
   EvGesture DrawingBoard.End_ 1700000004000;
   EvVisible false;
   EvMqttConnect 5;
   EvMqttMessage 5 "chkobba/5500/join" "hello_again";
   EvMqttMessage 5 "chkobba/5500/answer" answer].

(** A joiner has connected to the relay for room 1234. *)
Definition joiner_waiting : list Event :=
  [EvTypeInputCode "1234"; EvJoinCloudGame 1700000000000; EvMqttConnect 1].




(** *** The joiner's side of the descriptor exchange *)

(** The log shows relay client [c] handling an offer for [room]: it
    received a message on a topic ending in /offer (and not in /restart,
    which the handler tests first), parsed it, set it as remote
    description of its peer connection [pc], created an answer, set it
    as local description, and scheduled the publication of the answer
    for [room], in this order. *)
Definition offer_handled {P : Platform} (c pc : nat) (room : string)
    (log : list LogItem) : Prop :=
  exists tp msg desc answer,
    sublist [Got (EvMqttMessage c tp msg);
             Did (RtcSetRemote pc desc true);
             Did (RtcCreateAnswer pc true);
             Did (RtcSetLocal pc answer true);
             Did (SetTimeout (TAnswer c pc room) 1000)] log
    /\ endsWith tp "/offer" = true
    /\ endsWith tp "/restart" = false
    /\ JSON_parse msg = Some desc.

(** No answer timer is pending that was not pending before. *)
Definition no_new_answer_timer (a b : AppState) : Prop :=
  forall c pc room,
    TAnswer c pc room ∈ timers (browser b) -> TAnswer c pc room ∈ timers (browser a).

(** An effect other than a publish on a topic ending in /answer. *)
Definition not_answer_publish (x : Effect) : Prop :=
  match x with
  | MqttPublish _ t _ => endsWith t "/answer" = false
  | _ => True
  end.

(** Every pending answer timer was scheduled by the handling of an offer. *)
Definition answer_timers_justified {P : Platform} (st : AppState) (log : list LogItem) : Prop :=
  forall c pc room, TAnswer c pc room ∈ timers (browser st) -> offer_handled c pc room log.

(** Every publish on a topic ending in /answer is on the answer topic
    of a room, and comes after its client handled an offer for that room. *)
Definition answers_follow_offers {P : Platform} (log : list LogItem) : Prop :=
  forall pre c t payload post,
    log = pre ++ Did (MqttPublish c t payload) :: post ->
    endsWith t "/answer" = true ->
    exists pc room, t = topic room "answer" /\ offer_handled c pc room pre.

(** The events other than a relay message and an answer timer. *)
Definition plain_event (e : Event) : Prop :=
  match e with
  | EvMqttMessage _ _ _ | EvTimer (TAnswer _ _ _) => False
  | _ => True
  end.

(** What running one event's handler can amount to, as far as answers
    are concerned: nothing, the publication of a pending answer, or the
    handling of an offer. *)
Inductive Outcome {P : Platform} (e : Event) (st st1 : AppState) (out : list Effect) : Prop :=
| Quiet :
    no_new_answer_timer st st1 -> Forall not_answer_publish out ->
    Outcome e st st1 out
| Answered c pc room payload :
    TAnswer c pc room ∈ timers (browser st) ->
    out = [MqttPublish c (topic room "answer") payload] ->
    no_new_answer_timer st st1 ->
    Outcome e st st1 out
| OfferHandled c tp msg desc pc answer room :
    e = EvMqttMessage c tp msg ->
    endsWith tp "/offer" = true -> endsWith tp "/restart" = false ->
    JSON_parse msg = Some desc ->
    out = [RtcSetRemote pc desc true; RtcCreateAnswer pc true;
           RtcSetLocal pc answer true; SetTimeout (TAnswer c pc room) 1000] ->
    timers (browser st1) = timers (browser st) ++ [TAnswer c pc room] ->
    Outcome e st st1 out.

(** A joiner in room 1234 receives an offer and, a second later, answers. *)
Definition joiner_exchange : list Event :=
  joiner_waiting ++
  [EvMqttMessage 1 "chkobba/1234/offer" (Demo.json_stringify (Demo.descriptor "offer"));
   EvTimer (TAnswer 1 0 "1234")].


(** ** Vocabulary of the further properties *)

(** A value that survives [JSON.parse(JSON.stringify(v))], as objects
    of strings, booleans and finite numbers do. *)
Definition json_round_trip {P : Platform} (v : JsValue) : Prop :=
  JSON_stringify v ≠ "" /\ JSON_parse (JSON_stringify v) = Some v.

(** The page a reload produces from a state: storage and the identity
    counter stay, everything else starts afresh. *)
Definition reloaded (st : AppState) : Page :=
  MkPage (loaded (localStorage (browser st)) (next_id (browser st)))
         DrawingBoard.init_board.

Definition is_host (r : Role) : bool :=
  match r with HOST => true | JOINER => false end.

Definition manual_view (r : Role) : ViewState :=
  match r with HOST => MANUAL_HOST | JOINER => MANUAL_JOIN end.

(** An effect that, if it is a send, goes to the given channel. *)
Definition sent_on (target : option nat) (x : Effect) : Prop :=
  match x with
  | DcSend ch _ => target = Some ch
  | _ => True
  end.

(** The events whose handlers send on the data channel. *)
Definition sending_event (e : Event) : bool :=
  match e with
  | EvHeartbeat | EvPing | EvClearBoard | EvGesture _ _ => true
  | _ => false
  end.

(** Every relay client that was not ended is the one [mqttClientRef] holds. *)
Definition one_live_client (st : AppState) : Prop :=
  forall i c, clients (browser st) !! i = Some c -> cl_ended c = false ->
    mqttClientRef (refs st) = Some i.

(** A handler's end state has the property if its start state has it. *)
Definition keeps_one_live_client (a b : AppState) : Prop :=
  one_live_client a -> one_live_client b.

(** How a strokes list can differ from an earlier one after one step:
    not at all, emptied, or one entry longer at the end. *)
Definition stroke_change (before after : list JsValue) : Prop :=
  after = before \/ after = [] \/ exists s, after = before ++ [s].

(** The events whose handlers touch the strokes list. *)
Definition strokes_event (e : Event) : bool :=
  match e with
  | EvChannelMessage _ _ | EvClearBoard | EvGesture _ _ | EvExit _ | EvLobbyBack => true
  | _ => false
  end.

(** [pcRef.current?.connectionState !== 'connected'] *)
Definition not_connected (st : AppState) : Prop :=
  forall pc, pcRef (refs st) = Some pc -> connectionState (the_pc pc st) ≠ connected.

(** The position [getCoords] reads from a native event: the pointer's,
    or the first touch's. *)
Definition position (e : DrawingBoard.NativeEvent) : option (Q * Q) :=
  match e with
  | DrawingBoard.MouseEvent x y => Some (x, y)
  | DrawingBoard.TouchEvent ((x, y) :: _) => Some (x, y)
  | DrawingBoard.TouchEvent [] => None
  end.

(** A number that is a double. *)
Definition is_double (q : Q) : Prop := (Double.round q == q)%Q.

(** The position lies on the canvas rectangle, borders included. *)
Definition inside (rect : DrawingBoard.Rect) (x y : Q) : Prop :=
  (DrawingBoard.rect_left rect <= x
   /\ x <= DrawingBoard.rect_left rect + DrawingBoard.rect_width rect
   /\ DrawingBoard.rect_top rect <= y
   /\ y <= DrawingBoard.rect_top rect + DrawingBoard.rect_height rect)%Q.

Definition finite (n : JsNum) : bool :=
  match n with Fin _ => true | _ => false end.

(** Half the spacing of the doubles between 1 and 2: the largest
    relative error of one rounding. *)
Definition unit_roundoff : Q := 1 # 9007199254740992.

(** The point from which rounding to a double overflows to an
    infinity: halfway between the largest double and 2^1024. *)
Definition overflow_threshold : Q := 2 ^ 1024 - 2 ^ 970.

(** In the normal range of the doubles: at least the smallest positive
    normal double, and below the overflow threshold. *)
Definition normal (q : Q) : Prop := (2 ^ (-1022) <= q /\ q < overflow_threshold)%Q.

(** The coordinates given to [moveTo] and [lineTo], in call order. *)
Definition vertices (calls : list Render.CanvasCall) : list (JsNum * JsNum) :=
  omap (fun c => match c with
                 | Render.MoveTo x y | Render.LineTo x y => Some (x, y)
                 | _ => None
                 end) calls.

(** A stroke that [drawStroke] draws. *)
Definition drawable (s : Stroke) : bool := (2 <=? length (points s))%nat.

(** The offset of a position from the canvas corner, as [getCoords]
    computes it before dividing. *)
Definition offset (rect : DrawingBoard.Rect) (pos : Q * Q) : Q * Q :=
  (Double.round (pos.1 - DrawingBoard.rect_left rect),
   Double.round (pos.2 - DrawingBoard.rect_top rect)).

(** An offset that is zero, or whose quotient by the canvas size, whose
    half and whose double are in the normal range of the doubles: no
    operation on it underflows or overflows. *)
Definition scalable (d size : Q) : Prop :=
  (d == 0)%Q \/ (normal (d / size) /\ normal (d / 2) /\ normal (2 * d)).

Definition scalable_position (rect : DrawingBoard.Rect) (pos : Q * Q) : Prop :=
  scalable (offset rect pos).1 (DrawingBoard.rect_width rect)
  /\ scalable (offset rect pos).2 (DrawingBoard.rect_height rect).

(** A finite number within three unit roundoffs of [d], relatively. *)
Definition close_to (d : Q) (n : JsNum) : Prop :=
  match n with
  | Fin v => (d * (1 - 3 * unit_roundoff) <= v /\ v <= d * (1 + 3 * unit_roundoff))%Q
  | _ => False
  end.

(** The points a list of mouse positions is captured as. *)
Definition captured_at (rect : DrawingBoard.Rect) (positions : list (Q * Q)) : list Point :=
  flat_map (fun pos => captured (Some rect) (DrawingBoard.MouseEvent pos.1 pos.2)) positions.

(** *** Laws of a cache *)

(** A response put under a request is the one matched for it afterwards. *)
Definition put_then_match {C : ServiceWorker.CacheApi} : Prop :=
  forall c req r,
    ServiceWorker.cache_match (ServiceWorker.cache_put c req r) req = Some r.

(** Putting under one URL does not disturb the match for another. *)
Definition put_keeps_others {C : ServiceWorker.CacheApi} : Prop :=
  forall c req r req',
    ServiceWorker.url req' ≠ ServiceWorker.url req ->
    ServiceWorker.cache_match (ServiceWorker.cache_put c req r) req'
    = ServiceWorker.cache_match c req'.

(** Every asset was fetched with an [ok] response. *)
Definition all_fetched (fetched : string -> option ServiceWorker.Response) : Prop :=
  Forall (fun u => exists r, fetched u = Some r /\ ServiceWorker.ok r = true)
         ServiceWorker.ASSETS_TO_CACHE.

(** *** Relay topics of the two roles *)

(** The topics subscribed to, in order. *)
Definition subscriptions (out : list Effect) : list string :=
  omap (fun x => match x with MqttSubscribe _ t => Some t | _ => None end) out.

(** An effect that, if it is a publish, is on one of the given topics. *)
Definition publishes_on (allowed : list string) (x : Effect) : Prop :=
  match x with
  | MqttPublish _ t _ => t ∈ allowed
  | _ => True
  end.

(** An effect that, if it starts a timer, starts the given one. *)
Definition schedules_only (t : Timer) (x : Effect) : Prop :=
  match x with
  | SetTimeout t' _ => t' = t
  | _ => True
  end.

Definition host_listens {P : Platform} (room : string) : list string :=
  [topic room "join"; topic room "answer"].

Definition joiner_listens {P : Platform} (room : string) : list string :=
  [topic room "offer"; topic room "restart"].

(** *** The view and the error text *)

(** The two callbacks that report the link as up. *)
Definition link_is_up (e : Event) : bool :=
  match e with
  | EvConnectionState _ connected | EvChannelReadyState _ rs_open => true
  | _ => false
  end.

(** The end state is in the game view only if the start state was. *)
Definition no_entry_to_game (a b : AppState) : Prop :=
  view (ui b) = GAME -> view (ui a) = GAME.

(** The events that reload the page. *)
Definition reloads (e : Event) : bool :=
  match e with
  | EvExit true | EvLobbyBack => true
  | _ => false
  end.

(** An error text that is shown stays shown. *)
Definition keeps_error (a b : AppState) : Prop :=
  errorMsg (ui a) ≠ "" -> errorMsg (ui b) ≠ "".

(** *** Peer connections *)

(** A closed connection stays closed: the browser rejects
    [setLocalDescription] and [setRemoteDescription] on it, and whatever
    a platform made of them would still be closed. *)
Definition closed_stays_closed {P : Platform} : Prop :=
  forall pc d pc',
    signalingState pc = sig_closed ->
    setLocalDescription pc d = Some pc' \/ setRemoteDescription pc d = Some pc' ->
    signalingState pc' = sig_closed.

(** Every peer connection other than the one [pcRef] holds is closed. *)
Definition one_open_connection (st : AppState) : Prop :=
  forall i c, pcs (browser st) !! i = Some c -> pcRef (refs st) ≠ Some i ->
    signalingState (pc_obj c) = sig_closed.

Definition keeps_one_open_connection (a b : AppState) : Prop :=
  one_open_connection a -> one_open_connection b.
(** * Verification *)

(** ** The frame rule, along the handler's text *)

Section Frame.
Context {P : Platform}.
Variable R : AppState -> AppState -> Prop.
Variable Φ : Effect -> Prop.
Context {R_preorder : PreOrder R}.

#[local] Abbreviation ok := (sat R Φ).

Lemma sat_ret {A} (a : A) : ok (mret a).
Proof. intros st. split; [reflexivity | constructor]. Qed.

Lemma sat_throw {A} : ok (@throw A).
Proof. intros st. split; [reflexivity | constructor]. Qed.

Lemma sat_get : ok get_state.
Proof. intros st. split; [reflexivity | constructor]. Qed.

Lemma sat_emit e : Φ e -> ok (emit e).
Proof. intros He st. split; [reflexivity | by repeat constructor]. Qed.

Lemma sat_modify f : (forall st, R st (f st)) -> ok (modify f).
Proof. intros Hf st. split; [apply Hf | constructor]. Qed.

Lemma sat_bind {A B} (m : M A) (k : A -> M B) :
  ok m -> (forall a, ok (k a)) -> ok (m ≫= k).
Proof.
  intros Hm Hk st. specialize (Hm st).
  unfold mbind, M_bind, bind.
  destruct (m st) as [[[a|] st1] out1]; simpl in *.
  - specialize (Hk a st1). destruct (k a st1) as [[r st2] out2]; simpl in *.
    destruct Hm, Hk. split; [by etrans | by apply Forall_app].
  - done.
Qed.

Lemma sat_try (body handler : M unit) :
  ok body -> ok handler -> ok (try_catch body handler).
Proof.
  intros Hb Hh st. specialize (Hb st). unfold try_catch.
  destruct (body st) as [[[a|] st1] out1]; simpl in *; [done|].
  specialize (Hh st1). destruct (handler st1) as [[r st2] out2]; simpl in *.
  destruct Hb, Hh. split; [by etrans | by apply Forall_app].
Qed.

Lemma sat_when (b : bool) (m : M unit) : ok m -> ok (when b m).
Proof. destruct b; [done | intros _; apply sat_ret]. Qed.

Lemma sat_unwrap {A} (o : option A) : ok (unwrap o).
Proof. destruct o; [apply sat_ret | apply sat_throw]. Qed.

Lemma sat_app_step (m : M unit) (st : AppState) :
  Φ Uncaught -> ok m -> ok saveManualState ->
  R st (app_step m st).1 /\ Forall Φ (app_step m st).2.
Proof.
  intros Hu Hm Hs. unfold app_step. specialize (Hm st).
  destruct (m st) as [[r st1] out]; simpl in *. destruct Hm as [HR HF].
  assert (Forall Φ (match r with Normal _ => out | Thrown => out ++ [Uncaught] end)) as HF'.
  { destruct r; [done | apply Forall_app; split; [done | by repeat constructor]]. }
  destruct (manual_deps_changed _ _); [| done].
  specialize (Hs st1). destruct (saveManualState st1) as [[r2 st2] out2]; simpl in *.
  destruct Hs. split; [by etrans | by apply Forall_app].
Qed.

Lemma sat_dispatch e pg :
  (forall e, ok (handle e)) ->
  (forall pts now, ok (handleStrokeComplete pts now)) ->
  ok (dispatch e pg).1.1.
Proof.
  intros Hh Hs. unfold dispatch.
  destruct e; try apply Hh.
  destruct (view _); try apply sat_ret.
  destruct (DrawingBoard.handle _ _) as [[[pts|]|] b]; simpl;
    [apply Hs | apply sat_ret | apply sat_ret].
Qed.

Lemma sat_step e pg :
  Φ Uncaught ->
  ok (dispatch e pg).1.1 ->
  ok saveManualState ->
  R (page_app pg) (page_app (step e pg).1) /\ Forall Φ (step e pg).2.
Proof.
  intros Hu Hd Hm. unfold step.
  destruct (dispatch e pg) as [[m b] thrown]; simpl in Hd.
  pose proof (sat_app_step m (page_app pg) Hu Hd Hm) as [HR HF].
  destruct (app_step m (page_app pg)) as [st out]; simpl in *.
  split; [done |].
  apply Forall_app; split; [done |].
  destruct thrown; by repeat constructor.
Qed.

Lemma sat_step_all e pg :
  Φ Uncaught ->
  (forall e, ok (handle e)) ->
  (forall pts now, ok (handleStrokeComplete pts now)) ->
  ok saveManualState ->
  R (page_app pg) (page_app (step e pg).1) /\ Forall Φ (step e pg).2.
Proof. intros Hu Hh Hs Hm. apply sat_step; [exact Hu | apply sat_dispatch; assumption | exact Hm]. Qed.

End Frame.

#[export] Instance any_state_preorder : PreOrder any_state.
Proof. by split. Qed.

Create HintDb handlers.

#[global] Hint Unfold
  restoreSession saveSession clearSession saveManualState sendSync heartbeat
  clearBoard triggerPing handleIncomingPing reload exitGame initPC
  onconnectionstatechange oniceconnectionstatechange setupDataChannel
  channel_onopen channel_onmessage handleStrokeComplete connectCloudHost
  startCloudHost host_onconnect host_onmessage connectCloudJoiner joinCloudGame
  joiner_onconnect joiner_onmessage publish_answer restore_connect
  handleVisibilityChange onicecandidate_null startManualHost decode_descriptor
  handleManualHostConnect startManualJoin handleManualJoinGenerate lobby_back
  manual_back fire_timer handle
  rtc_createOffer rtc_createAnswer rtc_setLocalDescription rtc_setRemoteDescription
  rtc_createDataChannel mqtt_connect mqtt_end parse member
  setView setStatus setErrorMsg setShortCode setInputCode setLocalOffer
  setRemoteAnswer setFlash setStrokes setIsReconnecting set_pcRef
  set_dataChannelRef set_mqttClientRef getItem setItem removeItem setTimeout
  update_pc set_onicecandidate : handlers.

(** Walks a handler's text; leaves the obligations on its effects and
    state updates. *)
Ltac sat_walk :=
  repeat first
    [ match goal with
      | |- PreOrder _ => apply _
      | |- forall _, sat _ _ _ => intros ?
      | |- sat _ _ (match ?x with _ => _ end) => destruct x
      | |- sat _ _ (let _ := _ in _) => cbv zeta
      | |- sat _ _ alloc => intros ?; simpl; split; [| constructor]
      end
    | apply sat_ret | apply sat_throw | apply sat_get | apply sat_unwrap
    | apply sat_bind
    | apply sat_try
    | apply sat_when
    | apply sat_emit
    | apply sat_modify; intros ?
    | progress autounfold with handlers ].

(** What holds of every step's effects holds of every entry of a log. *)
Lemma run_did {P : Platform} (Φ : Effect -> Prop) :
  (forall e pg, Forall Φ (step e pg).2) ->
  forall evs pg, Forall (did Φ) (run evs pg).2.
Proof.
  intros Hstep evs. induction evs as [|e rest IH]; intros pg; simpl; [constructor |].
  specialize (Hstep e pg). destruct (step e pg) as [pg1 out]; simpl in Hstep.
  specialize (IH pg1). destruct (run rest pg1) as [pg2 log]; simpl in *.
  constructor; [done |]. apply Forall_app; split; [| done].
  apply Forall_fmap. by eapply Forall_impl.
Qed.

(** ** Rounding to double *)

Section Doubles.
Import Double.
#[local] Open Scope Q_scope.

Lemma pow2_pos z : 0 < 2 ^ z.
Proof. apply Qpower_0_lt. reflexivity. Qed.

Lemma pow2_le a b : (a <= b)%Z -> 2 ^ a <= 2 ^ b.
Proof. intros H. apply Qpower_le_compat_l; [done | discriminate]. Qed.

Lemma pow2_lt a b : (a < b)%Z -> 2 ^ a < 2 ^ b.
Proof. intros H. apply Qpower_lt_compat_l; [done | reflexivity]. Qed.

Lemma pow2_succ a : 2 ^ (a + 1) == 2 * 2 ^ a.
Proof. rewrite Qpower_plus by discriminate. rewrite Qpower_1_r. ring. Qed.

Lemma pow2_Z k : (0 <= k)%Z -> inject_Z (2 ^ k) == 2 ^ k.
Proof. intros H. by rewrite Zpower_Qpower. Qed.

Lemma log2_floor_spec q :
  0 < q -> 2 ^ log2_floor q <= q /\ q < 2 ^ (log2_floor q + 1).
Proof.
  intros Hq. unfold log2_floor.
  destruct q as [n d]. cbn [Qnum Qden].
  assert (0 < n)%Z as Hn by (unfold Qlt in Hq; simpl in Hq; lia).
  set (ln := Z.log2 n). set (ld := Z.log2 (Z.pos d)).
  destruct (Z.log2_spec n Hn) as [Hn1 Hn2]. fold ln in Hn1, Hn2.
  destruct (Z.log2_spec (Z.pos d) eq_refl) as [Hd1 Hd2]. fold ld in Hd1, Hd2.
  assert (0 <= ln)%Z as Hln by apply Z.log2_nonneg.
  assert (0 <= ld)%Z as Hld by apply Z.log2_nonneg.
  assert (n # d == inject_Z n / inject_Z (Z.pos d)) as Hq' by apply Qmake_Qdiv.
  assert (0 < inject_Z (Z.pos d)) as Hdpos by reflexivity.
  (* bounds in Q *)
  assert (2 ^ ln <= inject_Z n) as A1.
  { rewrite <- pow2_Z by done. by rewrite <- Zle_Qle. }
  assert (inject_Z n < 2 ^ (ln + 1)) as A2.
  { rewrite <- pow2_Z by lia. by rewrite <- Zlt_Qlt. }
  assert (2 ^ ld <= inject_Z (Z.pos d)) as B1.
  { rewrite <- pow2_Z by done. by rewrite <- Zle_Qle. }
  assert (inject_Z (Z.pos d) < 2 ^ (ld + 1)) as B2.
  { rewrite <- pow2_Z by lia. by rewrite <- Zlt_Qlt. }
  assert (2 ^ (ln - ld) == 2 ^ ln / 2 ^ ld) as E by (apply Qpower_minus; discriminate).
  pose proof (pow2_pos ln) as Pln. pose proof (pow2_pos ld) as Pld.
  set (N := inject_Z n) in *. set (D := inject_Z (Z.pos d)) in *.
  rewrite pow2_succ in A2, B2.
  assert (N / D < 2 * (2 ^ ln / 2 ^ ld)) as Hup.
  { apply Qlt_shift_div_r; [done |].
    assert (2 * (2 ^ ln / 2 ^ ld) * D == (2 * 2 ^ ln) * D / 2 ^ ld) as -> by (field; lra).
    apply Qlt_shift_div_l; [done |]. nra. }
  assert (2 ^ ln / 2 ^ ld < 2 * (N / D)) as Hlow.
  { apply Qlt_shift_div_r; [done |].
    assert (2 * (N / D) * 2 ^ ld == (2 * N * 2 ^ ld) / D) as -> by (field; lra).
    apply Qlt_shift_div_l; [done |]. nra. }
  destruct (Qle_bool (2 ^ (ln - ld)) (n # d)) eqn:Hcmp; rewrite Hq'.
  - apply Qle_bool_iff in Hcmp. rewrite Hq' in Hcmp.
    split; [done |]. rewrite pow2_succ, E. done.
  - assert (N / D < 2 ^ (ln - ld)) as Hlt.
    { apply Qnot_le_lt. intros Hle. rewrite <- Hq' in Hle.
      apply Qle_bool_iff in Hle. congruence. }
    replace (ln - ld - 1 + 1)%Z with (ln - ld)%Z by lia.
    split; [| done].
    assert (2 ^ (ln - ld) == 2 * 2 ^ (ln - ld - 1)) as E2.
    { rewrite <- pow2_succ. by replace (ln - ld - 1 + 1)%Z with (ln - ld)%Z by lia. }
    rewrite E in E2. lra.
Qed.

Lemma log2_floor_mono q1 q2 : 0 < q1 -> q1 <= q2 -> (log2_floor q1 <= log2_floor q2)%Z.
Proof.
  intros H1 H12.
  destruct (log2_floor_spec q1 H1) as [L1 _].
  destruct (log2_floor_spec q2) as [_ U2]; [lra |].
  assert (2 ^ log2_floor q1 < 2 ^ (log2_floor q2 + 1)) as H by lra.
  apply Qpower_lt_compat_l_inv in H; [lia | reflexivity].
Qed.

Lemma log2_floor_unique e q : 2 ^ e <= q -> q < 2 ^ (e + 1) -> log2_floor q = e.
Proof.
  intros L U. pose proof (pow2_pos e) as He.
  destruct (log2_floor_spec q) as [L' U']; [lra |].
  assert (2 ^ e < 2 ^ (log2_floor q + 1)) as H1 by lra.
  assert (2 ^ log2_floor q < 2 ^ (e + 1)) as H2 by lra.
  apply Qpower_lt_compat_l_inv in H1; [| reflexivity].
  apply Qpower_lt_compat_l_inv in H2; [| reflexivity].
  lia.
Qed.

Lemma Qfloor_lt x k : x < inject_Z k -> (Qfloor x < k)%Z.
Proof. intros H. rewrite Zlt_Qlt. pose proof (Qfloor_le x). lra. Qed.

Lemma Qfloor_ge x k : inject_Z k <= x -> (k <= Qfloor x)%Z.
Proof. intros H. rewrite <- (Qfloor_Z k). by apply Qfloor_resp_le. Qed.

Lemma nearest_even_bounds x :
  (Qfloor x <= nearest_even x <= Qfloor x + 1)%Z.
Proof.
  unfold nearest_even.
  destruct (Qle_bool _ _); [destruct (Qle_bool _ _); [destruct (Z.even _) |] |]; lia.
Qed.

Lemma nearest_even_mono x y : x <= y -> (nearest_even x <= nearest_even y)%Z.
Proof.
  intros Hxy. pose proof (Qfloor_resp_le x y Hxy) as Hf.
  destruct (Z.eq_dec (Qfloor x) (Qfloor y)) as [Heq | Hne].
  - unfold nearest_even. rewrite <- Heq.
    destruct (Qle_bool (x - inject_Z (Qfloor x)) (1 # 2)) eqn:X1;
    destruct (Qle_bool (1 # 2) (x - inject_Z (Qfloor x))) eqn:X2;
    destruct (Qle_bool (y - inject_Z (Qfloor x)) (1 # 2)) eqn:Y1;
    destruct (Qle_bool (1 # 2) (y - inject_Z (Qfloor x))) eqn:Y2;
    destruct (Z.even (Qfloor x)); try lia.
    all: exfalso.
    all: repeat match goal with
         | H : Qle_bool _ _ = true |- _ => apply Qle_bool_iff in H
         | H : Qle_bool ?a ?b = false |- _ =>
             assert (b < a) by (apply Qnot_le_lt; intros Hle; apply Qle_bool_iff in Hle; congruence);
             clear H
         end; lra.
  - pose proof (nearest_even_bounds x). pose proof (nearest_even_bounds y). lia.
Qed.

Lemma ulp_pos q : 0 < ulp q.
Proof. apply pow2_pos. Qed.

Lemma round_positive q :
  0 < q -> round q = inject_Z (nearest_even (q / ulp q)) * ulp q.
Proof.
  intros Hq. unfold round.
  destruct (Qle_bool q 0) eqn:H; [| done].
  apply Qle_bool_iff in H. lra.
Qed.

Lemma round_zero q : q == 0 -> round q = 0.
Proof.
  intros Hq. unfold round.
  destruct (Qle_bool q 0) eqn:H1.
  - destruct (Qle_bool 0 q) eqn:H2; [done |].
    assert (0 <= q) as H by lra. apply Qle_bool_iff in H. congruence.
  - assert (q <= 0) as H by lra. apply Qle_bool_iff in H. congruence.
Qed.

Lemma scaled_nonneg q : 0 < q -> 0 <= q / ulp q.
Proof.
  intros Hq. pose proof (ulp_pos q).
  apply Qle_shift_div_l; [done | lra].
Qed.

Lemma round_nonneg q : 0 <= q -> 0 <= round q.
Proof.
  intros Hq. destruct (Qlt_le_dec 0 q) as [Hpos | Hz].
  - rewrite round_positive by done.
    pose proof (ulp_pos q). pose proof (scaled_nonneg q Hpos) as Hx.
    pose proof (nearest_even_bounds (q / ulp q)) as [Hb _].
    pose proof (Qfloor_ge _ 0 Hx) as Hf.
    assert (0 <= inject_Z (nearest_even (q / ulp q))) as Hm.
    { change 0 with (inject_Z 0). rewrite <- Zle_Qle. lia. }
    nra.
  - rewrite round_zero; [lra | lra].
Qed.

Lemma round_mono q1 q2 : 0 <= q1 -> q1 <= q2 -> round q1 <= round q2.
Proof.
  intros H1 H12.
  destruct (Qlt_le_dec 0 q1) as [Hpos | Hz].
  2: { rewrite (round_zero q1) by lra. apply round_nonneg. lra. }
  assert (0 < q2) as Hpos2 by lra.
  rewrite !round_positive by done.
  pose proof (log2_floor_mono q1 q2 Hpos H12) as Hl.
  destruct (log2_floor_spec q1 Hpos) as [L1 U1].
  destruct (log2_floor_spec q2 Hpos2) as [L2 U2].
  unfold ulp.
  set (e1 := Z.max (log2_floor q1) (-1022)).
  set (e2 := Z.max (log2_floor q2) (-1022)).
  assert (e1 <= e2)%Z as He by lia.
  pose proof (pow2_pos (e1 - 52)) as P1. pose proof (pow2_pos (e2 - 52)) as P2.
  destruct (Z.eq_dec e1 e2) as [Heq | Hne].
  - rewrite <- Heq.
    assert (q1 / 2 ^ (e1 - 52) <= q2 / 2 ^ (e1 - 52)) as Hx.
    { apply Qle_shift_div_l; [done |].
      assert (q1 / 2 ^ (e1 - 52) * 2 ^ (e1 - 52) == q1) as Hr by (field; lra).
      by rewrite Hr. }
    apply nearest_even_mono in Hx. rewrite Zle_Qle in Hx.
    apply Qmult_le_compat_r; [done | lra].
  - assert (e1 < e2)%Z as Hlt by lia.
    assert (e2 = log2_floor q2) as He2 by lia.
    apply Qle_trans with (2 ^ e2).
    + (* the smaller one stays below the next power of two *)
      assert (q1 / 2 ^ (e1 - 52) < inject_Z (2 ^ 53)) as Hx.
      { apply Qlt_shift_div_r; [done |].
        rewrite pow2_Z by lia.
        rewrite <- Qpower_plus by discriminate.
        replace (53 + (e1 - 52))%Z with (e1 + 1)%Z by lia.
        eapply Qlt_le_trans; [exact U1 |]. apply pow2_le. lia. }
      apply Qfloor_lt in Hx.
      pose proof (nearest_even_bounds (q1 / 2 ^ (e1 - 52))) as [_ Hb].
      assert (inject_Z (nearest_even (q1 / 2 ^ (e1 - 52))) <= inject_Z (2 ^ 53)) as Hm.
      { rewrite <- Zle_Qle. lia. }
      rewrite pow2_Z in Hm by lia.
      apply Qle_trans with (2 ^ 53 * 2 ^ (e1 - 52)).
      * apply Qmult_le_compat_r; [done | lra].
      * rewrite <- Qpower_plus by discriminate. apply pow2_le. lia.
    + (* the larger one stays above its own power of two *)
      assert (inject_Z (2 ^ 52) <= q2 / 2 ^ (e2 - 52)) as Hx.
      { apply Qle_shift_div_l; [done |].
        rewrite pow2_Z by lia.
        rewrite <- Qpower_plus by discriminate.
        replace (52 + (e2 - 52))%Z with e2 by lia.
        by rewrite He2. }
      apply Qfloor_ge in Hx.
      pose proof (nearest_even_bounds (q2 / 2 ^ (e2 - 52))) as [Hb _].
      assert (inject_Z (2 ^ 52) <= inject_Z (nearest_even (q2 / 2 ^ (e2 - 52)))) as Hm.
      { rewrite <- Zle_Qle. lia. }
      rewrite pow2_Z in Hm by lia.
      apply Qle_trans with (2 ^ 52 * 2 ^ (e2 - 52)).
      * rewrite <- Qpower_plus by discriminate.
        replace (52 + (e2 - 52))%Z with e2 by lia. lra.
      * apply Qmult_le_compat_r; [done | lra].
Qed.

Lemma round_product_top : round (below_one * 9000) == 9000 - (1 # 549755813888).
Proof. vm_compute. reflexivity. Qed.

Lemma round_sum_top : round (1000 + (9000 - (1 # 549755813888))) == 10000 - (1 # 549755813888).
Proof. vm_compute. reflexivity. Qed.

Lemma round_1000 : round 1000 == 1000.
Proof. vm_compute. reflexivity. Qed.

(** A double below 1 is at most [1 - 2^-53]. *)
Lemma double_below_one r : 0 <= r -> r < 1 -> round r == r -> r <= below_one.
Proof.
  intros H0 H1 Hd. apply Qnot_lt_le. intros Hgt. unfold below_one in Hgt.
  assert (0 < r) as Hpos by lra.
  assert (log2_floor r = (-1)%Z) as Hl.
  { apply log2_floor_unique.
    - change (2 ^ (-1)) with (1 # 2). lra.
    - change (2 ^ (-1 + 1)) with 1. done. }
  rewrite round_positive in Hd by done.
  unfold ulp in Hd. rewrite Hl in Hd.
  change (2 ^ (Z.max (-1) (-1022) - 52)) with (1 # 9007199254740992) in Hd.
  set (x := r / (1 # 9007199254740992)) in *.
  assert (x == r * 9007199254740992) as Hx by (unfold x; field).
  assert (inject_Z 9007199254740991 < x) as Hx1.
  { change (inject_Z 9007199254740991) with 9007199254740991. lra. }
  assert (x < inject_Z 9007199254740992) as Hx2.
  { change (inject_Z 9007199254740992) with 9007199254740992. lra. }
  assert (Qfloor x = 9007199254740991)%Z as Hf.
  { pose proof (Qfloor_lt _ _ Hx2). pose proof (Qfloor_ge x 9007199254740991) as Hge.
    assert (inject_Z 9007199254740991 <= x) as Hle by lra. apply Hge in Hle. lia. }
  pose proof (nearest_even_bounds x) as [Hb1 Hb2]. rewrite Hf in Hb1, Hb2.
  assert (nearest_even x = 9007199254740991 \/ nearest_even x = 9007199254740992)%Z
    as [Hm | Hm] by lia; rewrite Hm in Hd.
  - change (inject_Z 9007199254740991) with 9007199254740991 in Hd. lra.
  - change (inject_Z 9007199254740992) with 9007199254740992 in Hd. lra.
Qed.


Lemma round_1 : round 1 == 1.
Proof. vm_compute. reflexivity. Qed.

Lemma room_code_range random :
  0 <= random -> random < 1 -> round random == random ->
  (1000 <= Qfloor (round (1000 + round (random * 9000))) <= 9999)%Z.
Proof.
  intros H0 H1 Hd. pose proof (double_below_one random H0 H1 Hd) as Htop.
  unfold below_one in Htop.
  assert (0 <= round (random * 9000)) as Hp0 by (apply round_nonneg; nra).
  assert (round (random * 9000) <= 9000 - (1 # 549755813888)) as Hp1.
  { apply Qle_trans with (round (below_one * 9000)).
    - apply round_mono; unfold below_one; nra.
    - rewrite round_product_top. apply Qle_refl. }
  split.
  - apply Qfloor_ge. apply Qle_trans with (round 1000).
    + rewrite round_1000. apply Qle_refl.
    + apply round_mono; lra.
  - assert (round (1000 + round (random * 9000)) <= 10000 - (1 # 549755813888)) as Hs.
    { apply Qle_trans with (round (1000 + (9000 - (1 # 549755813888)))).
      - apply round_mono; lra.
      - rewrite round_sum_top. apply Qle_refl. }
    assert (Qfloor (round (1000 + round (random * 9000))) < 10000)%Z; [| lia].
    apply Qfloor_lt. change (inject_Z 10000) with 10000. lra.
Qed.

End Doubles.

(** ** Storage keys *)

Section Storage.
Context {P : Platform}.

#[local] Instance keeps_other_keys_preorder : PreOrder keeps_other_keys.
Proof.
  split; [by intros st k | intros a b c H1 H2 k ? ?; by rewrite H2, H1].
Qed.

Ltac keys_side :=
  try done;
  try (intros k ? ?; simpl;
       rewrite ?lookup_delete_ne, ?lookup_insert_ne by done; done).

Lemma handle_keeps_other_keys e : sat keeps_other_keys (fun _ => True) (handle e).
Proof. destruct e; sat_walk; keys_side. Qed.

Lemma handleStrokeComplete_keeps_other_keys pts now :
  sat keeps_other_keys (fun _ => True) (handleStrokeComplete pts now).
Proof. sat_walk; keys_side. Qed.

Lemma saveManualState_keeps_other_keys :
  sat keeps_other_keys (fun _ => True) saveManualState.
Proof. sat_walk; keys_side. Qed.

Lemma clearSession_eq st : clearSession st = (Normal tt, cleared st, []).
Proof. reflexivity. Qed.

(** C3.  [saveSession] writes, under the key chkobba_session, the JSON
    text of the object with exactly the fields mode, role, code and
    timestamp, the timestamp being the time of the call; the manual-mode
    backup is written under chkobba_manual_state; [clearSession] removes
    these two keys; and no event changes any other key. *)
Theorem session_record_and_keys (m : Mode) (r : Role) (c : string) (now : Z)
    (st : AppState) (e : Event) (pg : Page) :
  saveSession m r c now st =
    (Normal tt,
     with_browser (with_localStorage (insert "chkobba_session"
       (JSON_stringify (JObj [("mode", JStr (Mode_str m));
                              ("role", JStr (Role_str r));
                              ("code", JStr c);
                              ("timestamp", JNum (Fin (inject_Z now)))])))) st,
     [])
  /\ saveManualState st =
       (Normal tt,
        match view (ui st) with
        | MANUAL_HOST | MANUAL_JOIN =>
            with_browser (with_localStorage (insert "chkobba_manual_state"
              (JSON_stringify (JObj [("localOffer", JStr (localOffer (ui st)));
                                     ("remoteAnswer", JStr (remoteAnswer (ui st)))])))) st
        | _ => st
        end,
        [])
  /\ clearSession st = (Normal tt, cleared st, [])
  /\ localStorage (browser (cleared st)) !! "chkobba_session" = None
  /\ localStorage (browser (cleared st)) !! "chkobba_manual_state" = None
  /\ keeps_other_keys st (cleared st)
  /\ keeps_other_keys (page_app pg) (page_app (step e pg).1).
Proof.
  repeat split.
  - unfold saveManualState, mbind, M_bind, bind; simpl. by destruct (view (ui st)).
  - simpl. rewrite lookup_delete_ne by done. apply lookup_delete_eq.
  - simpl. apply lookup_delete_eq.
  - intros k ? ?. simpl. by rewrite !lookup_delete_ne.
  - eapply (sat_step_all keeps_other_keys (fun _ => True)).
    + exact I.
    + apply handle_keeps_other_keys.
    + apply handleStrokeComplete_keeps_other_keys.
    + apply saveManualState_keeps_other_keys.
Qed.

End Storage.

(** ** Peer-link messages *)

Section PeerLink.
Context {P : Platform}.

Ltac shape_side :=
  try done;
  try (simpl; eexists; split; [reflexivity |]; unfold four_shapes, three_shapes,
       stroke_sync_shape, clear_board_shape, ping_shape, heartbeat_shape; eauto 6).

Lemma handle_sends_four_shapes e :
  sat any_state (sends_only four_shapes) (handle e).
Proof. destruct e; sat_walk; shape_side. Qed.

Lemma handleStrokeComplete_sends_four_shapes pts now :
  sat any_state (sends_only four_shapes) (handleStrokeComplete pts now).
Proof. sat_walk; shape_side. Qed.

Lemma saveManualState_sends_nothing Φ :
  sat any_state Φ saveManualState.
Proof. sat_walk; done. Qed.

Lemma step_sends_four_shapes e pg : Forall (sends_only four_shapes) (step e pg).2.
Proof.
  eapply (sat_step_all any_state (sends_only four_shapes)).
  - exact I.
  - apply handle_sends_four_shapes.
  - apply handleStrokeComplete_sends_four_shapes.
  - apply saveManualState_sends_nothing.
Qed.

(** C8, as amended.  Every message sent on the peer data channel, in
    every run from every page, is the JSON text of an object of one of
    four shapes: SYNC_STROKE with a stroke, CLEAR_BOARD, PING, or the
    HEARTBEAT of the keep-alive interval. *)
Theorem peer_messages_have_four_shapes (evs : list Event) (pg : Page) :
  Forall (did (sends_only four_shapes)) (run evs pg).2.
Proof. apply run_did. apply step_sends_four_shapes. Qed.

End PeerLink.

Section PeerLinkRun.
#[local] Existing Instance Demo.platform.

(** C8, as stated, fails: a host whose channel has opened is in the
    game view, and the first tick of the keep-alive interval sends an
    object that is none of SYNC_STROKE, CLEAR_BOARD and PING. *)
Lemma heartbeat_is_a_fourth_shape :
  let evs := [EvStartCloudHost 1700000000000 (1 # 2);
              EvChannelReadyState 1 rs_open;
              EvHeartbeat] in
  let sent := DcSend 1 (JSON_stringify (JObj [("type", JStr "HEARTBEAT")])) in
  last (run evs (init_page ∅)).2 = Some (Did sent)
  /\ ~ sends_only three_shapes sent.
Proof.
  split; [vm_compute; reflexivity |].
  intros (obj & Htext & [[stroke ->] | [-> | ->]]).
  - cbn in Htext. destruct stroke; simpl in Htext; discriminate.
  - vm_compute in Htext; discriminate.
  - vm_compute in Htext; discriminate.
Qed.

End PeerLinkRun.

(** ** Room codes and relay topics *)

Section Rooms.
Context {P : Platform}.

Lemma four_digits n : 1000 <= n <= 9999 -> js_length (Z_toString n) = 4%nat.
Proof.
  intros Hn.
  assert (forallb (fun k => Nat.eqb (js_length (Z_toString k)) 4) (seqZ 1000 9000) = true)
    as Hall by (vm_compute; reflexivity).
  rewrite forallb_forall in Hall.
  apply Nat.eqb_eq, Hall, list_elem_of_In, elem_of_seqZ. lia.
Qed.

Ltac topic_side :=
  try done;
  try (simpl; eexists; eauto 6).

Lemma handle_on_relay_topics e : sat any_state on_relay_topic (handle e).
Proof. destruct e; sat_walk; topic_side. Qed.

Lemma step_on_relay_topics e pg : Forall on_relay_topic (step e pg).2.
Proof.
  eapply (sat_step_all any_state on_relay_topic).
  - exact I.
  - apply handle_on_relay_topics.
  - intros pts t. sat_walk; topic_side.
  - sat_walk; topic_side.
Qed.

(** C5.  For [Math.random()] returning a double in [0, 1), a host's
    room code is the decimal text of an integer between 1000 and 9999,
    four characters long; joining with an entered code whose length
    (the [length] of the string, in UTF-16 code units) is not 4
    changes nothing and does nothing; and every topic the page
    subscribes or publishes to, in every run, is chkobba/<room>/join,
    /offer, /answer or /restart for some room. *)
Theorem room_codes_and_topics (random : Q) (now : Z) (st : AppState)
    (evs : list Event) (pg : Page) :
  (0 <= random)%Q -> (random < 1)%Q -> (Double.round random == random)%Q ->
  js_length (inputCode (ui st)) ≠ 4%nat ->
  (exists n, room_code random = Z_toString n /\ 1000 <= n <= 9999
             /\ js_length (room_code random) = 4%nat)
  /\ joinCloudGame now st = (Normal tt, st, [])
  /\ Forall (did on_relay_topic) (run evs pg).2.
Proof.
  intros H0 H1 Hd Hlen. split; [| split].
  - exists (Qfloor (Double.round (1000 + Double.round (random * 9000)))).
    pose proof (room_code_range random H0 H1 Hd).
    split; [done | split; [done | by apply four_digits]].
  - unfold joinCloudGame, mbind, M_bind, bind; simpl.
    destruct (Nat.eqb_spec (js_length (inputCode (ui st))) 4); [done |].
    reflexivity.
  - apply run_did, step_on_relay_topics.
Qed.

End Rooms.

(** An instance of C5: the code drawn at one half, and a three-character entry. *)
Lemma room_codes_and_topics_witness :
  (exists n, room_code (1 # 2) = Z_toString n /\ 1000 <= n <= 9999
             /\ js_length (room_code (1 # 2)) = 4%nat)
  /\ @joinCloudGame Demo.platform 0
       (with_ui (fun _ => MkUi HOME "" "" "" "123" "" "" false [] false) (init_state ∅))
     = (Normal tt,
        with_ui (fun _ => MkUi HOME "" "" "" "123" "" "" false [] false) (init_state ∅), [])
  /\ Forall (did (@on_relay_topic Demo.platform))
       (@run Demo.platform [EvStartCloudHost 0 (1 # 2); EvMqttConnect 2] (init_page ∅)).2.
Proof.
  apply (@room_codes_and_topics Demo.platform (1 # 2) 0
           (with_ui (fun _ => MkUi HOME "" "" "" "123" "" "" false [] false) (init_state ∅))).
  - by compute.
  - by compute.
  - vm_compute. reflexivity.
  - simpl. lia.
Defined.

(** The length test counts code units, not bytes: an entry of four
    Arabic-Indic digits, of two bytes each, has length 4, and the join
    goes ahead with it. *)
Lemma join_with_four_code_units :
  let digit (n : N) := String (ascii_of_N 217) (String (ascii_of_N (160 + n)) EmptyString) in
  let entry := digit 0%N +:+ digit 1%N +:+ digit 2%N +:+ digit 3%N in
  let st := with_ui (fun _ => MkUi HOME "" "" "" entry "" "" false [] false) (init_state ∅) in
  String.length entry = 8%nat
  /\ js_length entry = 4%nat
  /\ last (@joinCloudGame Demo.platform 0 st).2 = Some (MqttConnect 1)
  /\ clients (browser (@joinCloudGame Demo.platform 0 st).1.2) !! 1%nat
     = Some (MkClient JOINER entry 0 false false).
Proof. vm_compute. repeat split. Qed.

(** ** Gestures and strokes *)

Section Gestures.
Context {P : Platform}.
Import DrawingBoard.

Lemma manual_deps_unchanged u : manual_deps_changed u u = false.
Proof.
  unfold manual_deps_changed.
  by rewrite !String.eqb_refl, bool_decide_eq_true_2.
Qed.

Lemma app_step_ret st : app_step (mret tt) st = (st, []).
Proof. unfold app_step; simpl. by rewrite manual_deps_unchanged. Qed.

Lemma run_cons e rest pg :
  run (e :: rest) pg =
    ((run rest (step e pg).1).1,
     Got e :: map Did (step e pg).2 ++ (run rest (step e pg).1).2).
Proof. simpl. destruct (step e pg) as [pg1 out]; simpl. by destruct (run rest pg1). Qed.

Lemma run_app evs1 evs2 pg :
  run (evs1 ++ evs2) pg =
    ((run evs2 (run evs1 pg).1).1, (run evs1 pg).2 ++ (run evs2 (run evs1 pg).1).2).
Proof.
  revert pg. induction evs1 as [|e rest IH]; intros pg.
  - simpl. by destruct (run evs2 pg).
  - rewrite <- app_comm_cons, !run_cons, IH. cbn [fst snd].
    f_equal. simpl. f_equal. apply app_assoc.
Qed.

(** Pointer down: the path restarts with the point under the pointer. *)
Lemma step_start st b canvas e t :
  view (ui st) = GAME ->
  exists out,
    step (EvGesture (Start canvas e) t) (MkPage st b)
      = (MkPage st (MkBoard true (captured canvas e)), out)
    /\ Forall (fun x => is_send x = false) out.
Proof.
  intros Hv. unfold step, dispatch, captured; simpl. rewrite Hv. unfold startDrawing.
  destruct (getCoords canvas e) as [[pt|]|]; rewrite app_step_ret; simpl; rewrite Hv;
    eexists; (split; [reflexivity | repeat constructor]).
Qed.

(** Pointer move while drawing: the point is appended. *)
Lemma step_move st path canvas e t :
  view (ui st) = GAME ->
  exists out,
    step (EvGesture (Move canvas e) t) (MkPage st (MkBoard true path))
      = (MkPage st (MkBoard true (path ++ captured canvas e)), out)
    /\ Forall (fun x => is_send x = false) out.
Proof.
  intros Hv. unfold step, dispatch, captured; simpl. rewrite Hv. unfold moveDrawing; simpl.
  destruct (getCoords canvas e) as [[pt|]|]; rewrite app_step_ret; simpl; rewrite Hv;
    rewrite ?app_nil_r; eexists; (split; [reflexivity | repeat constructor]).
Qed.

Lemma sends_app l1 l2 : sends (l1 ++ l2) = sends l1 ++ sends l2.
Proof. apply omap_app. Qed.

Lemma sends_got e l : sends (Got e :: l) = sends l.
Proof. reflexivity. Qed.

Lemma sends_silent out :
  Forall (fun x => is_send x = false) out -> sends (map Did out) = [].
Proof. induction 1 as [|x l Hx _ IH]; [done |]. by destruct x. Qed.

Lemma run_moves moves : forall st path,
  view (ui st) = GAME ->
  (run (map move_event moves) (MkPage st (MkBoard true path))).1
    = MkPage st (MkBoard true
        (path ++ concat (map (fun p : Pointer => captured p.1.1 p.1.2) moves)))
  /\ sends (run (map move_event moves) (MkPage st (MkBoard true path))).2 = [].
Proof.
  induction moves as [|[[canvas e] t] rest IH]; intros st path Hv.
  - simpl. by rewrite app_nil_r.
  - destruct (step_move st path canvas e t Hv) as (out & Hstep & Hout).
    cbn [map concat]. rewrite run_cons.
    change (move_event (canvas, e, t)) with (EvGesture (Move canvas e) t).
    rewrite Hstep. cbn [fst snd].
    destruct (IH st (path ++ captured canvas e) Hv) as [IH1 IH2].
    split; [by rewrite IH1, <- app_assoc |].
    by rewrite sends_got, sends_app, IH2, sends_silent.
Qed.

(** What [handleStrokeComplete] does, in full. *)
Lemma handleStrokeComplete_eq pts now st :
  handleStrokeComplete pts now st =
    (Normal tt,
     with_ui (fun u => MkUi (view u) (status u) (errorMsg u) (shortCode u) (inputCode u)
       (localOffer u) (remoteAnswer u) (flash u)
       (strokes u ++ [stroke_obj (MkStroke (Z_toString now) pts "#3b82f6" false)])
       (isReconnecting u)) st,
     match channel_open st with
     | Some ch =>
         [DcSend ch (JSON_stringify (JObj
            [("type", JStr "SYNC_STROKE");
             ("stroke", stroke_obj (MkStroke (Z_toString now) pts "#3b82f6" false))]))]
     | None => []
     end).
Proof.
  unfold handleStrokeComplete, sendSync, mbind, M_bind, bind; simpl.
  unfold channel_open; simpl.
  destruct (dataChannelRef (refs st)) as [ch|]; [| done].
  destruct (channels (browser st) !! ch) as [[]|]; done.
Qed.

(** C9.  A gesture on the mounted surface appends at most one stroke.
    If it captured points, the object appended is the stroke whose
    [points] array holds exactly those points, as their [x] and [y], in
    the order captured (so the array is not empty), and its JSON text
    in a SYNC_STROKE message is the only thing sent; if it captured
    none, the strokes list is unchanged and nothing is sent. *)
Theorem gesture_adds_its_points (st : AppState) (b : Board)
    (down : Pointer) (moves : list Pointer) (now : Z) :
  view (ui st) = GAME ->
  let pts := gesture_points down moves in
  let stroke :=
    JObj [("id", JStr (Z_toString now));
          ("points", JArr (map (fun p => JObj [("x", JNum (px p)); ("y", JNum (py p))]) pts));
          ("color", JStr "#3b82f6");
          ("isRemote", JBool false)] in
  let done := run (gesture down moves now) (MkPage st b) in
  strokes (ui (page_app done.1)) =
    strokes (ui st) ++
    match pts with
    | [] => []
    | _ :: _ => [stroke]
    end
  /\ sends done.2 =
       match pts, channel_open st with
       | _ :: _, Some ch =>
           [DcSend ch (JSON_stringify (JObj
              [("type", JStr "SYNC_STROKE"); ("stroke", stroke)]))]
       | _, _ => []
       end
  /\ board done.1 = init_board.
Proof.
  intros Hv pts stroke done. subst pts stroke done. unfold gesture, gesture_points.
  destruct down as [[canvas e] t]; cbn [fst snd].
  rewrite run_cons, run_app. cbn [fst snd].
  destruct (step_start st b canvas e t Hv) as (out & Hstep & Hout).
  rewrite Hstep. cbn [fst snd].
  destruct (run_moves moves st (captured canvas e) Hv) as [Hm1 Hm2].
  rewrite Hm1, sends_got, !sends_app, Hm2, (sends_silent out Hout).
  set (pts := captured canvas e ++ concat _).
  rewrite run_cons. cbn [run fst snd]. rewrite sends_got, sends_app, app_nil_r.
  unfold step, dispatch. cbn [page_app board]. rewrite Hv. cbn [handle].
  unfold endDrawing; cbn [isDrawing currentPath negb].
  destruct pts as [|p pts'].
  - rewrite app_step_ret. cbn. rewrite Hv, app_nil_r. done.
  - unfold app_step. rewrite handleStrokeComplete_eq. cbn [fst snd ui with_ui].
    cbn [manual_deps_changed localOffer remoteAnswer view].
    unfold manual_deps_changed; cbn [localOffer remoteAnswer view].
    rewrite !String.eqb_refl, bool_decide_eq_true_2 by done. cbn [negb andb].
    cbn [page_app ui view strokes with_ui]. rewrite Hv.
    split; [done |]. split; [| done].
    cbn. destruct (channel_open st); reflexivity.
Qed.

End Gestures.

Section GestureRun.
#[local] Existing Instance Demo.platform.
Import DrawingBoard.

(** An instance of C9: a press and one move inside the canvas. *)
Lemma gesture_adds_its_points_witness :
  let st := with_ui (fun _ => MkUi GAME "Connected" "" "" "" "" "" false [] false)
                    (init_state ∅) in
  let canvas := Some (MkRect 0 56 400 600) in
  let down : Pointer := (canvas, MouseEvent 100 356, 1) in
  let moves : list Pointer := [(canvas, MouseEvent 120 356, 2)] in
  view (ui st) = GAME
  /\ strokes (ui (page_app (run (gesture down moves 3) (MkPage st init_board)).1)) =
       [JObj [("id", JStr "3");
              ("points", JArr
                 [JObj [("x", JNum (Fin (Double.round (Double.round (100 - 0) / 400))));
                        ("y", JNum (Fin (Double.round (Double.round (356 - 56) / 600))))];
                  JObj [("x", JNum (Fin (Double.round (Double.round (120 - 0) / 400))));
                        ("y", JNum (Fin (Double.round (Double.round (356 - 56) / 600))))]]);
              ("color", JStr "#3b82f6");
              ("isRemote", JBool false)]].
Proof.
  split; [reflexivity |].
  exact (proj1 (gesture_adds_its_points
    (with_ui (fun _ => MkUi GAME "Connected" "" "" "" "" "" false [] false) (init_state ∅))
    init_board
    (Some (MkRect 0 56 400 600), MouseEvent 100 356, 1)
    [(Some (MkRect 0 56 400 600), MouseEvent 120 356, 2)] 3 eq_refl)).
Defined.

End GestureRun.

(** ** What a new connection transmits *)

Section Connection.
Context {P : Platform}.

#[local] Instance same_strokes_preorder : PreOrder same_strokes.
Proof. split; [by intros st | intros a b c H1 H2; unfold same_strokes in *; congruence]. Qed.

Lemma connection_event_silent e :
  connection_event e = true ->
  sat same_strokes (fun x => is_send x = false) (handle e).
Proof. destruct e; try discriminate; intros _; sat_walk; done. Qed.

Lemma saveManualState_silent :
  sat same_strokes (fun x => is_send x = false) saveManualState.
Proof. sat_walk; done. Qed.

Ltac control_side :=
  try done;
  try (simpl; eexists; split; [reflexivity |]; unfold control_shape,
       clear_board_shape, ping_shape, heartbeat_shape; eauto 6).

(** No handler of the controller sends a stroke. *)
Lemma handle_sends_control e :
  sat any_state (sends_only control_shape) (handle e).
Proof. destruct e; sat_walk; control_side. Qed.

(** An event that completes no path runs a handler of the controller,
    or nothing. *)
Lemma dispatch_sends_control e pg :
  completed e pg = None ->
  sat any_state (sends_only control_shape) (dispatch e pg).1.1.
Proof.
  intros Hc. unfold dispatch.
  destruct e; try apply handle_sends_control.
  unfold completed in Hc.
  destruct (view (ui (page_app pg))); try (cbn; sat_walk; done).
  destruct g as [canvas e | canvas e |]; cbn [DrawingBoard.handle].
  - unfold DrawingBoard.startDrawing.
    destruct (DrawingBoard.getCoords canvas e) as [[pt|]|]; cbn; sat_walk; done.
  - unfold DrawingBoard.moveDrawing. destruct (negb _); [cbn; sat_walk; done |].
    destruct (DrawingBoard.getCoords canvas e) as [[pt|]|]; cbn; sat_walk; done.
  - unfold DrawingBoard.endDrawing.
    destruct (DrawingBoard.isDrawing (board pg)); [| cbn; sat_walk; done].
    destruct (DrawingBoard.currentPath (board pg)); [cbn; sat_walk; done | discriminate].
Qed.

(** The step of an event that completes a path. *)
Lemma step_completed e pg pts now :
  completed e pg = Some (pts, now) ->
  strokes (ui (page_app (step e pg).1))
    = strokes (ui (page_app pg)) ++ [stroke_obj (MkStroke (Z_toString now) pts "#3b82f6" false)]
  /\ (step e pg).2 = (handleStrokeComplete pts now (page_app pg)).2.
Proof.
  unfold completed. intros Hc.
  destruct e; try discriminate; try (destruct (view _); discriminate).
  match goal with g : DrawingBoard.Gesture |- _ => destruct g end;
    try discriminate; try (destruct (view _); discriminate).
  destruct (view (ui (page_app pg))) eqn:Hv; try discriminate.
  destruct (DrawingBoard.isDrawing (board pg)) eqn:Hd; [| discriminate].
  destruct (DrawingBoard.currentPath (board pg)) as [|p path] eqn:Hp; [discriminate |].
  injection Hc as <- <-.
  unfold step, dispatch. rewrite Hv. cbn [DrawingBoard.handle]. unfold DrawingBoard.endDrawing.
  rewrite Hd, Hp. cbn [negb].
  unfold app_step. rewrite handleStrokeComplete_eq.
  unfold manual_deps_changed; cbn [fst snd ui with_ui localOffer remoteAnswer view].
  rewrite !String.eqb_refl, bool_decide_eq_true_2 by done. cbn [negb andb].
  cbn [fst snd page_app ui with_ui strokes]. by rewrite app_nil_r.
Qed.

(** C2, as amended.  When a link comes up (connection state change,
    data channel announced or opened) the page sends nothing on the data
    channel and keeps its strokes list as it is.  A stroke travels only
    when its gesture completes: the step that completes a path appends
    the stroke made of it to the list and sends it, as the one
    SYNC_STROKE message of the step, if the channel is open at that
    moment, and does nothing else; every message any other step sends
    is a CLEAR_BOARD, a PING or a HEARTBEAT, which carry no stroke. *)
Theorem connection_transmits_no_strokes (e : Event) (pg : Page) :
  (connection_event e = true ->
   Forall (fun x => is_send x = false) (step e pg).2
   /\ strokes (ui (page_app (step e pg).1)) = strokes (ui (page_app pg)))
  /\ match completed e pg with
     | Some (pts, now) =>
         let stroke :=
           JObj [("id", JStr (Z_toString now));
                 ("points", JArr (map (fun p => JObj [("x", JNum (px p)); ("y", JNum (py p))])
                                      pts));
                 ("color", JStr "#3b82f6");
                 ("isRemote", JBool false)] in
         strokes (ui (page_app (step e pg).1)) = strokes (ui (page_app pg)) ++ [stroke]
         /\ (step e pg).2 =
              match channel_open (page_app pg) with
              | Some ch =>
                  [DcSend ch (JSON_stringify
                     (JObj [("type", JStr "SYNC_STROKE"); ("stroke", stroke)]))]
              | None => []
              end
     | None => Forall (sends_only control_shape) (step e pg).2
     end.
Proof.
  split.
  - intros He.
    pose proof (sat_step same_strokes (fun x => is_send x = false) e pg) as H.
    destruct H as [HR HF]; [done | | apply saveManualState_silent | done].
    destruct e; try discriminate; by apply connection_event_silent.
  - destruct (completed e pg) as [[pts now]|] eqn:Hc.
    + destruct (step_completed e pg pts now Hc) as [Hs Ho].
      split; [exact Hs |].
      rewrite Ho, handleStrokeComplete_eq. reflexivity.
    + eapply (sat_step any_state (sends_only control_shape)).
      * exact I.
      * by apply dispatch_sends_control.
      * apply saveManualState_sends_nothing.
Qed.

End Connection.

Section ConnectionRun.
#[local] Existing Instance Demo.platform.
Import DrawingBoard.

(** C2, as stated, fails: the host holds two strokes when the second
    link comes up; the connection callbacks send neither, although the
    channel is open afterwards. *)
Lemma reconnect_sends_no_held_stroke :
  let pg := (run reconnect_before (init_page ∅)).1 in
  let up := run [EvConnectionState 3 connected; EvChannelReadyState 4 rs_open] pg in
  length (strokes (ui (page_app pg))) = 2%nat
  /\ up.2 = [Got (EvConnectionState 3 connected); Did (MqttEnd 5);
             Got (EvChannelReadyState 4 rs_open)]
  /\ channel_open (page_app up.1) = Some 4%nat
  /\ strokes (ui (page_app up.1)) = strokes (ui (page_app pg)).
Proof. vm_compute. repeat split. Qed.

(** An instance of C2, as amended: the channel of the second link
    opens, and nothing is sent. *)
Lemma connection_transmits_no_strokes_witness :
  let pg := (run reconnect_before (init_page ∅)).1 in
  connection_event (EvChannelReadyState 4 rs_open) = true
  /\ Forall (fun x => is_send x = false) (step (EvChannelReadyState 4 rs_open) pg).2.
Proof.
  split; [reflexivity |].
  exact (proj1 (proj1 (connection_transmits_no_strokes
    (EvChannelReadyState 4 rs_open) (run reconnect_before (init_page ∅)).1) eq_refl)).
Defined.

End ConnectionRun.

(** ** Normalised coordinates *)

Section Coordinates.
Import DrawingBoard.

(** Inside the canvas, on a canvas of positive size, a coordinate is
    the double nearest to the pointer's offset over the canvas size and
    lies in [0, 1]. *)
Lemma js_div_unit (offset size : Q) :
  (0 < size)%Q -> (0 <= offset)%Q -> (offset <= size)%Q ->
  exists q, js_div offset size = Fin q /\ (0 <= q)%Q /\ (q <= 1)%Q.
Proof.
  intros Hs H0 H1. unfold js_div.
  destruct (Qeq_bool size 0) eqn:Hz.
  - apply Qeq_bool_eq in Hz. rewrite Hz in Hs. by apply Qlt_irrefl in Hs.
  - exists (Double.round (offset / size)). split; [done |].
    assert (0 <= offset / size)%Q as Hlo.
    { apply Qle_shift_div_l; [done |]. by rewrite Qmult_0_l. }
    assert (offset / size <= 1)%Q as Hhi.
    { apply Qle_shift_div_r; [done |]. by rewrite Qmult_1_l. }
    split; [by apply round_nonneg |].
    eapply Qle_trans; [apply round_mono; [exact Hlo | exact Hhi] |].
    rewrite round_1. apply Qle_refl.
Qed.

(** The offset of a pointer inside the canvas, once rounded, is still
    between 0 and the canvas size, when that size is a double. *)
Lemma offset_inside (client origin size : Q) :
  (Double.round size == size)%Q ->
  (origin <= client)%Q -> (client <= origin + size)%Q ->
  (0 <= Double.round (client - origin))%Q /\ (Double.round (client - origin) <= size)%Q.
Proof.
  intros Hd H0 H1. split.
  - apply round_nonneg. lra.
  - eapply Qle_trans; [apply (round_mono _ size); lra |].
    rewrite Hd. apply Qle_refl.
Qed.

Lemma getCoords_inside_canvas (rect : Rect) (x y : Q) :
  (0 < rect_width rect)%Q -> (0 < rect_height rect)%Q ->
  (Double.round (rect_width rect) == rect_width rect)%Q ->
  (Double.round (rect_height rect) == rect_height rect)%Q ->
  (rect_left rect <= x)%Q -> (x <= rect_left rect + rect_width rect)%Q ->
  (rect_top rect <= y)%Q -> (y <= rect_top rect + rect_height rect)%Q ->
  exists qx qy,
    getCoords (Some rect) (MouseEvent x y) = Normal (Some (MkPoint (Fin qx) (Fin qy)))
    /\ (0 <= qx)%Q /\ (qx <= 1)%Q /\ (0 <= qy)%Q /\ (qy <= 1)%Q.
Proof.
  intros Hw Hh Hdw Hdh Hx0 Hx1 Hy0 Hy1.
  destruct (offset_inside x (rect_left rect) (rect_width rect)) as [? ?]; [done.. |].
  destruct (offset_inside y (rect_top rect) (rect_height rect)) as [? ?]; [done.. |].
  destruct (js_div_unit (Double.round (x - rect_left rect)) (rect_width rect))
    as (qx & Ex & ? & ?); [done.. |].
  destruct (js_div_unit (Double.round (y - rect_top rect)) (rect_height rect))
    as (qy & Ey & ? & ?); [done.. |].
  exists qx, qy. cbn [getCoords]. rewrite Ex, Ey. done.
Qed.

#[local] Existing Instance Demo.platform.

(** C10 at an input where it fails.  A touch that started on the
    canvas keeps reporting to it after the finger has left it: with the
    canvas below a 56-pixel header, a touch at height 10 is captured
    with a negative [y], which is stored in the stroke and sent. *)
Theorem touch_above_canvas_is_not_normalised :
  let canvas := Some (MkRect 0 56 400 600) in
  let st := with_ui (fun _ => MkUi GAME "Connected" "" "" "" "" "" false [] false)
                    (init_state ∅) in
  let down : Pointer := (canvas, TouchEvent [(100, 100)%Q], 1) in
  let moves : list Pointer := [(canvas, TouchEvent [(100, 10)%Q], 2)] in
  let x := Double.round (Double.round (100 - 0) / 400) in
  let y := Double.round (Double.round (10 - 56) / 600) in
  getCoords canvas (TouchEvent [(100, 10)%Q]) = Normal (Some (MkPoint (Fin x) (Fin y)))
  /\ (y == - (172637985715869 # 2251799813685248))%Q
  /\ js_lt (Fin y) (Fin 0) = true
  /\ strokes (ui (page_app (run (gesture down moves 3) (MkPage st init_board)).1)) =
       [stroke_obj (MkStroke "3"
          [MkPoint (Fin x) (Fin (Double.round (Double.round (100 - 56) / 600)));
           MkPoint (Fin x) (Fin y)] "#3b82f6" false)].
Proof. repeat split. Qed.

End Coordinates.

(** ** Manually pasted codes *)

Section ManualCodes.
Context {P : Platform}.

(** [initPC] hands out the next identity, for a connection in its
    initial state, and leaves the remote description of every other
    connection as it is. *)
Lemma initPC_spec st :
  exists st1 out1,
    initPC st = (Normal (next_id (browser st)), st1, out1)
    /\ ui st1 = ui st
    /\ the_pc (next_id (browser st)) st1 = new_pc
    /\ (forall i, i ≠ next_id (browser st) ->
          remoteDescription (the_pc i st1) = remoteDescription (the_pc i st))
    /\ Forall sets_no_remote out1.
Proof.
  unfold initPC, mbind, M_bind, bind; simpl.
  destruct (pcRef (refs st)) as [old|]; simpl; do 2 eexists;
    (split; [reflexivity |]); (split; [reflexivity |]).
  - split; [unfold the_pc; simpl; by rewrite lookup_insert_eq |].
    split; [| by repeat constructor].
    intros i Hne. unfold the_pc; simpl.
    rewrite lookup_insert_ne by done.
    destruct (decide (old = i)) as [<-|Hne'].
    + rewrite lookup_alter_eq. by destruct (pcs (browser st) !! old).
    + by rewrite lookup_alter_ne.
  - split; [unfold the_pc; simpl; by rewrite lookup_insert_eq |].
    split; [| by repeat constructor].
    intros i Hne. unfold the_pc; simpl. by rewrite lookup_insert_ne.
Qed.

(** C7.  With no pasted text or no peer connection, the host's connect
    handler does nothing.  A pasted reply that is not a valid code for
    the host's connection yields the error text Invalid Answer Code and
    leaves every connection as it is; a pasted offer that is not a valid
    code for the joiner's new connection yields Invalid Host Code, the
    new connection has no remote description and every other connection
    keeps its own.  In neither case does a call set a remote description. *)
Theorem invalid_manual_codes (st : AppState) :
  ((pcRef (refs st) = None \/ remoteAnswer (ui st) = "") ->
     handleManualHostConnect st = (Normal tt, st, []))
  /\ (forall pc,
        pcRef (refs st) = Some pc -> remoteAnswer (ui st) ≠ "" ->
        valid_code (the_pc pc st) (remoteAnswer (ui st)) = false ->
        let '(r, st', out) := handleManualHostConnect st in
        r = Normal tt
        /\ errorMsg (ui st') = "Invalid Answer Code"
        /\ browser st' = browser st
        /\ Forall sets_no_remote out)
  /\ (valid_code new_pc (remoteAnswer (ui st)) = false ->
      let '(r, st', out) := handleManualJoinGenerate st in
      r = Normal tt
      /\ errorMsg (ui st') = "Invalid Host Code"
      /\ remoteDescription (the_pc (next_id (browser st)) st') = JNull
      /\ (forall i, i ≠ next_id (browser st) ->
            remoteDescription (the_pc i st') = remoteDescription (the_pc i st))
      /\ Forall sets_no_remote out).
Proof.
  split; [| split].
  - intros [Hpc | Htext]; unfold handleManualHostConnect, try_catch, mbind, M_bind, bind; simpl.
    + by rewrite Hpc.
    + rewrite Htext. by destruct (pcRef (refs st)).
  - intros pc Hpc Htext Hinvalid.
    unfold handleManualHostConnect, try_catch, mbind, M_bind, bind; simpl.
    rewrite Hpc. destruct (String.eqb_spec (remoteAnswer (ui st)) ""); [done |].
    unfold valid_code, decoded in Hinvalid.
    unfold decode_descriptor, parse, rtc_setRemoteDescription, mbind, M_bind, bind; simpl.
    destruct (JSON_parse _) as [desc|]; simpl.
    + destruct (setRemoteDescription (the_pc pc st) desc) as [pc'|] eqn:Hset; simpl.
      * exfalso. rewrite bool_decide_eq_false in Hinvalid. by apply Hinvalid.
      * repeat split; by repeat constructor.
    + repeat split; by repeat constructor.
  - intros Hinvalid.
    destruct (initPC_spec st) as (st1 & out1 & Einit & Hui & Hnew & Hrem & Hout).
    unfold valid_code, decoded in Hinvalid.
    unfold handleManualJoinGenerate, try_catch, mbind, M_bind, bind.
    rewrite Einit.
    unfold decode_descriptor, parse, rtc_setRemoteDescription, mbind, M_bind, bind; simpl.
    rewrite Hui.
    destruct (JSON_parse _) as [desc|]; simpl.
    + rewrite Hnew.
      destruct (setRemoteDescription new_pc desc) as [pc'|] eqn:Hset; simpl.
      * exfalso. rewrite bool_decide_eq_false in Hinvalid. by apply Hinvalid.
      * change (the_pc ?i (with_ui _ st1)) with (the_pc i st1). rewrite Hnew.
        repeat split; [done |].
        rewrite app_nil_r. apply Forall_app; split; [done | by repeat constructor].
    + change (the_pc ?i (with_ui _ st1)) with (the_pc i st1). rewrite Hnew.
      repeat split; [done |]. by rewrite !app_nil_r.
Qed.

End ManualCodes.

Section ManualCodesRun.
#[local] Existing Instance Demo.platform.

(** An instance of C7: a manual host pastes text that is not a code. *)
Lemma invalid_manual_codes_witness :
  let st := page_app (run [EvStartManualHost 0; EvTypeRemoteAnswer "not a code"]
                          (init_page ∅)).1 in
  pcRef (refs st) = Some 0%nat
  /\ valid_code (the_pc 0 st) (remoteAnswer (ui st)) = false
  /\ errorMsg (ui (handleManualHostConnect st).1.2) = "Invalid Answer Code".
Proof.
  split; [reflexivity |]. split; [reflexivity |].
  generalize (proj1 (proj2 (invalid_manual_codes
    (page_app (run [EvStartManualHost 0; EvTypeRemoteAnswer "not a code"]
                   (init_page ∅)).1))) 0%nat eq_refl ltac:(discriminate) eq_refl).
  destruct (handleManualHostConnect _) as [[r st'] out].
  intros (_ & H & _). exact H.
Defined.

End ManualCodesRun.

(** ** Malformed incoming messages *)

Section Malformed.
Context {P : Platform}.

(** The data channel's handler never lets an exception out. *)
Lemma channel_onmessage_returns data st :
  (channel_onmessage data st).1.1 = Normal tt.
Proof.
  unfold channel_onmessage, try_catch, parse, mbind, M_bind, bind.
  destruct (JSON_parse data) as [v|]; simpl; [| done].
  destruct v; simpl; try done.
  destruct (is_str _ "SYNC_STROKE" && truthy _); simpl; [done |].
  destruct (is_str _ "CLEAR_BOARD"); simpl; [done |].
  destruct (is_str _ "PING"); [| done].
  unfold handleIncomingPing, when, mbind, M_bind, bind. by destruct navigator_vibrate.
Qed.

(** Text that is not JSON is ignored on the data channel. *)
Lemma channel_onmessage_not_json data st :
  JSON_parse data = None -> channel_onmessage data st = (Normal tt, st, []).
Proof.
  intros Hp. unfold channel_onmessage, try_catch, parse, mbind, M_bind, bind.
  by rewrite Hp.
Qed.

(** So is JSON whose type is none of the three the handler knows. *)
Lemma channel_onmessage_unknown_type data v st :
  JSON_parse data = Some v ->
  (forall fields, v = JObj fields ->
     is_str (obj_get "type" fields) "SYNC_STROKE" = false
     /\ is_str (obj_get "type" fields) "CLEAR_BOARD" = false
     /\ is_str (obj_get "type" fields) "PING" = false) ->
  channel_onmessage data st = (Normal tt, st, []).
Proof.
  intros Hp Ht. unfold channel_onmessage, try_catch, parse, mbind, M_bind, bind.
  rewrite Hp; simpl. destruct v; simpl; try done.
  destruct (Ht fields eq_refl) as (-> & -> & ->). done.
Qed.

(** The host's handler catches an answer that is not JSON. *)
Lemma host_onmessage_not_json client c tp msg st :
  endsWith tp "/join" = false -> endsWith tp "/restart" = false ->
  JSON_parse msg = None ->
  host_onmessage client c tp msg st =
    (Normal tt, st, if endsWith tp "/answer" then [ConsoleError] else []).
Proof.
  intros Hj Hr Hp. unfold host_onmessage, try_catch, parse, mbind, M_bind, bind.
  rewrite Hj, Hr, Hp. simpl. by destruct (endsWith tp "/answer").
Qed.

(** The joiner's handler does not: the status has already changed when
    [JSON.parse] throws, and nothing catches the exception. *)
Lemma joiner_onmessage_not_json client c tp msg st :
  endsWith tp "/restart" = false -> endsWith tp "/offer" = true ->
  JSON_parse msg = None ->
  joiner_onmessage client c tp msg st =
    (Thrown, (setStatus "Found Host. Processing..." st).1.2, []).
Proof.
  intros Hr Ho Hp. unfold joiner_onmessage, parse, mbind, M_bind, bind.
  rewrite Hr, Ho, Hp. reflexivity.
Qed.

End Malformed.

Section MalformedRun.
#[local] Existing Instance Demo.platform.

(** C6 at an input where it fails.  A joiner waiting in room 1234
    receives, on the offer topic, a payload that is not JSON: the status
    line changes and the exception reaches the runtime.  (The strokes
    list is untouched.) *)
Theorem joiner_offer_not_json_escapes :
  let before := (run joiner_waiting (init_page ∅)).1 in
  let bad := EvMqttMessage 1 "chkobba/1234/offer" "not json" in
  JSON_parse "not json" = None
  /\ status (ui (page_app before)) = "Looking for room..."
  /\ (step bad before).2 = [Uncaught]
  /\ status (ui (page_app (step bad before).1)) = "Found Host. Processing..."
  /\ strokes (ui (page_app (step bad before).1)) = strokes (ui (page_app before)).
Proof. vm_compute. repeat split. Qed.

End MalformedRun.

(** ** Restoring a stored session *)

Section Restore.
Context {P : Platform}.




End Restore.

Section RestoreRun.
#[local] Existing Instance Demo.platform.



End RestoreRun.

(** ** The joiner's side of the descriptor exchange *)

Section Exchange.
Context {P : Platform}.

(** *** Topics *)

Lemma string_app_cons (x : ascii) (a b : string) : String x a +:+ b = String x (a +:+ b).
Proof. reflexivity. Qed.

Lemma string_app_assoc (a b c : string) : (a +:+ b) +:+ c = a +:+ (b +:+ c).
Proof.
  induction a as [|x a IH]; [done |].
  by rewrite !string_app_cons, IH.
Qed.

Lemma endsWith_app (p s : string) : endsWith (p +:+ s) s = true.
Proof.
  induction p as [|x p IH].
  - change ("" +:+ s) with s. destruct s; simpl; [done |].
    by rewrite Ascii.eqb_refl, String.eqb_refl.
  - rewrite string_app_cons. cbn [endsWith]. rewrite IH. apply orb_true_r.
Qed.

(** A string ending in one of the other three leaves does not end in /answer. *)
Lemma endsWith_other_leaf (p leaf : string) :
  endsWith leaf "/answer" = false ->
  (forall x, endsWith (String x "answer") leaf = false) ->
  endsWith (p +:+ leaf) "/answer" = false.
Proof.
  intros Hleaf Hshort. induction p as [|x p IH]; [done |].
  rewrite string_app_cons. cbn [endsWith]. rewrite IH, orb_false_r.
  destruct (String.eqb_spec (String x (p +:+ leaf)) "/answer") as [Heq|]; [| done].
  pose proof (endsWith_app (String x p) leaf) as Hends.
  rewrite string_app_cons, Heq in Hends.
  by rewrite Hshort in Hends.
Qed.

Lemma topic_split (room leaf : string) :
  topic room leaf = ("chkobba/" +:+ room) +:+ ("/" +:+ leaf).
Proof. unfold topic. by rewrite string_app_assoc. Qed.

Lemma topic_not_answer (room leaf : string) :
  leaf = "join" \/ leaf = "offer" \/ leaf = "restart" ->
  endsWith (topic room leaf) "/answer" = false.
Proof.
  intros Hleaf. rewrite topic_split.
  apply endsWith_other_leaf.
  - destruct Hleaf as [-> | [-> | ->]]; reflexivity.
  - intros x. destruct Hleaf as [-> | [-> | ->]]; cbv [String.append]; cbn;
      repeat match goal with
      | |- context [Ascii.eqb x ?c] => destruct (Ascii.eqb x c)
      end; reflexivity.
Qed.

Lemma topic_is_answer (room : string) : endsWith (topic room "answer") "/answer" = true.
Proof. rewrite topic_split. apply endsWith_app. Qed.

(** *** Handlers that neither publish an answer nor schedule one *)

#[local] Instance no_new_answer_timer_preorder : PreOrder no_new_answer_timer.
Proof. split; [by intros st c pc room | intros a b c H1 H2 x pc room H; eauto]. Qed.

Lemma remove_first_subset t ts x : x ∈ remove_first t ts -> x ∈ ts.
Proof.
  induction ts as [|y ts IH]; simpl; [done |].
  destruct (decide (t = y)); [by constructor |].
  intros [->|H]%elem_of_cons; [by constructor | constructor; by apply IH].
Qed.

Ltac quiet_side :=
  try done;
  try (simpl; apply topic_not_answer; auto);
  try (intros c0 pc0 room0 Hin; simpl in Hin;
       first [ exact Hin
             | by apply elem_of_nil in Hin
             | by apply remove_first_subset in Hin
             | apply elem_of_app in Hin as [Hin | Hin];
               [exact Hin | by apply list_elem_of_singleton in Hin] ]).

Lemma handle_quiet e :
  plain_event e -> sat no_new_answer_timer not_answer_publish (handle e).
Proof. destruct e; try done; intros He; sat_walk; quiet_side. Qed.

Lemma handleStrokeComplete_quiet pts now :
  sat no_new_answer_timer not_answer_publish (handleStrokeComplete pts now).
Proof. sat_walk; quiet_side. Qed.

Lemma dispatch_quiet e pg :
  plain_event e -> sat no_new_answer_timer not_answer_publish (dispatch e pg).1.1.
Proof.
  intros He. destruct e as [| | | | | | | | | | | | | | | | | g now | | | | | | | |];
    try (by apply handle_quiet).
  unfold dispatch. destruct (view _); try exact (sat_ret _ _ tt).
  destruct (DrawingBoard.handle g (board pg)) as [[[pts|]|] b]; simpl;
    [apply handleStrokeComplete_quiet | exact (sat_ret _ _ tt) | exact (sat_ret _ _ tt)].
Qed.

(** *** What one event can do *)

(** The render after a handler adds no effect but the report of an
    exception, and touches no timer. *)
Lemma app_step_via (m : M unit) st :
  (app_step m st).2 =
    (m st).2 ++ match (m st).1.1 with Thrown => [Uncaught] | Normal _ => [] end
  /\ timers (browser (app_step m st).1) = timers (browser (m st).1.2).
Proof.
  unfold app_step. destruct (m st) as [[r st1] out]; simpl.
  destruct (manual_deps_changed _ _); simpl.
  - unfold saveManualState, mbind, M_bind, bind; simpl.
    destruct (view (ui st1)), r; simpl; by rewrite ?app_nil_r.
  - destruct r; simpl; by rewrite ?app_nil_r.
Qed.

Lemma quiet_of_sat e (m : M unit) st :
  sat no_new_answer_timer not_answer_publish m ->
  Outcome e st (m st).1.2 (m st).2.
Proof. intros Hm. destruct (Hm st). by apply Quiet. Qed.

Lemma host_onmessage_quiet client c tp msg :
  sat no_new_answer_timer not_answer_publish (host_onmessage client c tp msg).
Proof. sat_walk; quiet_side. Qed.

Ltac quiet_now :=
  apply Quiet;
  [ intros ? ? ? Hin; simpl in Hin; exact Hin
  | repeat constructor ].

Lemma joiner_onmessage_outcome client c tp msg st :
  Outcome (EvMqttMessage client tp msg) st
    (joiner_onmessage client c tp msg st).1.2 (joiner_onmessage client c tp msg st).2.
Proof.
  unfold joiner_onmessage.
  destruct (endsWith tp "/restart") eqn:Hr.
  { apply Quiet; [done |]. repeat constructor. simpl. apply topic_not_answer; auto. }
  destruct (endsWith tp "/offer") eqn:Ho; [| quiet_now].
  unfold when, parse, rtc_setRemoteDescription, rtc_createAnswer,
    rtc_setLocalDescription, setTimeout, mbind, M_bind, bind; simpl.
  destruct (JSON_parse msg) as [desc|] eqn:Hp; simpl; [| quiet_now].
  destruct (setRemoteDescription _ desc) as [pc1|]; simpl; [| quiet_now].
  destruct (createAnswer _) as [answer|]; simpl; [| quiet_now].
  destruct (setLocalDescription _ answer) as [pc2|]; simpl; [| quiet_now].
  by eapply OfferHandled.
Qed.

Lemma fire_timer_outcome e t st :
  Outcome e st (fire_timer t st).1.2 (fire_timer t st).2.
Proof.
  destruct t as [h room | c pc room |].
  1, 3: apply (quiet_of_sat e (fire_timer _)); sat_walk; quiet_side.
  unfold fire_timer, mbind, M_bind, bind; simpl.
  destruct (decide _) as [Hin | Hout]; simpl; [| quiet_now].
  eapply Answered; [exact Hin | reflexivity |].
  intros c0 pc0 room0 H; simpl in H. by apply remove_first_subset in H.
Qed.

Lemma dispatch_outcome e pg :
  Outcome e (page_app pg)
    ((dispatch e pg).1.1 (page_app pg)).1.2 ((dispatch e pg).1.1 (page_app pg)).2.
Proof.
  destruct e as [| | | t | | | | | | | | | | | | | | | | client tp msg | | | | | |];
    try (apply quiet_of_sat, dispatch_quiet; exact I).
  - (* a timer *) apply fire_timer_outcome.
  - (* a relay message *)
    cbn [dispatch fst handle]. unfold mbind, M_bind, bind; simpl.
    destruct (clients (browser (page_app pg)) !! client) as [c|]; [| quiet_now].
    destruct (cl_role c).
    + pose proof (host_onmessage_quiet client c tp msg (page_app pg)) as [H1 H2].
      destruct (host_onmessage _ _ _ _ _) as [[r st2] out2]. by apply Quiet.
    + pose proof (joiner_onmessage_outcome client c tp msg (page_app pg)) as H.
      destruct (joiner_onmessage _ _ _ _ _) as [[r st2] out2]. exact H.
Qed.

(** *** The invariant along a run *)

Lemma step_via e pg :
  exists extra,
    (step e pg).2 = ((dispatch e pg).1.1 (page_app pg)).2 ++ extra
    /\ Forall (fun x => x = Uncaught) extra
    /\ timers (browser (page_app (step e pg).1))
        = timers (browser ((dispatch e pg).1.1 (page_app pg)).1.2).
Proof.
  unfold step. destruct (dispatch e pg) as [[m b] thrown]; cbn [fst snd].
  destruct (app_step_via m (page_app pg)) as [Hout Htimers].
  destruct (app_step m (page_app pg)) as [st out]; cbn [fst snd page_app] in *.
  exists (match (m (page_app pg)).1.1 with Thrown => [Uncaught] | Normal _ => [] end
          ++ (if thrown then [Uncaught] else [])).
  split; [by rewrite Hout, app_assoc |]. split; [| done].
  apply Forall_app; split.
  - destruct ((m (page_app pg)).1.1); by repeat constructor.
  - destruct thrown; by repeat constructor.
Qed.

Lemma offer_handled_mono c pc room log more :
  offer_handled c pc room log -> offer_handled c pc room (log ++ more).
Proof.
  intros (tp & msg & desc & answer & Hsub & ?).
  exists tp, msg, desc, answer. split; [by apply sublist_inserts_r | done].
Qed.

Lemma split_at {A} (l1 l2 pre post : list A) x :
  l1 ++ l2 = pre ++ x :: post ->
  (exists post1, l1 = pre ++ x :: post1) \/ (exists mid, pre = l1 ++ mid /\ l2 = mid ++ x :: post).
Proof.
  revert pre. induction l1 as [|y l1 IH]; intros pre Heq.
  - right. by exists pre.
  - destruct pre as [|z pre]; simplify_eq/=.
    + left. by exists l1.
    + destruct (IH pre) as [[post1 ->] | (mid & -> & ->)]; [done | |].
      * left. by exists post1.
      * right. by exists mid.
Qed.

Lemma follow_extend log new :
  answers_follow_offers log ->
  (forall mid c t payload post,
     new = mid ++ Did (MqttPublish c t payload) :: post ->
     endsWith t "/answer" = true ->
     exists pc room, t = topic room "answer" /\ offer_handled c pc room (log ++ mid)) ->
  answers_follow_offers (log ++ new).
Proof.
  intros Hlog Hnew pre c t payload post Heq Hans.
  destruct (split_at _ _ _ _ _ Heq) as [[post1 ->] | (mid & -> & ->)].
  - by eapply Hlog.
  - by eapply Hnew.
Qed.

Lemma quiet_has_no_answer e out extra mid c t payload post :
  Forall not_answer_publish out ->
  Forall (fun x => x = Uncaught) extra ->
  Got e :: map Did (out ++ extra) = mid ++ Did (MqttPublish c t payload) :: post ->
  endsWith t "/answer" = true -> False.
Proof.
  intros Hout Hextra Heq Hans.
  assert (Did (MqttPublish c t payload) ∈ Got e :: map Did (out ++ extra)) as Hin.
  { rewrite Heq. apply elem_of_app. right. by constructor. }
  apply elem_of_cons in Hin as [? | Hin]; [done |].
  apply list_elem_of_fmap in Hin as (x & [= <-] & Hx).
  apply elem_of_app in Hx as [Hx | Hx].
  - rewrite Forall_forall in Hout. apply Hout in Hx. simpl in Hx. congruence.
  - rewrite Forall_forall in Hextra. by apply Hextra in Hx.
Qed.

Lemma step_invariant e pg log :
  answer_timers_justified (page_app pg) log ->
  answers_follow_offers log ->
  answer_timers_justified (page_app (step e pg).1) (log ++ Got e :: map Did (step e pg).2)
  /\ answers_follow_offers (log ++ Got e :: map Did (step e pg).2).
Proof.
  intros Hj Hf.
  destruct (step_via e pg) as (extra & -> & Hextra & Htimers).
  unfold answer_timers_justified. rewrite Htimers. clear Htimers.
  destruct (dispatch_outcome e pg)
    as [Hkeep Hquiet
       | c pc room payload Hpending -> Hkeep
       | c tp msg desc pc answer room -> Ho Hr Hp -> Htimers].
  - split.
    + intros c pc room Hin. apply offer_handled_mono. eapply Hj, Hkeep, Hin.
    + apply follow_extend; [done |]. intros mid c t payload post Heq Hans.
      exfalso. eapply quiet_has_no_answer; eauto.
  - split.
    + intros c0 pc0 room0 Hin. apply offer_handled_mono. eapply Hj, Hkeep, Hin.
    + apply follow_extend; [done |]. intros mid c0 t payload0 post Heq Hans.
      exists pc, room.
      assert (Did (MqttPublish c0 t payload0)
                ∈ Got e :: map Did ([MqttPublish c (topic room "answer") payload] ++ extra))
        as Hin.
      { rewrite Heq. apply elem_of_app. right. by constructor. }
      apply elem_of_cons in Hin as [? | Hin]; [done |].
      apply elem_of_cons in Hin as [[= -> -> ->] | Hin];
        [split; [done | by apply offer_handled_mono, Hj] |].
      apply list_elem_of_fmap in Hin as (x & [= <-] & Hx).
      rewrite Forall_forall in Hextra. by apply Hextra in Hx.
  - split.
    + intros c0 pc0 room0 Hin. rewrite Htimers in Hin.
      apply elem_of_app in Hin as [Hin | Hin].
      * apply offer_handled_mono. by eapply Hj.
      * apply list_elem_of_singleton in Hin as [= -> -> ->].
        exists tp, msg, desc, answer. split; [| done].
        apply sublist_inserts_l. cbn [map app].
        do 5 apply sublist_skip. apply sublist_nil_l.
    + apply follow_extend; [done |]. intros mid c0 t payload post Heq Hans.
      exfalso. eapply quiet_has_no_answer; [| exact Hextra | exact Heq | exact Hans].
      by repeat constructor.
Qed.

Lemma run_invariant evs : forall pg log,
  answer_timers_justified (page_app pg) log ->
  answers_follow_offers log ->
  answers_follow_offers (log ++ (run evs pg).2).
Proof.
  induction evs as [|e rest IH]; intros pg log Hj Hf.
  - simpl. by rewrite app_nil_r.
  - destruct (step_invariant e pg log Hj Hf) as [Hj1 Hf1].
    specialize (IH (step e pg).1 _ Hj1 Hf1).
    simpl. destruct (step e pg) as [pg1 out]; cbn [fst snd] in *.
    destruct (run rest pg1) as [pg2 log2]; cbn [fst snd] in *.
    by rewrite <- app_assoc in IH.
Qed.

End Exchange.

Section ExchangeOrder.
Context {P : Platform}.

(** C1.  A joiner's relay client, on connecting, subscribes to the
    offer and restart topics of its room and publishes a join request on
    chkobba/<room>/join.  In every run from a freshly loaded page, a
    publish on a topic ending in /answer is on chkobba/<room>/answer for
    some room and is preceded, in this order, by: the same client
    receiving a message on a topic ending in /offer; the parsed payload
    being set as remote description; an answer being created; the answer
    being set as local description; the publication for that room being
    scheduled. *)
Theorem joiner_follows_exchange (st : AppState) (client : nat) (cl : Client)
    (storage : gmap string string) (evs : list Event)
    (pre post : list LogItem) (c : nat) (t payload : string) :
  clients (browser st) !! client = Some cl ->
  cl_role cl = JOINER ->
  (run evs (init_page storage)).2 = pre ++ Did (MqttPublish c t payload) :: post ->
  endsWith t "/answer" = true ->
  handle (EvMqttConnect client) st =
    (Normal tt, (setStatus "Looking for room..." st).1.2,
     [MqttSubscribe client (topic (cl_code cl) "offer");
      MqttSubscribe client (topic (cl_code cl) "restart");
      MqttPublish client (topic (cl_code cl) "join") "hello"])
  /\ exists pc room, t = topic room "answer" /\ offer_handled c pc room pre.
Proof.
  intros Hcl Hrole Hlog Hans. split.
  - unfold handle, mbind, M_bind, bind; simpl. rewrite Hcl, Hrole. reflexivity.
  - assert (answers_follow_offers ([] ++ (run evs (init_page storage)).2)) as Hf.
    { apply run_invariant.
      - intros c0 pc0 room0 Hin. by apply elem_of_nil in Hin.
      - intros pre0 c0 t0 payload0 post0 Heq. by destruct pre0. }
    by eapply Hf.
Qed.

End ExchangeOrder.

Section ExchangeRun.
#[local] Existing Instance Demo.platform.

(** An instance of C1: the joiner of room 1234 answers the host's offer. *)
Lemma joiner_follows_exchange_witness :
  let st := page_app (run [EvTypeInputCode "1234"; EvJoinCloudGame 1700000000000]
                          (init_page ∅)).1 in
  let log := (run joiner_exchange (init_page ∅)).2 in
  let answer := JSON_stringify (Demo.descriptor "answer") in
  log = take 14 log ++ Did (MqttPublish 1 "chkobba/1234/answer" answer) :: drop 15 log
  /\ exists pc room,
       "chkobba/1234/answer" = topic room "answer" /\ offer_handled 1 pc room (take 14 log).
Proof.
  split; [vm_compute; reflexivity |].
  refine (proj2 (joiner_follows_exchange
    (page_app (run [EvTypeInputCode "1234"; EvJoinCloudGame 1700000000000]
                   (init_page ∅)).1)
    1 (MkClient JOINER "1234" 0 false false) ∅ joiner_exchange
    (take 14 (run joiner_exchange (init_page ∅)).2)
    (drop 15 (run joiner_exchange (init_page ∅)).2)
    1 "chkobba/1234/answer" (JSON_stringify (Demo.descriptor "answer")) _ _ _ _)).
  - vm_compute. reflexivity.
  - reflexivity.
  - vm_compute. reflexivity.
  - vm_compute. reflexivity.
Defined.

End ExchangeRun.

(** * Further properties of the controller *)

(** ** The host's relay message handler *)

Section HostMessages.
Context {P : Platform}.

Lemma endsWith_refl (s : string) : endsWith s s = true.
Proof. destruct s; cbn [endsWith]; by rewrite String.eqb_refl. Qed.

(** Two suffixes of one string: one of them is a suffix of the other. *)
Lemma endsWith_comparable (s a b : string) :
  endsWith s a = true -> endsWith s b = true ->
  endsWith a b = true \/ endsWith b a = true.
Proof.
  induction s as [|x s IH].
  - cbn [endsWith]. rewrite !orb_false_r.
    intros <-%String.eqb_eq <-%String.eqb_eq. by left.
  - intros Ha Hb.
    destruct (String.eqb_spec (String x s) a) as [Ea | Na].
    { left. rewrite <- Ea. exact Hb. }
    destruct (String.eqb_spec (String x s) b) as [Eb | Nb].
    { right. rewrite <- Eb. exact Ha. }
    cbn [endsWith] in Ha, Hb.
    apply String.eqb_neq in Na, Nb. rewrite Na in Ha. rewrite Nb in Hb.
    by apply IH.
Qed.

Lemma join_is_not_answer (tp : string) :
  endsWith tp "/join" || endsWith tp "/restart" = true -> endsWith tp "/answer" = false.
Proof.
  intros H. destruct (endsWith tp "/answer") eqn:Ha; [| done].
  apply orb_true_iff in H as [H | H];
    destruct (endsWith_comparable _ _ _ H Ha) as [C | C]; vm_compute in C; discriminate.
Qed.

(** The host's message handler.  It never throws.  A message on a topic
    ending in /join or /restart is answered with the current local
    description on the room's offer topic, and nothing else happens.  A
    message on a topic ending in /answer is applied to the peer
    connection only while that connection is in state have-local-offer:
    in any other state (an answer that comes twice, or before the offer
    was made) the page is left as it was, with a console error if the
    text is not JSON.  A message on any other topic is ignored. *)
Theorem host_answers_joins_and_guards_answers
    (client : nat) (c : Client) (tp msg : string) (st : AppState) :
  let '(r, st', out) := host_onmessage client c tp msg st in
  r = Normal tt
  /\ (endsWith tp "/join" || endsWith tp "/restart" = true ->
      st' = (setStatus "Sending Offer..." st).1.2
      /\ out = [MqttPublish client (topic (cl_code c) "offer")
                  (JSON_stringify (localDescription (the_pc (cl_pc c) st)))])
  /\ (endsWith tp "/answer" = true ->
      signalingState (the_pc (cl_pc c) st) ≠ have_local_offer ->
      st' = st
      /\ out = match JSON_parse msg with Some _ => [] | None => [ConsoleError] end)
  /\ (endsWith tp "/answer" = true ->
      signalingState (the_pc (cl_pc c) st) = have_local_offer ->
      forall desc pc',
        JSON_parse msg = Some desc ->
        setRemoteDescription (the_pc (cl_pc c) st) desc = Some pc' ->
        st' = (setStatus "Connecting P2P..." (update_pc (cl_pc c) (fun _ => pc') st).1.2).1.2
        /\ out = [RtcSetRemote (cl_pc c) desc true])
  /\ (endsWith tp "/join" || endsWith tp "/restart" = false ->
      endsWith tp "/answer" = false ->
      st' = st /\ out = []).
Proof.
  unfold host_onmessage, try_catch, parse, rtc_setRemoteDescription, when,
    mbind, M_bind, bind.
  destruct (endsWith tp "/join" || endsWith tp "/restart") eqn:Hj.
  { rewrite (join_is_not_answer tp Hj). simpl. repeat split; intros; by simplify_eq. }
  destruct (endsWith tp "/answer") eqn:Ha; simpl;
    [| repeat split; intros; by simplify_eq].
  destruct (JSON_parse msg) as [desc|] eqn:Hp; simpl;
    [| repeat split; intros; by simplify_eq].
  destruct (signalingState (the_pc (cl_pc c) st)) eqn:Hs; simpl;
    try (repeat split; intros; by simplify_eq).
  destruct (setRemoteDescription (the_pc (cl_pc c) st) desc) as [pc'|] eqn:Hr; simpl;
    repeat split; intros; by simplify_eq.
Qed.

End HostMessages.

(** ** A session across a reload *)

Section SessionRoundTrip.
Context {P : Platform}.

Lemma round_7199999 : (Double.round 7199999 == 7199999)%Q.
Proof. vm_compute. reflexivity. Qed.

(** The freshness test passes for a whole number of milliseconds below
    two hours. *)
Lemma fresh_age_Z (now t : Z) :
  0 <= now - t < 7200000 ->
  js_lt (js_sub (Fin (inject_Z now)) (Fin (inject_Z t))) (Fin (inject_Z 7200000)) = true.
Proof.
  intros [H0 H1]. cbn [js_sub js_lt]. unfold Qlt_bool.
  apply negb_true_iff. destruct (Qle_bool _ _) eqn:Hle; [| done].
  apply Qle_bool_iff in Hle. exfalso.
  assert (inject_Z now - inject_Z t == inject_Z (now - t))%Q as Hq.
  { unfold Z.sub. rewrite inject_Z_plus, inject_Z_opp. reflexivity. }
  assert (0 <= inject_Z now - inject_Z t)%Q as Hlo.
  { rewrite Hq. change 0%Q with (inject_Z 0). rewrite <- Zle_Qle. lia. }
  assert (inject_Z now - inject_Z t <= 7199999)%Q as Hhi.
  { rewrite Hq. change 7199999%Q with (inject_Z 7199999). rewrite <- Zle_Qle. lia. }
  pose proof (round_mono _ _ Hlo Hhi) as Hm. rewrite round_7199999 in Hm.
  assert (inject_Z 7200000 <= 7199999)%Q as Hbad by (eapply Qle_trans; eassumption).
  revert Hbad. by compute.
Qed.

Lemma restoreSession_cloud (r : Role) (room : string) (t now : Z)
    (s : gmap string string) (n : nat) :
  json_round_trip (session_obj (MkSession CLOUD r room t)) ->
  0 <= now - t < 7200000 ->
  s !! "chkobba_session" = Some (JSON_stringify (session_obj (MkSession CLOUD r room t))) ->
  restoreSession now (loaded s n) =
    (Normal tt,
     MkApp (MkUi HOME "" "" room room "" "" false [] true) (MkRefs None None None)
           (MkBrowser ∅ ∅ ∅ [TRestore (is_host r) room] s n),
     [SetTimeout (TRestore (is_host r) room) 100]).
Proof.
  intros [Hne Hrt] Hage Hs.
  unfold restoreSession, try_catch, getItem, parse, mbind, M_bind, bind.
  cbn [get_state ret loaded localStorage browser fst snd]. rewrite Hs.
  unfold present. destruct (String.eqb_spec (JSON_stringify (session_obj (MkSession CLOUD r room t))) "");
    [done |].
  rewrite Hrt. cbn [unwrap ret session_obj member obj_get String.eqb Ascii.eqb Bool.eqb
                    mode role code timestamp js_ToNumber].
  change (2 * 60 * 60 * 1000) with 7200000.
  rewrite (fresh_age_Z now t Hage).
  destruct r; reflexivity.
Qed.

Lemma saveSession_eq (m : Mode) (r : Role) (c : string) (t : Z) (st : AppState) :
  saveSession m r c t st =
    (Normal tt,
     with_browser (with_localStorage
       (insert "chkobba_session" (JSON_stringify (session_obj (MkSession m r c t))))) st,
     []).
Proof. reflexivity. Qed.

Lemma remove_first_head (t : Timer) (ts : list Timer) : remove_first t (t :: ts) = ts.
Proof. cbn [remove_first]. by rewrite decide_True. Qed.

Lemma fire_restore (r : Role) (room : string) (s : gmap string string) (n : nat) :
  fire_timer (TRestore (is_host r) room)
    (MkApp (MkUi HOME "" "" room room "" "" false [] true) (MkRefs None None None)
           (MkBrowser ∅ ∅ ∅ [TRestore (is_host r) room] s n)) =
  match r with
  | HOST =>
      (Normal tt,
       MkApp (MkUi HOST_LOBBY "Initializing Host..." "" room room "" "" false [] true)
             (MkRefs (Some n) (Some (S n)) (Some (S (S n))))
             (MkBrowser (<[n := MkPcCell new_pc None]> ∅) (<[S n := rs_connecting]> ∅)
                        (<[S (S n) := MkClient HOST room n false false]> ∅) [] s (S (S (S n)))),
       [RtcNew n; RtcCreateDataChannel n (S n); MqttConnect (S (S n))])
  | JOINER =>
      (Normal tt,
       MkApp (MkUi JOIN_LOBBY "Connecting to Cloud..." "" room room "" "" false [] true)
             (MkRefs (Some n) None (Some (S n)))
             (MkBrowser (<[n := MkPcCell new_pc None]> ∅) ∅
                        (<[S n := MkClient JOINER room n false false]> ∅) [] s (S (S n))),
       [RtcNew n; MqttConnect (S n)])
  end.
Proof.
  unfold fire_timer, mbind, M_bind, bind. cbn [get_state ret browser timers].
  destruct (decide _) as [_ | Hno]; [| exfalso; apply Hno; by left].
  cbn [modify with_browser with_timers browser timers
       ui refs pcs channels clients localStorage next_id].
  unfold with_browser, with_timers.
  cbn [browser timers ui refs pcs channels clients localStorage next_id].
  rewrite remove_first_head.
  destruct r; reflexivity.
Qed.

(** A cloud session survives a reload.  After [saveSession] stored a
    host's or joiner's record for a room at time [t], a page reloaded
    less than two hours later restores the room code into both code
    fields, marks itself as reconnecting and, when its 100 ms timer
    fires, opens a new peer connection and a new relay client for the
    same room in the same role.  The timer's callback is the first
    render's closure, so that client is created with
    [isReconnecting = false] and the status line is the one of a first
    connection. *)
Theorem reload_reconnects_to_saved_room
    (r : Role) (room : string) (t now : Z) (st : AppState) :
  json_round_trip (session_obj (MkSession CLOUD r room t)) ->
  0 <= now - t < 7200000 ->
  let saved := (saveSession CLOUD r room t st).1.2 in
  let n := next_id (browser st) in
  let timer := TRestore (is_host r) room in
  let client := match r with HOST => S (S n) | JOINER => S n end in
  let '(pg, log) := run [EvMount now; EvTimer timer] (reloaded saved) in
  log = [Got (EvMount now); Did (SetTimeout timer 100); Got (EvTimer timer); Did (RtcNew n)]
        ++ match r with
           | HOST => [Did (RtcCreateDataChannel n (S n)); Did (MqttConnect client)]
           | JOINER => [Did (MqttConnect client)]
           end
  /\ clients (browser (page_app pg)) !! client = Some (MkClient r room n false false)
  /\ mqttClientRef (refs (page_app pg)) = Some client
  /\ pcRef (refs (page_app pg)) = Some n
  /\ ui (page_app pg) =
       MkUi (match r with HOST => HOST_LOBBY | JOINER => JOIN_LOBBY end)
            (match r with HOST => "Initializing Host..." | JOINER => "Connecting to Cloud..." end)
            "" room room "" "" false [] true
  /\ timers (browser (page_app pg)) = [].
Proof.
  intros Hrt Hage saved n timer client. subst saved n timer client.
  rewrite saveSession_eq.
  cbn [fst snd]. unfold reloaded.
  cbn [with_browser with_localStorage browser localStorage next_id].
  cbn [run step dispatch page_app board handle].
  unfold app_step.
  rewrite (restoreSession_cloud r room t now _ _ Hrt Hage) by apply lookup_insert_eq.
  match goal with
  | |- context [manual_deps_changed ?a ?b] =>
      change (manual_deps_changed a b) with false
  end.
  cbn [page_app view ui board fst snd app].
  rewrite fire_restore.
  destruct r;
    match goal with
    | |- context [manual_deps_changed ?a ?b] =>
        change (manual_deps_changed a b) with true
    end;
    unfold saveManualState, mbind, M_bind, bind;
    cbn [get_state ui view ret fst snd app page_app board map refs browser clients
         mqttClientRef pcRef timers];
    rewrite lookup_insert_eq; done.
Qed.

Lemma or_empty_str (s : string) : or_empty (JStr s) = s.
Proof.
  unfold or_empty. cbn [truthy js_ToString].
  by destruct (String.eqb_spec s "") as [-> |].
Qed.

Lemma restoreSession_manual (r : Role) (t now : Z) (lo ra : string)
    (s : gmap string string) (n : nat) :
  json_round_trip (session_obj (MkSession MANUAL r "manual" t)) ->
  json_round_trip (JObj [("localOffer", JStr lo); ("remoteAnswer", JStr ra)]) ->
  0 <= now - t < 7200000 ->
  s !! "chkobba_session" = Some (JSON_stringify (session_obj (MkSession MANUAL r "manual" t))) ->
  s !! "chkobba_manual_state" =
    Some (JSON_stringify (JObj [("localOffer", JStr lo); ("remoteAnswer", JStr ra)])) ->
  restoreSession now (loaded s n) =
    (Normal tt,
     MkApp (MkUi (manual_view r) "" "" "" "" lo ra false [] false) (MkRefs None None None)
           (MkBrowser ∅ ∅ ∅ [] s n),
     []).
Proof.
  intros [Hne Hrt] [Hne' Hrt'] Hage Hs Hm.
  unfold restoreSession, try_catch, getItem, parse, mbind, M_bind, bind.
  cbn [get_state ret loaded localStorage browser fst snd]. rewrite Hs.
  unfold present at 1.
  destruct (String.eqb_spec (JSON_stringify (session_obj (MkSession MANUAL r "manual" t))) "");
    [done |].
  rewrite Hrt. cbn [unwrap ret session_obj member obj_get String.eqb Ascii.eqb Bool.eqb
                    mode role code timestamp js_ToNumber].
  change (2 * 60 * 60 * 1000) with 7200000.
  rewrite (fresh_age_Z now t Hage).
  cbn [is_str Mode_str String.eqb Ascii.eqb Bool.eqb get_state ret loaded localStorage
       browser fst snd].
  rewrite Hm. unfold present.
  destruct (String.eqb_spec
    (JSON_stringify (JObj [("localOffer", JStr lo); ("remoteAnswer", JStr ra)])) ""); [done |].
  rewrite Hrt'.
  cbn [unwrap ret member obj_get String.eqb Ascii.eqb Bool.eqb].
  rewrite !or_empty_str.
  destruct r; reflexivity.
Qed.

Lemma saveManualState_manual (r : Role) (st : AppState) :
  view (ui st) = manual_view r ->
  saveManualState st =
    (Normal tt,
     with_browser (with_localStorage
       (insert "chkobba_manual_state"
          (JSON_stringify (JObj [("localOffer", JStr (localOffer (ui st)));
                                 ("remoteAnswer", JStr (remoteAnswer (ui st)))])))) st,
     []).
Proof.
  intros Hv. unfold saveManualState, mbind, M_bind, bind. cbn [get_state ret].
  rewrite Hv. by destruct r.
Qed.

(** The manual-mode texts survive a reload.  In a manual view, with the
    session record written when the view was entered and the two text
    fields backed up by the effect that follows every change, a page
    reloaded less than two hours later comes back in the same manual
    view with the same two texts.  It has no peer connection: the
    host's Connect button does nothing there. *)
Theorem reload_restores_manual_texts (r : Role) (t now : Z) (st : AppState) :
  json_round_trip (session_obj (MkSession MANUAL r "manual" t)) ->
  json_round_trip (JObj [("localOffer", JStr (localOffer (ui st)));
                         ("remoteAnswer", JStr (remoteAnswer (ui st)))]) ->
  0 <= now - t < 7200000 ->
  view (ui st) = manual_view r ->
  let saved := (saveManualState (saveSession MANUAL r "manual" t st).1.2).1.2 in
  let '(pg, out) := step (EvMount now) (reloaded saved) in
  out = []
  /\ ui (page_app pg) =
       MkUi (manual_view r) "" "" "" "" (localOffer (ui st)) (remoteAnswer (ui st))
            false [] false
  /\ refs (page_app pg) = MkRefs None None None
  /\ localStorage (browser (page_app pg)) = localStorage (browser saved)
  /\ handleManualHostConnect (page_app pg) = (Normal tt, page_app pg, []).
Proof.
  intros Hs Hm Hage Hv saved. subst saved.
  rewrite saveSession_eq. cbn [fst snd].
  rewrite (saveManualState_manual r) by exact Hv. cbn [fst snd].
  unfold reloaded, step, dispatch, app_step.
  cbn [with_browser with_localStorage with_ui browser localStorage next_id ui
       localOffer remoteAnswer page_app board handle].
  rewrite (restoreSession_manual r t now (localOffer (ui st)) (remoteAnswer (ui st)));
    [| exact Hs | exact Hm | exact Hage
     | rewrite lookup_insert_ne by done; apply lookup_insert_eq
     | apply lookup_insert_eq].
  match goal with
  | |- context [manual_deps_changed ?a ?b] =>
      assert (manual_deps_changed a b = true) as ->
  end.
  { unfold manual_deps_changed. cbn [view localOffer remoteAnswer init_ui ui loaded].
    rewrite (bool_decide_eq_false_2 (HOME = manual_view r)) by (by destruct r).
    by rewrite !andb_false_r. }
  cbn [ui].
  rewrite (saveManualState_manual r) by reflexivity.
  cbn [fst snd with_browser with_localStorage browser localStorage ui localOffer
       remoteAnswer page_app app refs].
  repeat split. by rewrite insert_insert_eq.
Qed.

End SessionRoundTrip.

Section SessionRoundTripRun.
#[local] Existing Instance Demo.platform.

(** An instance: a host of room 5500 reloads one minute after starting. *)
Lemma reload_reconnects_to_saved_room_witness :
  json_round_trip (session_obj (MkSession CLOUD HOST "5500" 1700000000000))
  /\ 0 <= 1700000060000 - 1700000000000 < 7200000
  /\ (run [EvMount 1700000060000; EvTimer (TRestore true "5500")]
        (reloaded (saveSession CLOUD HOST "5500" 1700000000000 (init_state ∅)).1.2)).2 =
       [Got (EvMount 1700000060000); Did (SetTimeout (TRestore true "5500") 100);
        Got (EvTimer (TRestore true "5500")); Did (RtcNew 0);
        Did (RtcCreateDataChannel 0 1); Did (MqttConnect 2)].
Proof.
  assert (json_round_trip (session_obj (MkSession CLOUD HOST "5500" 1700000000000))) as Hrt.
  { split; [intros H; vm_compute in H; discriminate | vm_compute; reflexivity]. }
  assert (0 <= 1700000060000 - 1700000000000 < 7200000) as Hage by lia.
  split; [exact Hrt |]. split; [exact Hage |].
  pose proof (reload_reconnects_to_saved_room HOST "5500" 1700000000000 1700000060000
                (init_state ∅) Hrt Hage) as H.
  cbv zeta in H.
  destruct (run _ _) as [pg log]. exact (proj1 H).
Defined.

(** An instance: a manual host with a pasted reply reloads one minute later. *)
Lemma reload_restores_manual_texts_witness :
  let st := with_ui (fun _ => MkUi MANUAL_HOST "Ready" "" "" "" "b2ZmZXI=" "YW5zd2Vy" false [] false)
                    (init_state ∅) in
  let saved := (saveManualState (saveSession MANUAL HOST "manual" 1700000000000 st).1.2).1.2 in
  view (ui st) = manual_view HOST
  /\ ui (page_app (step (EvMount 1700000060000) (reloaded saved)).1) =
       MkUi MANUAL_HOST "" "" "" "" "b2ZmZXI=" "YW5zd2Vy" false [] false.
Proof.
  intros st saved. split; [reflexivity |].
  assert (json_round_trip (session_obj (MkSession MANUAL HOST "manual" 1700000000000))) as Hs.
  { split; [intros H; vm_compute in H; discriminate | vm_compute; reflexivity]. }
  assert (json_round_trip (JObj [("localOffer", JStr (localOffer (ui st)));
                                 ("remoteAnswer", JStr (remoteAnswer (ui st)))])) as Hm.
  { split; [intros H; vm_compute in H; discriminate | vm_compute; reflexivity]. }
  assert (0 <= 1700000060000 - 1700000000000 < 7200000) as Hage by lia.
  pose proof (reload_restores_manual_texts HOST 1700000000000 1700000060000 st
                Hs Hm Hage eq_refl) as H.
  cbv zeta in H. fold saved in H.
  destruct (step _ _) as [pg out]. exact (proj1 (proj2 H)).
Defined.

End SessionRoundTripRun.

(** ** Leaving a game *)

Section Leaving.
Context {P : Platform}.

Lemma restoreSession_no_record (now : Z) (s : gmap string string) (n : nat) :
  s !! "chkobba_session" = None ->
  restoreSession now (loaded s n) = (Normal tt, loaded s n, []).
Proof.
  intros Hs. unfold restoreSession, getItem, mbind, M_bind, bind.
  cbn [get_state ret loaded localStorage browser fst snd]. by rewrite Hs.
Qed.

Lemma exitGame_confirmed (st : AppState) :
  exitGame true st =
    (Normal tt,
     loaded (delete "chkobba_manual_state"
               (delete "chkobba_session" (localStorage (browser st))))
            (next_id (browser st)),
     [Reload]).
Proof. reflexivity. Qed.

(** Ending a game forgets it.  A declined confirmation changes nothing.
    A confirmed End, like the lobby's back arrow, removes both storage
    keys and reloads the page; the page that then loads is the start
    page, its restore effect finds no record and does nothing, and every
    other storage key still has its value.  The back arrow of the
    manual views removes the two keys as well and shows the start view
    without a reload: the backup effect that follows writes nothing, and
    the peer connection the view had opened is neither closed nor
    forgotten. *)
Theorem exit_forgets_the_session (st : AppState) (b : DrawingBoard.Board) (now : Z) :
  step EvManualBack (MkPage st b)
    = (MkPage (setView HOME (cleared st)).1.2 DrawingBoard.init_board, [])
  /\ exitGame false st = (Normal tt, st, [])
  /\ lobby_back st = exitGame true st
  /\ let '(r, st', out) := exitGame true st in
     r = Normal tt
     /\ out = [Reload]
     /\ st' = loaded (delete "chkobba_manual_state"
                        (delete "chkobba_session" (localStorage (browser st))))
                     (next_id (browser st))
     /\ keeps_other_keys st st'
     /\ step (EvMount now) (MkPage st' DrawingBoard.init_board)
        = (MkPage st' DrawingBoard.init_board, []).
Proof.
  split.
  { unfold step, dispatch, app_step. cbn [page_app board handle].
    change (manual_back st) with (Normal tt, (setView HOME (cleared st)).1.2, @nil Effect).
    cbv beta iota zeta.
    match goal with
    | |- context [manual_deps_changed ?x ?y] => destruct (manual_deps_changed x y)
    end; reflexivity. }
  split; [reflexivity |]. split; [reflexivity |].
  rewrite exitGame_confirmed. repeat split.
  - intros k Hs Hm. cbn [loaded browser localStorage]. by rewrite !lookup_delete_ne.
  - unfold step, dispatch, app_step. cbn [page_app board handle].
    rewrite restoreSession_no_record
      by (rewrite lookup_delete_ne by done; apply lookup_delete_eq).
    reflexivity.
Qed.

End Leaving.

(** ** Messages between the two peers *)

Section PeerMessages.
Context {P : Platform}.

Lemma obj_get_set_eq (k : string) (v : JsValue) (o : list (string * JsValue)) :
  obj_get k (obj_set k v o) = v.
Proof.
  induction o as [|[k' v'] o IH]; cbn [obj_set obj_get].
  - by rewrite String.eqb_refl.
  - destruct (String.eqb_spec k k') as [<- | Hne]; cbn [obj_get].
    + by rewrite String.eqb_refl.
    + by destruct (String.eqb_spec k k').
Qed.

Lemma obj_get_set_ne (k k' : string) (v : JsValue) (o : list (string * JsValue)) :
  k ≠ k' -> obj_get k (obj_set k' v o) = obj_get k o.
Proof.
  intros Hne. induction o as [|[k0 v0] o IH]; cbn [obj_set obj_get].
  - by destruct (String.eqb_spec k k').
  - destruct (String.eqb_spec k' k0) as [<- | Hne0]; cbn [obj_get].
    + by destruct (String.eqb_spec k k').
    + by rewrite IH.
Qed.

Lemma channel_onmessage_strokes (data : string) (st : AppState) :
  let st' := (channel_onmessage data st).1.2 in
  strokes (ui st') = strokes (ui st)
  \/ strokes (ui st') = []
  \/ exists fields,
       strokes (ui st') = strokes (ui st) ++ [JObj fields]
       /\ obj_get "isRemote" fields = JBool true
       /\ obj_get "color" fields = JStr "#22c55e".
Proof.
  cbv zeta. unfold channel_onmessage, try_catch, parse, mbind, M_bind, bind.
  destruct (JSON_parse data) as [v|]; cbn [unwrap ret throw fst snd]; [| by left].
  destruct v; cbn [member ret throw fst snd]; try by left.
  destruct (is_str _ "SYNC_STROKE" && truthy _).
  { right; right. eexists. split; [reflexivity |].
    cbn [obj_assign fold_left fst snd]. split.
    - rewrite obj_get_set_ne by done. apply obj_get_set_eq.
    - apply obj_get_set_eq. }
  destruct (is_str _ "CLEAR_BOARD"); [by right; left |].
  destruct (is_str _ "PING"); [| by left].
  left. unfold handleIncomingPing, when, mbind, M_bind, bind. by destruct navigator_vibrate.
Qed.

(** What the receiving data channel makes of any text: it leaves the
    strokes as they are, or empties them, or appends one object, and an
    appended object is always marked remote and green, whatever the
    sender wrote into those two fields.  No exception leaves the handler. *)
Theorem incoming_strokes_are_marked_remote (data : string) (st : AppState) :
  let '(r, st', out) := channel_onmessage data st in
  r = Normal tt
  /\ (strokes (ui st') = strokes (ui st)
      \/ strokes (ui st') = []
      \/ exists fields,
           strokes (ui st') = strokes (ui st) ++ [JObj fields]
           /\ obj_get "isRemote" fields = JBool true
           /\ obj_get "color" fields = JStr "#22c55e").
Proof.
  pose proof (channel_onmessage_returns data st) as Hr.
  pose proof (channel_onmessage_strokes data st) as Hs. cbv zeta in Hs.
  destruct (channel_onmessage data st) as [[r st'] out]. by split.
Qed.

(** A finished stroke reaches the peer as drawn.  With the sender's
    channel open and a message that survives the JSON round trip, the
    text [handleStrokeComplete] sends, given to the receiver's
    [onmessage], appends to the receiver's strokes the same stroke
    (identifier and points, in order), marked remote and green, and does
    nothing else. *)
Theorem stroke_reaches_the_peer
    (pts : list Point) (now : Z) (sender receiver : AppState) (ch : nat) :
  let mine := MkStroke (Z_toString now) pts "#3b82f6" false in
  let message := JObj [("type", JStr "SYNC_STROKE"); ("stroke", stroke_obj mine)] in
  channel_open sender = Some ch ->
  JSON_parse (JSON_stringify message) = Some message ->
  (handleStrokeComplete pts now sender).2 = [DcSend ch (JSON_stringify message)]
  /\ channel_onmessage (JSON_stringify message) receiver =
       (Normal tt,
        (setStrokes (fun prev => prev ++
           [stroke_obj (MkStroke (Z_toString now) pts "#22c55e" true)]) receiver).1.2,
        []).
Proof.
  intros mine message Hopen Hrt. split.
  - unfold handleStrokeComplete, sendSync, mbind, M_bind, bind.
    cbn [setStrokes modify get_state fst snd].
    change (channel_open (with_ui _ sender)) with (channel_open sender).
    by rewrite Hopen.
  - unfold channel_onmessage, try_catch, parse, mbind, M_bind, bind.
    rewrite Hrt. reflexivity.
Qed.

(** The three messages without payload, from sender to receiver.  With
    the sender's channel open, Clear sends CLEAR_BOARD, the bell sends
    PING (after a vibration of 50 ms where the browser has
    [navigator.vibrate], and without one where it has not), and a tick
    of the game view's interval sends HEARTBEAT.  At the receiver, when
    these texts survive the JSON round trip: CLEAR_BOARD empties the
    strokes; PING raises the flash, vibrates in the pattern 200, 100,
    200 (again only where the browser has [navigator.vibrate]) and
    starts a 500 ms timer whose firing lowers the flash again;
    HEARTBEAT changes nothing and causes nothing. *)
Theorem control_messages_reach_the_peer (sender receiver : AppState) (ch : nat) :
  let object (type : string) := JObj [("type", JStr type)] in
  let text (type : string) := JSON_stringify (object type) in
  channel_open sender = Some ch ->
  JSON_parse (text "CLEAR_BOARD") = Some (object "CLEAR_BOARD") ->
  JSON_parse (text "PING") = Some (object "PING") ->
  JSON_parse (text "HEARTBEAT") = Some (object "HEARTBEAT") ->
  ((clearBoard sender).2 = [DcSend ch (text "CLEAR_BOARD")]
   /\ (triggerPing sender).2
      = (if navigator_vibrate then [Vibrate [50]] else []) ++ [DcSend ch (text "PING")]
   /\ (view (ui sender) = GAME -> (heartbeat sender).2 = [DcSend ch (text "HEARTBEAT")]))
  /\ channel_onmessage (text "CLEAR_BOARD") receiver
       = (Normal tt, (setStrokes (fun _ => []) receiver).1.2, [])
  /\ (let '(r, flashed, out) := channel_onmessage (text "PING") receiver in
      r = Normal tt
      /\ out = (if navigator_vibrate then [Vibrate [200; 100; 200]] else [])
               ++ [SetTimeout TFlashOff 500]
      /\ flash (ui flashed) = true
      /\ strokes (ui flashed) = strokes (ui receiver)
      /\ timers (browser flashed) = timers (browser receiver) ++ [TFlashOff]
      /\ flash (ui (fire_timer TFlashOff flashed).1.2) = false)
  /\ channel_onmessage (text "HEARTBEAT") receiver = (Normal tt, receiver, []).
Proof.
  intros object text Hopen Hc Hp Hh. subst object text. cbv beta in *.
  split; [| split; [| split]].
  - unfold clearBoard, triggerPing, heartbeat, sendSync, when, mbind, M_bind, bind.
    cbn [setStrokes modify emit get_state fst snd].
    change (channel_open (with_ui _ sender)) with (channel_open sender).
    rewrite Hopen. split; [done |].
    split; [destruct navigator_vibrate; cbn; by rewrite Hopen | by intros ->].
  - unfold channel_onmessage, try_catch, parse, mbind, M_bind, bind.
    rewrite Hc. reflexivity.
  - unfold channel_onmessage, try_catch, parse, mbind, M_bind, bind.
    rewrite Hp.
    cbn [unwrap ret member obj_get is_str truthy andb String.eqb Ascii.eqb Bool.eqb
         fst snd].
    unfold handleIncomingPing, setTimeout, when, mbind, M_bind, bind.
    destruct navigator_vibrate.
    all: cbn [setFlash modify emit ret fst snd app with_ui with_browser with_timers ui
              browser flash strokes timers].
    all: repeat split.
    all: unfold fire_timer, mbind, M_bind, bind; cbn [get_state browser timers].
    all: rewrite decide_True by (apply elem_of_app; right; by left).
    all: reflexivity.
  - unfold channel_onmessage, try_catch, parse, mbind, M_bind, bind.
    rewrite Hh. reflexivity.
Qed.

End PeerMessages.

Section PeerMessagesRun.
#[local] Existing Instance Demo.platform.

(** A page in the game view whose data channel 1 is open. *)
Lemma stroke_reaches_the_peer_witness :
  let sender := (run [EvStartCloudHost 1700000000000 (1 # 2);
                      EvChannelReadyState 1 rs_open] (init_page ∅)).1 in
  let pts := [MkPoint (Fin (1 # 4)) (Fin (1 # 2)); MkPoint (Fin (1 # 2)) (Fin (1 # 2))] in
  channel_open (page_app sender) = Some 1%nat
  /\ strokes (ui (channel_onmessage
         (JSON_stringify (JObj [("type", JStr "SYNC_STROKE");
            ("stroke", stroke_obj (MkStroke "1700000001000" pts "#3b82f6" false))]))
         (init_state ∅)).1.2)
     = [stroke_obj (MkStroke "1700000001000" pts "#22c55e" true)].
Proof.
  intros sender pts. split; [reflexivity |].
  pose proof (stroke_reaches_the_peer pts 1700000001000 (page_app sender) (init_state ∅) 1
                eq_refl eq_refl) as [_ H].
  change (Z_toString 1700000001000) with "1700000001000" in H.
  rewrite H. reflexivity.
Defined.

Lemma control_messages_reach_the_peer_witness :
  let sender := (run [EvStartCloudHost 1700000000000 (1 # 2);
                      EvChannelReadyState 1 rs_open] (init_page ∅)).1 in
  channel_open (page_app sender) = Some 1%nat
  /\ (triggerPing (page_app sender)).2 =
       [Vibrate [50]; DcSend 1 (JSON_stringify (JObj [("type", JStr "PING")]))]
  /\ channel_onmessage (JSON_stringify (JObj [("type", JStr "HEARTBEAT")])) (init_state ∅)
     = (Normal tt, init_state ∅, []).
Proof.
  intros sender. split; [reflexivity |].
  pose proof (control_messages_reach_the_peer (page_app sender) (init_state ∅) 1
                eq_refl eq_refl eq_refl eq_refl) as [[_ [Hping _]] [_ [_ Hbeat]]].
  split; [exact Hping | exact Hbeat].
Defined.

End PeerMessagesRun.

(** ** Where messages are sent *)

Section OpenChannel.
Context {P : Platform}.

Lemma handle_silent e :
  sending_event e = false ->
  sat any_state (fun x => is_send x = false) (handle e).
Proof. destruct e; try discriminate; intros _; sat_walk; done. Qed.

Lemma sendSync_target type payload st :
  Forall (sent_on (channel_open st)) (sendSync type payload st).2.
Proof.
  unfold sendSync, mbind, M_bind, bind. cbn [get_state fst snd].
  destruct (channel_open st) eqn:Hopen; cbn; by repeat constructor.
Qed.

(** Every send of a step goes to the channel that [dataChannelRef]
    names and that is open when the step begins: nothing is ever sent
    on a channel that is connecting, closing or closed, nor on a channel
    the page no longer refers to. *)
Theorem sends_go_to_the_open_channel (e : Event) (pg : Page) :
  Forall (sent_on (channel_open (page_app pg))) (step e pg).2.
Proof.
  destruct (step_via e pg) as (extra & -> & Hextra & _).
  apply Forall_app; split; [| eapply Forall_impl; [exact Hextra | by intros ? ->]].
  destruct (sending_event e) eqn:He.
  - destruct e; try discriminate; unfold dispatch; cbn [fst snd handle].
    + unfold heartbeat, mbind, M_bind, bind. cbn [get_state fst snd].
      destruct (view _); try by constructor.
      destruct (channel_open (page_app pg)); cbn; by repeat constructor.
    + unfold triggerPing, when, mbind, M_bind, bind.
      pose proof (sendSync_target "PING" [] (page_app pg)) as H.
      destruct navigator_vibrate; cbn [emit ret fst snd].
      all: destruct (sendSync "PING" [] (page_app pg)) as [[r st] out].
      all: cbn [fst snd app] in *.
      * by constructor.
      * exact H.
    + unfold clearBoard, mbind, M_bind, bind. cbn [setStrokes modify fst snd].
      pose proof (sendSync_target "CLEAR_BOARD" []
                    (with_ui (fun u => MkUi (view u) (status u) (errorMsg u) (shortCode u)
                       (inputCode u) (localOffer u) (remoteAnswer u) (flash u) []
                       (isReconnecting u)) (page_app pg))) as H.
      destruct (sendSync "CLEAR_BOARD" [] _) as [[r st] out].
      cbn [fst snd] in *. exact H.
    + destruct (view _); try by constructor.
      destruct (DrawingBoard.handle g (board pg)) as [[[pts|]|] b]; cbn [fst snd];
        try by constructor.
      rewrite handleStrokeComplete_eq.
      destruct (channel_open (page_app pg)); by repeat constructor.
  - assert ((dispatch e pg).1.1 = handle e) as -> by (by destruct e).
    destruct (handle_silent e He (page_app pg)) as [_ H].
    eapply Forall_impl; [exact H |]. by intros [].
Qed.

End OpenChannel.

(** ** Relay clients *)

Section RelayClients.
Context {P : Platform}.

#[local] Instance keeps_one_live_client_preorder : PreOrder keeps_one_live_client.
Proof. split; [intros st H; exact H | intros a b c H1 H2 H; by apply H2, H1]. Qed.

Lemma ended_keeps (c : nat) (st : AppState) :
  keeps_one_live_client st
    (with_browser (with_clients
       (alter (fun x => MkClient (cl_role x) (cl_code x) (cl_pc x) (cl_isReconnecting x) true) c))
       st).
Proof.
  intros H i x Hi Hx. cbn in Hi.
  destruct (decide (i = c)) as [-> | Hne].
  - rewrite lookup_alter_eq in Hi. destruct (clients (browser st) !! c); simplify_eq/=.
  - rewrite lookup_alter_ne in Hi by done. by apply (H i x).
Qed.

(** Replacing the relay client: the old one is ended before the new
    one is made current. *)
Lemma replace_client_keeps (r : Role) (room : string) (pc : nat) (rec : bool) :
  sat keeps_one_live_client (fun _ => True)
    (st ← get_state;
     match mqttClientRef (refs st) with
     | Some old => mqtt_end old
     | None => ret tt
     end;;
     client ← mqtt_connect r room pc rec;
     set_mqttClientRef (Some client)).
Proof.
  intros st. split; [| apply Forall_forall; done].
  unfold mqtt_connect, mqtt_end, alloc, set_mqttClientRef, mbind, M_bind, bind.
  cbn [get_state fst snd].
  destruct (mqttClientRef (refs st)) as [old|] eqn:Hold;
    cbn; intros H i x Hi Hx; cbn in Hi.
  - destruct (decide (i = next_id (browser st))) as [-> | Hne]; [done |].
    rewrite lookup_insert_ne in Hi by done.
    destruct (decide (i = old)) as [-> | Hne'].
    + rewrite lookup_alter_eq in Hi.
      destruct (clients (browser st) !! old); simplify_eq/=.
    + rewrite lookup_alter_ne in Hi by done.
      specialize (H i x Hi Hx). congruence.
  - destruct (decide (i = next_id (browser st))) as [-> | Hne]; [done |].
    rewrite lookup_insert_ne in Hi by done.
    specialize (H i x Hi Hx). congruence.
Qed.

Ltac client_side :=
  first
    [ exact I
    | apply ended_keeps
    | intros H; exact H
    | intros _ i c Hi; cbn in Hi; by rewrite lookup_empty in Hi ].

Ltac client_walk :=
  repeat first
    [ apply replace_client_keeps
    | match goal with
      | |- PreOrder _ => apply _
      | |- forall _, sat _ _ _ => intros ?
      | |- sat _ _ (match ?x with _ => _ end) => destruct x
      | |- sat _ _ (let _ := _ in _) => cbv zeta
      | |- sat _ _ alloc => intros ?; simpl; split; [| constructor]
      end
    | apply sat_ret | apply sat_throw | apply sat_get | apply sat_unwrap
    | apply sat_bind
    | apply sat_try
    | apply sat_when
    | apply sat_emit
    | apply sat_modify; intros ?
    | progress autounfold with handlers ].

Lemma handle_keeps_one_live_client e :
  sat keeps_one_live_client (fun _ => True) (handle e).
Proof. destruct e; client_walk; client_side. Qed.

Lemma step_keeps_one_live_client e pg :
  one_live_client (page_app pg) -> one_live_client (page_app (step e pg).1).
Proof.
  eapply (sat_step_all keeps_one_live_client (fun _ => True)).
  - exact I.
  - apply handle_keeps_one_live_client.
  - intros pts now. client_walk; client_side.
  - client_walk; client_side.
Qed.

(** The page never holds two live relay clients.  In every page
    reached from a page that has the property (a freshly loaded page has
    it), every relay client that was not ended is the one
    [mqttClientRef] holds: each connect ends the client it replaces, and
    a reload drops them all. *)
Theorem at_most_one_live_relay_client (evs : list Event) (pg : Page) :
  one_live_client (page_app pg) ->
  one_live_client (page_app (run evs pg).1).
Proof.
  revert pg. induction evs as [|e evs IH]; intros pg Hpg; [exact Hpg |].
  cbn [run]. pose proof (step_keeps_one_live_client e pg Hpg) as Hstep.
  destruct (step e pg) as [pg1 out]. specialize (IH pg1 Hstep).
  destruct (run evs pg1) as [pg2 log]. exact IH.
Qed.

End RelayClients.

Section RelayClientsRun.
#[local] Existing Instance Demo.platform.

(** An instance: a host that connected, lost the link and reconnected
    has made two relay clients, 2 and 5; client 2 is ended. *)
Lemma at_most_one_live_relay_client_witness :
  let pg := (run reconnect_before (init_page ∅)).1 in
  one_live_client (init_state ∅)
  /\ one_live_client (page_app pg)
  /\ cl_ended <$> clients (browser (page_app pg)) !! 2%nat = Some true
  /\ mqttClientRef (refs (page_app pg)) = Some 5%nat.
Proof.
  assert (one_live_client (init_state ∅)) as Hinit.
  { intros i c Hi. cbn in Hi. by rewrite lookup_empty in Hi. }
  split; [exact Hinit |].
  split; [exact (at_most_one_live_relay_client reconnect_before (init_page ∅) Hinit) |].
  split; vm_compute; reflexivity.
Defined.

End RelayClientsRun.

(** ** The strokes list over time *)

Section StrokesList.
Context {P : Platform}.
#[local] Existing Instance same_strokes_preorder.

Lemma handle_same_strokes e :
  strokes_event e = false -> sat same_strokes (fun _ => True) (handle e).
Proof. destruct e; try discriminate; intros _; sat_walk; done. Qed.

Lemma saveManualState_same_strokes : sat same_strokes (fun _ => True) saveManualState.
Proof. sat_walk; done. Qed.

Lemma step_strokes e pg :
  strokes (ui (page_app (step e pg).1))
  = strokes (ui ((dispatch e pg).1.1 (page_app pg)).1.2).
Proof.
  unfold step. destruct (dispatch e pg) as [[m b] thrown]; cbn [fst snd].
  unfold app_step. destruct (m (page_app pg)) as [[r st1] out]; cbn [fst snd].
  destruct (manual_deps_changed _ _); [| done].
  destruct (saveManualState_same_strokes st1) as [Hs _].
  destruct (saveManualState st1) as [[r2 st2] out2]. exact Hs.
Qed.

(** One step changes the strokes list in one of three ways only: not
    at all, by emptying it, or by appending one stroke at its end.  No
    stroke is ever removed singly, replaced or reordered. *)
Theorem strokes_grow_or_are_emptied (e : Event) (pg : Page) :
  stroke_change (strokes (ui (page_app pg))) (strokes (ui (page_app (step e pg).1))).
Proof.
  rewrite step_strokes. unfold stroke_change.
  destruct (strokes_event e) eqn:He.
  - destruct e as [ | | | | | | | | | | | | | | | | confirmed | g now | | | | | | |
                   | ch data ];
      try discriminate; unfold dispatch; cbn [fst snd handle].
    + right; left. reflexivity.
    + right; left. unfold clearBoard, sendSync, mbind, M_bind, bind.
      cbn [setStrokes modify get_state fst snd].
      by destruct (channel_open _).
    + destruct confirmed; [right; left; reflexivity | by left].
    + destruct (view _); try by left.
      destruct (DrawingBoard.handle g (board pg)) as [[[pts|]|] b]; cbn [fst snd];
        try by left.
      right; right. eexists. unfold handleStrokeComplete, sendSync, mbind, M_bind, bind.
      cbn [setStrokes modify get_state fst snd].
      by destruct (channel_open _).
    + unfold mbind, M_bind, bind. cbn [get_state fst snd].
      destruct (channels _ !! ch); [| by left].
      destruct (channel_onmessage_strokes data (page_app pg)) as [H | [H | (f & H & _)]];
        destruct (channel_onmessage data (page_app pg)) as [[? ?] ?];
        cbn [fst snd] in *; [by left | by right; left | right; right; by eexists].
  - assert ((dispatch e pg).1.1 = handle e) as -> by (by destruct e).
    left. by destruct (handle_same_strokes e He (page_app pg)).
Qed.

End StrokesList.

(** ** Coming back to the page *)

Section Visibility.
Context {P : Platform}.

Lemma not_connected_test (st : AppState) :
  not_connected st ->
  match pcRef (refs st) with
  | Some pc => match connectionState (the_pc pc st) with connected => true | _ => false end
  | None => false
  end = false.
Proof.
  intros H. destruct (pcRef (refs st)) as [pc|] eqn:Hpc; [| done].
  specialize (H pc Hpc). by destruct (connectionState (the_pc pc st)).
Qed.

(** Coming back while disconnected reconnects to the stored room.  In
    the game view, with the peer connection not connected and a cloud
    session in storage, the visibility listener marks the page as
    reconnecting and makes the same connect call as the start of a game
    did, for the stored room in the stored role; the age of the record
    is not looked at.  The strokes drawn so far are kept.  A joiner
    stays in the game view; a host is sent back to the lobby view. *)
Theorem visible_again_reconnects
    (captured : bool) (r : Role) (room : string) (t : Z) (st : AppState) :
  view (ui st) = GAME ->
  not_connected st ->
  json_round_trip (session_obj (MkSession CLOUD r room t)) ->
  localStorage (browser st) !! "chkobba_session"
    = Some (JSON_stringify (session_obj (MkSession CLOUD r room t))) ->
  let marked := (setIsReconnecting true st).1.2 in
  handleVisibilityChange captured st =
    match r with
    | HOST => connectCloudHost captured room marked
    | JOINER => connectCloudJoiner GAME captured room marked
    end
  /\ let '(_, st', out) := handleVisibilityChange captured st in
     strokes (ui st') = strokes (ui st)
     /\ view (ui st') = match r with HOST => HOST_LOBBY | JOINER => GAME end
     /\ (exists client pc,
           mqttClientRef (refs st') = Some client
           /\ pcRef (refs st') = Some pc
           /\ clients (browser st') !! client = Some (MkClient r room pc captured false)
           /\ last out = Some (MqttConnect client)).
Proof.
  intros Hv Hnc [Hne Hrt] Hs marked.
  assert (handleVisibilityChange captured st =
    match r with
    | HOST => connectCloudHost captured room marked
    | JOINER => connectCloudJoiner GAME captured room marked
    end) as Heq.
  { unfold handleVisibilityChange, getItem, parse, mbind, M_bind, bind.
    cbn [get_state ret fst snd]. rewrite Hv, (not_connected_test st Hnc), Hs.
    unfold present.
    destruct (String.eqb_spec (JSON_stringify (session_obj (MkSession CLOUD r room t))) "");
      [done |].
    rewrite Hrt.
    cbn [unwrap ret session_obj member obj_get String.eqb Ascii.eqb Bool.eqb
         mode role code timestamp fst snd is_str Mode_str when js_ToString].
    subst marked.
    destruct r; cbn [Role_str String.eqb Ascii.eqb Bool.eqb setIsReconnecting modify fst snd].
    - match goal with
      | |- context [connectCloudHost ?a ?b ?c] =>
          destruct (connectCloudHost a b c) as [[? ?] ?]
      end. reflexivity.
    - match goal with
      | |- context [connectCloudJoiner ?v ?a ?b ?c] =>
          destruct (connectCloudJoiner v a b c) as [[? ?] ?]
      end. reflexivity. }
  split; [exact Heq |]. rewrite Heq. subst marked.
  destruct r; unfold connectCloudHost, connectCloudJoiner, initPC, rtc_createDataChannel,
      mqtt_connect, mqtt_end, alloc, mbind, M_bind, bind;
    cbn [setIsReconnecting setView setStatus set_pcRef set_dataChannelRef set_mqttClientRef
         setupDataChannel update_pc modify emit ret get_state fst snd];
    cbn;
    destruct (pcRef (refs st)); cbn;
    destruct (mqttClientRef (refs st));
    cbn; (split; [done |]); (split; [done |]);
    eexists _, _; (split; [done |]); (split; [done |]);
    (split; [by rewrite lookup_insert_eq | done]).
Qed.

(** When coming back does nothing, and when it fails.  Outside the
    game view, or with the peer connection connected, or with no session
    record (or an empty one) in storage, the visibility listener changes
    nothing and does nothing; so it does with a stored manual session.
    A stored record that is not JSON makes the listener throw: unlike
    the restore effect it has no try/catch, and the record stays in
    storage. *)
Theorem visible_again_idle (captured : bool) (st : AppState) :
  (view (ui st) ≠ GAME -> handleVisibilityChange captured st = (Normal tt, st, []))
  /\ ((exists pc, pcRef (refs st) = Some pc /\ connectionState (the_pc pc st) = connected) ->
      handleVisibilityChange captured st = (Normal tt, st, []))
  /\ (view (ui st) = GAME -> not_connected st ->
      (present (localStorage (browser st) !! "chkobba_session") = None ->
       handleVisibilityChange captured st = (Normal tt, st, []))
      /\ (forall saved,
            present (localStorage (browser st) !! "chkobba_session") = Some saved ->
            (JSON_parse saved = None ->
             handleVisibilityChange captured st = (Thrown, st, []))
            /\ (forall r room t,
                  JSON_parse saved = Some (session_obj (MkSession MANUAL r room t)) ->
                  handleVisibilityChange captured st = (Normal tt, st, [])))).
Proof.
  unfold handleVisibilityChange, getItem, parse, mbind, M_bind, bind.
  cbn [get_state ret fst snd].
  split; [| split].
  - intros Hv. by destruct (view (ui st)).
  - intros (pc & -> & ->). by destruct (view (ui st)).
  - intros -> Hnc. rewrite (not_connected_test st Hnc).
    split; [by intros -> |].
    intros saved ->. split; [by intros -> |].
    intros r room t ->. by destruct r.
Qed.

End Visibility.

Section VisibilityRun.
#[local] Existing Instance Demo.platform.

(** An instance: the host of room 5500, in the game with its link lost. *)
Lemma visible_again_reconnects_witness :
  let st := page_app (run (take 12 reconnect_before) (init_page ∅)).1 in
  view (ui st) = GAME
  /\ length (strokes (ui st)) = 2%nat
  /\ length (strokes (ui (handleVisibilityChange false st).1.2)) = 2%nat
  /\ view (ui (handleVisibilityChange false st).1.2) = HOST_LOBBY.
Proof.
  intros st.
  assert (view (ui st) = GAME) as Hv by reflexivity.
  assert (not_connected st) as Hnc.
  { intros pc Hpc. vm_compute in Hpc. injection Hpc as <-. vm_compute. discriminate. }
  assert (json_round_trip (session_obj (MkSession CLOUD HOST "5500" 1700000000000))) as Hrt.
  { split; [intros H; vm_compute in H; discriminate | vm_compute; reflexivity]. }
  pose proof (visible_again_reconnects false HOST "5500" 1700000000000 st Hv Hnc Hrt eq_refl)
    as [_ H].
  destruct (handleVisibilityChange false st) as [[r st'] out].
  destruct H as (Hs & Hv' & _). cbn [fst snd].
  split; [exact Hv |]. split; [reflexivity |]. split; [by rewrite Hs | exact Hv'].
Defined.

End VisibilityRun.

(** ** Coordinates on the canvas *)

Section CanvasCoordinates.
Import DrawingBoard.

(** A position on the canvas is normalised.  For a canvas whose width
    and height are positive doubles, the point captured from a mouse
    position, or from the first touch, that lies on the canvas
    rectangle has both coordinates finite and between 0 and 1, with the
    rounding of the subtraction and of the division taken into account. *)
Theorem position_on_canvas_is_normalised (rect : Rect) (e : NativeEvent) (x y : Q) :
  (0 < rect_width rect)%Q -> (0 < rect_height rect)%Q ->
  is_double (rect_width rect) -> is_double (rect_height rect) ->
  position e = Some (x, y) ->
  inside rect x y ->
  exists qx qy,
    getCoords (Some rect) e = Normal (Some (MkPoint (Fin qx) (Fin qy)))
    /\ (0 <= qx <= 1)%Q /\ (0 <= qy <= 1)%Q.
Proof.
  intros Hw Hh Hdw Hdh He (Hx0 & Hx1 & Hy0 & Hy1).
  destruct (getCoords_inside_canvas rect x y Hw Hh Hdw Hdh Hx0 Hx1 Hy0 Hy1)
    as (qx & qy & Hc & ? & ? & ? & ?).
  exists qx, qy. split; [| done].
  destruct e as [mx my | [| [tx ty] rest]]; cbn [position] in He; simplify_eq; exact Hc.
Qed.

(** Where no point, or no usable point, comes out.  Without a canvas
    element nothing is captured.  A touch event with an empty touches
    list makes [getCoords] throw.  On a canvas of width zero the [x]
    coordinate is never a finite number: it is NaN at the left border
    and an infinity elsewhere. *)
Theorem getCoords_edge_cases (rect : Rect) (e : NativeEvent) :
  getCoords None e = Normal None
  /\ getCoords (Some rect) (TouchEvent []) = Thrown
  /\ ((rect_width rect == 0)%Q ->
      forall p, getCoords (Some rect) e = Normal (Some p) -> finite (px p) = false).
Proof.
  split; [reflexivity |]. split; [reflexivity |].
  intros Hz p Hp.
  assert (forall d, finite (js_div d (rect_width rect)) = false) as Hdiv.
  { intros d. unfold js_div.
    rewrite (proj2 (Qeq_bool_iff (rect_width rect) 0) Hz).
    destruct (Qeq_bool d 0); [done |]. by destruct (Qlt_bool 0 d). }
  destruct e as [mx my | [| [tx ty] rest]]; cbn [getCoords] in Hp; simplify_eq;
    apply Hdiv.
Qed.

End CanvasCoordinates.

Section CanvasCoordinatesRun.
Import DrawingBoard.

(** An instance: a touch in the middle of a 400 by 600 canvas. *)
Lemma position_on_canvas_is_normalised_witness :
  exists qx qy,
    getCoords (Some (MkRect 0 56 400 600)) (TouchEvent [(200, 356)%Q])
      = Normal (Some (MkPoint (Fin qx) (Fin qy)))
    /\ (0 <= qx <= 1)%Q /\ (0 <= qy <= 1)%Q.
Proof.
  apply (position_on_canvas_is_normalised (MkRect 0 56 400 600)
           (TouchEvent [(200, 356)%Q]) 200 356).
  - reflexivity.
  - reflexivity.
  - vm_compute. reflexivity.
  - vm_compute. reflexivity.
  - reflexivity.
  - repeat split; cbn; by compute.
Defined.

End CanvasCoordinatesRun.

(** * The deck *)

Section SafeIntegers.
Import Double.
#[local] Open Scope Q_scope.

Lemma nearest_even_of_integer (x : Q) (m : Z) : x == inject_Z m -> nearest_even x = m.
Proof.
  intros Hx. unfold nearest_even.
  assert (Qfloor x = m) as Hf by (rewrite Hx; apply Qfloor_Z).
  rewrite Hf.
  assert (x - inject_Z m == 0) as Hr by (rewrite Hx; ring).
  destruct (Qle_bool (x - inject_Z m) (1 # 2)) eqn:A.
  - destruct (Qle_bool (1 # 2) (x - inject_Z m)) eqn:B; [| done].
    apply Qle_bool_iff in B. rewrite Hr in B. by compute in B.
  - assert (x - inject_Z m <= 1 # 2) as H by (rewrite Hr; by compute).
    apply Qle_bool_iff in H. congruence.
Qed.

(** A positive integer of at most 2^53 is a double. *)
Lemma round_positive_integer (z : Z) :
  (0 < z <= 2 ^ 53)%Z -> round (inject_Z z) == inject_Z z.
Proof.
  intros [Hpos Htop].
  destruct (Z.eq_dec z (2 ^ 53)%Z) as [-> | Hne]; [by vm_compute |].
  assert (0 < inject_Z z) as Hq.
  { change 0 with (inject_Z 0). by rewrite <- Zlt_Qlt. }
  destruct (Z.log2_spec z Hpos) as [L1 L2].
  set (e := Z.log2 z) in *.
  assert (0 <= e)%Z as He0 by apply Z.log2_nonneg.
  assert (e <= 52)%Z as He.
  { assert (2 ^ e < 2 ^ 53)%Z as H by lia.
    apply Z.pow_lt_mono_r_iff in H; lia. }
  assert (log2_floor (inject_Z z) = e) as Hl.
  { apply log2_floor_unique.
    - rewrite <- pow2_Z by done. by rewrite <- Zle_Qle.
    - rewrite <- pow2_Z by lia. by rewrite <- Zlt_Qlt. }
  rewrite round_positive by done.
  unfold ulp. rewrite Hl, Z.max_l by lia.
  pose proof (pow2_pos (e - 52)) as Hu.
  assert (2 ^ (e - 52) * 2 ^ (52 - e) == 1) as Hinv.
  { rewrite <- Qpower_plus by discriminate.
    by replace (e - 52 + (52 - e))%Z with 0%Z by lia. }
  assert (inject_Z (z * 2 ^ (52 - e)) == inject_Z z * 2 ^ (52 - e)) as Hm.
  { rewrite inject_Z_mult, pow2_Z by lia. reflexivity. }
  set (a := inject_Z z) in *. set (U := 2 ^ (e - 52)) in *. set (V := 2 ^ (52 - e)) in *.
  assert (a * V * U == a) as Ha.
  { transitivity (a * (U * V)); [ring | rewrite Hinv; ring]. }
  assert (a / U == inject_Z (z * 2 ^ (52 - e))%Z) as Hx.
  { rewrite Hm. transitivity (a * V * U / U).
    - unfold Qdiv. by rewrite Ha.
    - apply Qdiv_mult_l. lra. }
  rewrite (nearest_even_of_integer _ _ Hx), Hm. exact Ha.
Qed.

(** Every integer of at most 2^53 in absolute value is a double. *)
Lemma safe_integer_is_double (z : Z) :
  (Z.abs z <= 2 ^ 53)%Z -> is_double (inject_Z z).
Proof.
  intros Hz. unfold is_double.
  destruct (Z.lt_trichotomy z 0) as [Hneg | [-> | Hpos]].
  - assert (0 < - z <= 2 ^ 53)%Z as Hopp by lia.
    pose proof (round_positive_integer (- z) Hopp) as H.
    assert (0 < inject_Z (- z)) as Hq.
    { change 0 with (inject_Z 0). rewrite <- Zlt_Qlt. lia. }
    rewrite round_positive in H by done.
    rewrite inject_Z_opp in H, Hq.
    unfold round.
    assert (Qle_bool (inject_Z z) 0 = true) as -> by (apply Qle_bool_iff; lra).
    destruct (Qle_bool 0 (inject_Z z)) eqn:B.
    { apply Qle_bool_iff in B. lra. }
    rewrite H. ring.
  - by vm_compute.
  - apply round_positive_integer. lia.
Qed.

End SafeIntegers.

Section DeckFacts.
Import Deck.

Lemma Z_toString_parses (z : Z) :
  NilZero.int_of_string (Z_toString z) = Some (Z.to_int z).
Proof.
  unfold Z_toString. apply NilZero.isi.
  - destruct z as [|p|p]; [discriminate | | discriminate].
    intros [= H]. by apply (Unsigned.to_uint_nonnil p).
  - destruct z as [|p|p]; [discriminate | discriminate |].
    intros [= H]. by apply (Unsigned.to_uint_nonnil p).
Qed.

Lemma Z_toString_inj (a b : Z) : Z_toString a = Z_toString b -> a = b.
Proof.
  intros H. apply DecimalZ.to_int_inj.
  pose proof (Z_toString_parses a) as Ha. rewrite H, Z_toString_parses in Ha.
  congruence.
Qed.

(** A decimal numeral is none of the four letters. *)
Lemma Z_toString_not_letter (z : Z) (s : string) :
  NilZero.int_of_string s = None -> Z_toString z ≠ s.
Proof. intros Hs <-. by rewrite Z_toString_parses in Hs. Qed.

(** The labels of the ranks.  The ranks 1, 8, 9 and 10 are shown as
    the letters A, J, Q and K, and every other integer rank as its
    decimal numeral; so distinct ranks have distinct labels.  The ranks
    are integers of at most 2^53 in absolute value: each of them is a
    double, so a number the function can be given, and in that range
    [toString] prints all the digits of the number. *)
Theorem rank_labels_are_distinct (a b : Z) :
  Z.abs a <= 2 ^ 53 -> Z.abs b <= 2 ^ 53 ->
  (is_double (inject_Z a) /\ is_double (inject_Z b))
  /\ (getRankLabel 1 = "A" /\ getRankLabel 8 = "J"
   /\ getRankLabel 9 = "Q" /\ getRankLabel 10 = "K")
  /\ (a ≠ 1 -> a ≠ 8 -> a ≠ 9 -> a ≠ 10 ->
      getRankLabel a = NilZero.string_of_int (Z.to_int a))
  /\ (a ≠ b -> getRankLabel a ≠ getRankLabel b).
Proof.
  intros Ha Hb. split; [by split; apply safe_integer_is_double |].
  split; [done |]. split.
  - intros H1 H8 H9 H10. unfold getRankLabel.
    repeat match goal with
    | |- context [?x =? ?y] => destruct (Z.eqb_spec x y); [done |]
    end.
    reflexivity.
  - intros Hne. unfold getRankLabel.
    repeat match goal with
    | |- context [?x =? ?y] => destruct (Z.eqb_spec x y); subst
    end; try done; intros H;
    try (by apply Z_toString_inj in H);
    first [ by apply Z_toString_not_letter in H
          | symmetry in H; by apply Z_toString_not_letter in H ].
Qed.

(** An instance: the ace and a rank of eleven. *)
Lemma rank_labels_are_distinct_witness :
  getRankLabel 1 = "A" /\ getRankLabel 11 = "11" /\ getRankLabel 1 ≠ getRankLabel 11.
Proof.
  destruct (rank_labels_are_distinct 1 11) as (_ & _ & _ & Hne); [by compute | by compute |].
  split; [reflexivity |]. split; [reflexivity |]. by apply Hne.
Defined.

(** The deck is the forty cards of four suits and ten ranks: suit by
    suit in the order of [SUITS], rank by rank within a suit; each
    card's identifier is its suit, a dash and its rank, and its label is
    its rank's label; no two cards share an identifier, and every suit
    and rank from 1 to 10 has exactly one card. *)
Theorem deck_is_four_suits_of_ten :
  length generateDeck = 40%nat
  /\ map suit generateDeck = flat_map (fun s => replicate 10 s) SUITS
  /\ map rank generateDeck = concat (replicate 4 RANKS)
  /\ Forall (fun c => id c = Suit_str (suit c) +:+ "-" +:+ Z_toString (rank c)
                      /\ label c = getRankLabel (rank c)) generateDeck
  /\ NoDup (map id generateDeck)
  /\ (forall s r, 1 <= r <= 10 ->
        exists c, filter (fun c => suit c = s /\ rank c = r) generateDeck = [c]).
Proof.
  split; [reflexivity |]. split; [reflexivity |]. split; [reflexivity |].
  split; [repeat constructor |].
  split.
  - apply (bool_decide_eq_true_1 (NoDup (map id generateDeck))). vm_compute. reflexivity.
  - intros s r Hr.
    assert (r = 1 \/ r = 2 \/ r = 3 \/ r = 4 \/ r = 5 \/ r = 6 \/ r = 7 \/ r = 8 \/ r = 9 \/ r = 10)
      as Hcases by lia.
    destruct s; destruct Hcases as [-> | [-> | [-> | [-> | [-> | [-> | [-> | [-> | [-> | ->]]]]]]]]];
      eexists; vm_compute; reflexivity.
Qed.

End DeckFacts.

(** * Drawing on the canvas *)

Section RoundingError.
Import Double.
#[local] Open Scope Q_scope.

Lemma nearest_even_close x :
  inject_Z (nearest_even x) - x <= 1 # 2 /\ x - inject_Z (nearest_even x) <= 1 # 2.
Proof.
  pose proof (Qfloor_le x) as Hlo. pose proof (Qlt_floor x) as Hhi.
  unfold nearest_even.
  assert (inject_Z (Qfloor x + 1) == inject_Z (Qfloor x) + 1) as Hs
    by (rewrite inject_Z_plus; reflexivity).
  rewrite Hs in Hhi.
  destruct (Qle_bool (x - inject_Z (Qfloor x)) (1 # 2)) eqn:A.
  - apply Qle_bool_iff in A.
    destruct (Qle_bool (1 # 2) (x - inject_Z (Qfloor x))) eqn:B.
    + apply Qle_bool_iff in B. destruct (Z.even (Qfloor x)); rewrite ?Hs; lra.
    + lra.
  - assert (1 # 2 < x - inject_Z (Qfloor x)) as A'.
    { apply Qnot_le_lt. intros Hle. apply Qle_bool_iff in Hle. congruence. }
    rewrite Hs. lra.
Qed.

Lemma log2_floor_normal q : normal q -> (-1022 <= log2_floor q)%Z.
Proof.
  intros [Hq _].
  rewrite <- (log2_floor_unique (-1022) (2 ^ (-1022))).
  - apply log2_floor_mono; [apply pow2_pos | exact Hq].
  - apply Qle_refl.
  - apply pow2_lt. lia.
Qed.

(** One rounding of a normal number moves it by at most the unit
    roundoff, relatively. *)
Lemma round_relative q :
  normal q ->
  q * (1 - unit_roundoff) <= round q /\ round q <= q * (1 + unit_roundoff).
Proof.
  intros Hn. pose proof (log2_floor_normal q Hn) as He.
  assert (0 < q) as Hq.
  { eapply Qlt_le_trans; [apply (pow2_pos (-1022)) | exact (proj1 Hn)]. }
  rewrite round_positive by exact Hq.
  destruct (log2_floor_spec q Hq) as [Hlow _].
  pose proof (pow2_pos (log2_floor q)) as Hp.
  assert (ulp q == 2 ^ log2_floor q * (1 # 4503599627370496)) as HU.
  { unfold ulp. rewrite Z.max_l by lia.
    rewrite Qpower_minus by discriminate.
    assert (2 ^ 52 == 4503599627370496) as -> by reflexivity.
    field. }
  pose proof (ulp_pos q) as HUpos.
  destruct (nearest_even_close (q / ulp q)) as [C1 C2].
  set (U := ulp q) in *. set (n := inject_Z (nearest_even (q / U))) in *.
  assert (q / U * U == q) as Hx by (field; lra).
  set (x := q / U) in *.
  assert ((n - x) * U <= (1 # 2) * U) as D1 by (apply Qmult_le_compat_r; lra).
  assert ((x - n) * U <= (1 # 2) * U) as D2 by (apply Qmult_le_compat_r; lra).
  unfold unit_roundoff. split; nra.
Qed.

End RoundingError.

Section Rendering.
Import DrawingBoard Render.

Lemma drawStroke_short (s : Stroke) (w h : Z) :
  drawable s = false -> drawStroke s w h = [].
Proof.
  unfold drawable, drawStroke. intros H.
  destruct (Nat.ltb_spec (length (points s)) 2) as [_ | Hge]; [done |].
  apply Nat.leb_gt in H. lia.
Qed.

Lemma vertices_app (a b : list CanvasCall) : vertices (a ++ b) = vertices a ++ vertices b.
Proof. unfold vertices. apply omap_app. Qed.

Lemma vertices_lines (f g : Point -> JsNum) (pts : list Point) :
  vertices (map (fun p => LineTo (f p) (g p)) pts) = map (fun p => (f p, g p)) pts.
Proof.
  induction pts as [|p pts IH]; [done |].
  cbn [map]. rewrite <- IH. reflexivity.
Qed.

Lemma vertices_drawStroke (s : Stroke) (w h : Z) :
  drawable s = true ->
  vertices (drawStroke s w h)
  = map (fun p => (js_mul (px p) (inject_Z w), js_mul (py p) (inject_Z h))) (points s).
Proof.
  unfold drawable, drawStroke. intros H. apply Nat.leb_le in H.
  destruct (Nat.ltb_spec (length (points s)) 2) as [Hlt | _]; [lia |].
  destruct (points s) as [|first rest]; [done |].
  rewrite !vertices_app.
  rewrite (vertices_lines (fun p => js_mul (px p) (inject_Z w))
                          (fun p => js_mul (py p) (inject_Z h)) rest).
  change (vertices [StrokePath]) with (@nil (JsNum * JsNum)).
  rewrite app_nil_r. reflexivity.
Qed.

(** Strokes of fewer than two points are never drawn.  Rendering a
    strokes list gives the same canvas calls as rendering the list
    without its strokes of zero or one point, so a tap, which is stored
    and sent like any stroke, leaves no mark; and a path in progress
    shows only from its second point on.  Every stroke that is drawn is
    one path through all its points, in order. *)
Theorem short_strokes_are_not_drawn
    (mounted : option (Z * Z)) (has_ctx : bool) (strokes : list Stroke)
    (b : Board) (color : string) :
  renderCanvas mounted has_ctx strokes b color
    = renderCanvas mounted has_ctx (List.filter drawable strokes) b color
  /\ (length (currentPath b) < 2 ->
      renderCanvas mounted has_ctx strokes b color
      = renderCanvas mounted has_ctx strokes init_board color)%nat
  /\ (forall s w h, drawable s = true ->
        vertices (drawStroke s w h)
        = map (fun p => (js_mul (px p) (inject_Z w), js_mul (py p) (inject_Z h))) (points s)).
Proof.
  split; [| split].
  - unfold renderCanvas. destruct mounted as [[w h]|]; [| done].
    destruct has_ctx; [| done]. do 3 f_equal.
    induction strokes as [|s rest IH]; [done |].
    cbn [flat_map List.filter]. destruct (drawable s) eqn:Hs.
    + cbn [flat_map]. by rewrite IH.
    + by rewrite (drawStroke_short s w h Hs).
  - intros Hlen. unfold renderCanvas. destruct mounted as [[w h]|]; [| done].
    destruct has_ctx; [| done]. do 3 f_equal.
    cbn [init_board isDrawing currentPath andb].
    destruct (isDrawing b && _); [| done].
    apply drawStroke_short. unfold drawable. cbn [points]. apply Nat.leb_gt. lia.
  - apply vertices_drawStroke.
Qed.

End Rendering.

Section DrawnWhereCaptured.
Import DrawingBoard Render.
#[local] Open Scope Q_scope.

(** Dividing an offset by the canvas size and multiplying the quotient
    by the same size gives the offset back, up to two roundings. *)
Lemma scaled_back (d size W : Q) :
  0 < size -> size == W -> scalable d size ->
  close_to d (js_mul (js_div d size) W).
Proof.
  intros Hs HW Hd. unfold js_div.
  destruct (Qeq_bool size 0) eqn:Hz.
  { apply Qeq_bool_eq in Hz. lra. }
  cbn [js_mul close_to]. unfold unit_roundoff.
  destruct Hd as [Hd | (Hq & Hh & Hdbl)].
  - rewrite (round_zero (d / size)); [| rewrite Hd; field; lra].
    rewrite (round_zero (0 * W)); [| ring]. lra.
  - destruct (round_relative _ Hq) as [A1 A2].
    unfold normal in *. pose proof (pow2_pos (-1022)) as Hm.
    destruct Hq as [Hq Hq'], Hh as [Hh Hh'], Hdbl as [Hdbl Hdbl'].
    set (m := 2 ^ (-1022)) in *. set (top := overflow_threshold) in *.
    unfold unit_roundoff in *.
    assert (d / size * W == d) as Hx by (rewrite <- HW; field; lra).
    set (a := d / size) in *. set (a' := Double.round a) in *.
    assert (0 < W) as HWpos by lra.
    assert (d / 2 == d * (1 # 2)) as Hhalf by field.
    assert (a * (1 - (1 # 9007199254740992)) * W <= a' * W) as B1
      by (apply Qmult_le_compat_r; lra).
    assert (a' * W <= a * (1 + (1 # 9007199254740992)) * W) as B2
      by (apply Qmult_le_compat_r; lra).
    assert (a * (1 - (1 # 9007199254740992)) * W == d * (1 - (1 # 9007199254740992))) as E1
      by (rewrite <- Hx; ring).
    assert (a * (1 + (1 # 9007199254740992)) * W == d * (1 + (1 # 9007199254740992))) as E2
      by (rewrite <- Hx; ring).
    assert (m <= a' * W /\ a' * W < top) as Hb by (split; lra).
    destruct (round_relative (a' * W) Hb) as [C1 C2]. unfold unit_roundoff in *.
    set (b := a' * W) in *. set (v := Double.round b) in *.
    assert (d * (1 - (1 # 9007199254740992)) * (1 - (1 # 9007199254740992))
            <= b * (1 - (1 # 9007199254740992))) as F1
      by (apply Qmult_le_compat_r; lra).
    assert (b * (1 + (1 # 9007199254740992))
            <= d * (1 + (1 # 9007199254740992)) * (1 + (1 # 9007199254740992))) as F2
      by (apply Qmult_le_compat_r; lra).
    split; lra.
Qed.

Lemma captured_at_map (rect : Rect) (positions : list (Q * Q)) :
  captured_at rect positions
  = map (fun pos => MkPoint (js_div (offset rect pos).1 (rect_width rect))
                            (js_div (offset rect pos).2 (rect_height rect))) positions.
Proof.
  unfold captured_at. induction positions as [|pos rest IH]; [done |].
  cbn [flat_map map]. by rewrite IH.
Qed.

(** A stroke is drawn where it was captured.  Take a stroke captured
    from mouse positions on a canvas of positive size and drawn on the
    canvas at the same size in whole pixels.  If the stroke has at least
    two points, the path drawn goes through one vertex per captured
    position, in order, and each vertex coordinate is a finite number
    within three unit roundoffs (3 * 2^-53, relatively) of the
    position's offset from the canvas corner.  The offsets are zero, or
    have their quotient by the canvas size, their half and their double
    in the normal range of the doubles, from 2^-1022 to below the
    overflow threshold 2^1024 - 2^970: nothing underflows or overflows. *)
Theorem stroke_is_drawn_where_it_was_captured
    (rect : Rect) (w h : Z) (positions : list (Q * Q)) (i c : string) (r : bool) :
  0 < rect_width rect -> 0 < rect_height rect ->
  rect_width rect == inject_Z w -> rect_height rect == inject_Z h ->
  Forall (scalable_position rect) positions ->
  (2 <= length positions)%nat ->
  Forall2 (fun v pos => close_to (offset rect pos).1 v.1 /\ close_to (offset rect pos).2 v.2)
    (vertices (drawStroke (MkStroke i (captured_at rect positions) c r) w h))
    positions.
Proof.
  intros Hw Hh HW HH Hpos Hlen.
  rewrite vertices_drawStroke.
  2: { unfold drawable. cbn [points]. rewrite captured_at_map, length_map.
       by apply Nat.leb_le. }
  cbn [points]. rewrite captured_at_map, map_map. cbn [px py].
  clear Hlen. induction Hpos as [|pos rest [Hx Hy] _ IH]; [constructor |].
  cbn [map]. constructor; [| exact IH].
  split; cbn [fst snd]; by apply scaled_back.
Qed.

End DrawnWhereCaptured.

Section DrawnWhereCapturedRun.
Import DrawingBoard Render.

(** An instance: two positions on a 400 by 600 canvas below a header. *)
Lemma stroke_is_drawn_where_it_was_captured_witness :
  let rect := MkRect 0 56 400 600 in
  let positions := [(100, 356); (120, 360)]%Q in
  Forall (scalable_position rect) positions
  /\ Forall2 (fun v pos => close_to (offset rect pos).1 v.1 /\ close_to (offset rect pos).2 v.2)
       (vertices (drawStroke (MkStroke "1" (captured_at rect positions) "#3b82f6" false)
                             400 600))
       positions.
Proof.
  intros rect positions.
  assert (Forall (scalable_position rect) positions) as Hpos.
  { assert (forall x y, x = 100%Q \/ x = 120%Q -> y = 356%Q \/ y = 360%Q ->
              scalable_position rect (x, y)) as Hall.
    { intros x y [-> | ->] [-> | ->]; split; right; repeat split;
        first [ by vm_compute | vm_compute; discriminate ]. }
    apply Forall_cons_2; [apply Hall; by left |].
    apply Forall_cons_2; [apply Hall; by right |]. apply Forall_nil_2. }
  split; [exact Hpos |].
  apply (stroke_is_drawn_where_it_was_captured rect 400 600 positions "1" "#3b82f6" false);
    [reflexivity | reflexivity | reflexivity | reflexivity | exact Hpos | cbn; lia].
Defined.

End DrawnWhereCapturedRun.

(** * The service worker *)

Section WorkerFacts.
Import ServiceWorker.
Context {C : CacheApi}.

Lemma lookup_replace_eq name c cs :
  is_Some (lookup_cache name cs) -> lookup_cache name (replace_cache name c cs) = Some c.
Proof.
  induction cs as [|[k old] rest IH]; cbn [lookup_cache replace_cache].
  - by intros [? ?].
  - destruct (String.eqb k name) eqn:Hk; cbn [lookup_cache]; by rewrite Hk.
Qed.

Lemma lookup_replace_ne name other c cs :
  other ≠ name -> lookup_cache other (replace_cache name c cs) = lookup_cache other cs.
Proof.
  intros Hne. induction cs as [|[k old] rest IH]; cbn [lookup_cache replace_cache]; [done |].
  destruct (String.eqb_spec k name) as [-> | Hk]; cbn [lookup_cache].
  - by destruct (String.eqb_spec name other) as [<- | _].
  - by rewrite IH.
Qed.

Lemma lookup_app_ne name other c cs :
  other ≠ name -> lookup_cache other (cs ++ [(name, c)]) = lookup_cache other cs.
Proof.
  intros Hne. induction cs as [|[k old] rest IH]; cbn [lookup_cache app].
  - by destruct (String.eqb_spec name other) as [<- | _].
  - by rewrite IH.
Qed.

Lemma lookup_put_in_ne name other req r cs :
  other ≠ name -> lookup_cache other (put_in name req r cs) = lookup_cache other cs.
Proof.
  intros Hne. unfold put_in, caches_open.
  destruct (lookup_cache name cs).
  - by apply lookup_replace_ne.
  - rewrite lookup_replace_ne by done. by apply lookup_app_ne.
Qed.

Lemma lookup_put_in_eq name req r cs :
  lookup_cache name (put_in name req r cs)
  = Some (cache_put (default empty_cache (lookup_cache name cs)) req r).
Proof.
  unfold put_in, caches_open.
  destruct (lookup_cache name cs) as [c|] eqn:Hc; cbn [default].
  - apply lookup_replace_eq. by rewrite Hc.
  - apply lookup_replace_eq. clear Hc.
    induction cs as [|[k old] rest IH]; cbn [lookup_cache app].
    + by rewrite String.eqb_refl.
    + by destruct (String.eqb k name).
Qed.

(** What the fetch listener answers, and what it stores.  A request
    that is not a GET is not intercepted and nothing is stored.  A GET
    that some cache matches is answered with that match, whatever the
    network does, so the page loads offline; one that no cache matches
    is answered with the network's response, or with undefined when
    the network fails.  The listener writes into no cache but its own,
    and only a response of status 200 and type basic. *)
Theorem fetch_answers_from_cache_first
    (req : Request) (network : option Response) (cs : CacheStorage) :
  let '(answer, cs') := on_fetch req network cs in
  (method req ≠ "GET" -> answer = None /\ cs' = cs)
  /\ (method req = "GET" ->
      answer = Some (match caches_match req cs with Some r => Some r | None => network end))
  /\ (forall name, name ≠ CACHE_NAME -> lookup_cache name cs' = lookup_cache name cs)
  /\ (cs' ≠ cs ->
      exists r, network = Some r /\ status r = 200 /\ type r = basic
                /\ cs' = put_in CACHE_NAME req r cs).
Proof.
  unfold on_fetch.
  destruct (String.eqb_spec (method req) "GET") as [Hm | Hm]; cbn [negb].
  - split; [done |]. split; [done |].
    destruct network as [r|]; [| by split].
    destruct (Z.eqb_spec (status r) 200) as [Hs | Hs]; cbn [andb]; [| by split].
    destruct (type r) eqn:Ht; try by split.
    split; [intros name Hne; by apply lookup_put_in_ne |].
    intros _. by exists r.
  - by repeat split.
Qed.

(** Activation leaves the worker's own cache alone and deletes every
    other: afterwards no cache of another name exists, the cache named
    [CACHE_NAME] is what it was, and activating again changes nothing. *)
Theorem activate_keeps_only_own_cache (cs : CacheStorage) :
  Forall (fun entry => entry.1 = CACHE_NAME) (on_activate cs)
  /\ (forall name, name ≠ CACHE_NAME -> lookup_cache name (on_activate cs) = None)
  /\ lookup_cache CACHE_NAME (on_activate cs) = lookup_cache CACHE_NAME cs
  /\ on_activate (on_activate cs) = on_activate cs.
Proof.
  unfold on_activate.
  assert (Forall (fun entry : string * Cache => entry.1 = CACHE_NAME)
            (List.filter (fun entry => String.eqb entry.1 CACHE_NAME) cs)) as Hall.
  { apply Forall_forall. intros e He. apply list_elem_of_In, filter_In in He as [_ He].
    by apply String.eqb_eq. }
  split; [exact Hall |]. split; [| split].
  - intros name Hne. induction Hall as [|[k c] rest Hk _ IH]; [done |].
    cbn [lookup_cache]. cbn in Hk. subst k.
    by destruct (String.eqb_spec CACHE_NAME name) as [<- | _].
  - induction cs as [|[k c] rest IH]; [done |].
    cbn [List.filter lookup_cache fst].
    destruct (String.eqb k CACHE_NAME) eqn:Hk; cbn [lookup_cache]; rewrite ?Hk; [done |].
    apply IH. apply Forall_forall. intros e He.
    apply list_elem_of_In, filter_In in He as [_ He]. by apply String.eqb_eq.
  - induction Hall as [|[k c] rest Hk _ IH]; [done |].
    cbn [List.filter fst]. cbn in Hk. subst k.
    rewrite String.eqb_refl. by rewrite IH.
Qed.

Lemma match_after_put_in (req : Request) (r : Response) (cs : CacheStorage) :
  put_then_match ->
  Forall (fun entry => entry.1 = CACHE_NAME) cs ->
  caches_match req (put_in CACHE_NAME req r cs) = Some r.
Proof.
  intros Hput Hall. unfold put_in, caches_open.
  destruct Hall as [|[k c] rest Hk _]; cbn [lookup_cache app replace_cache].
  - rewrite String.eqb_refl. cbn [caches_match]. by rewrite Hput.
  - cbn in Hk. subst k. rewrite String.eqb_refl. cbn [replace_cache].
    rewrite String.eqb_refl. cbn [caches_match]. by rewrite Hput.
Qed.

Lemma on_fetch_good (req : Request) (r : Response) (cs : CacheStorage) :
  method req = "GET" -> status r = 200 -> type r = basic ->
  on_fetch req (Some r) cs
  = (Some (match caches_match req cs with Some c => Some c | None => Some r end),
     put_in CACHE_NAME req r cs).
Proof. intros Hm Hs Ht. unfold on_fetch. rewrite Hm, Hs, Ht. reflexivity. Qed.

Lemma on_fetch_answer (req : Request) (network : option Response) (cs : CacheStorage) :
  method req = "GET" ->
  (on_fetch req network cs).1
  = Some (match caches_match req cs with Some c => Some c | None => network end).
Proof. intros Hm. unfold on_fetch. rewrite Hm. reflexivity. Qed.

(** Stale while revalidate.  Once the worker is activated, a GET whose
    network response has status 200 and type basic stores that response,
    and the next fetch of the same request is answered with it, whatever
    the network does then, also when it fails.  (For caches in which a
    response put under a request is matched by that request.) *)
Theorem revalidated_response_is_served_next
    (req : Request) (r : Response) (cs : CacheStorage) (later : option Response) :
  put_then_match ->
  method req = "GET" -> status r = 200 -> type r = basic ->
  let first := on_fetch req (Some r) (on_activate cs) in
  first.1 = Some (Some (default r (caches_match req (on_activate cs))))
  /\ (on_fetch req later first.2).1 = Some (Some r).
Proof.
  intros Hput Hm Hs Ht.
  destruct (activate_keeps_only_own_cache cs) as [Hall _].
  cbv zeta. rewrite on_fetch_good by done. cbn [fst snd]. split.
  - by destruct (caches_match req (on_activate cs)).
  - rewrite on_fetch_answer by done.
    by rewrite (match_after_put_in req r _ Hput Hall).
Qed.

(** *** Installation *)

Lemma asset_response_Some fetched u ur :
  asset_response fetched u = Some ur <-> ur.1 = u /\ fetched u = Some ur.2 /\ ok ur.2 = true.
Proof.
  unfold asset_response. destruct ur as [v r]. cbn [fst snd]. split.
  - destruct (fetched u) as [r'|]; [| done].
    destruct (ok r') eqn:Hok; [| done]. by intros [= <- <-].
  - intros (-> & -> & ->). done.
Qed.

Lemma later_puts_keep (u : string) (l : list (string * Response)) (c : Cache) :
  put_keeps_others -> u ∉ l.*1 ->
  cache_match (fold_left (fun c ur => cache_put c (MkRequest "GET" ur.1) ur.2) l c)
              (MkRequest "GET" u)
  = cache_match c (MkRequest "GET" u).
Proof.
  intros Hframe. revert c. induction l as [|[v r] l IH]; intros c Hu; [done |].
  cbn [fold_left fst snd].
  rewrite IH by (intros Hin; apply Hu; cbn; by apply elem_of_cons; right).
  apply Hframe. cbn. intros ->. apply Hu. cbn. by apply elem_of_cons; left.
Qed.

Lemma all_puts_match (l : list (string * Response)) (c : Cache) :
  put_then_match -> put_keeps_others -> NoDup l.*1 ->
  forall ur, ur ∈ l ->
    cache_match (fold_left (fun c ur => cache_put c (MkRequest "GET" ur.1) ur.2) l c)
                (MkRequest "GET" ur.1)
    = Some ur.2.
Proof.
  intros Hput Hframe. revert c. induction l as [|[v r] l IH]; intros c Hnd ur Hin.
  { by apply elem_of_nil in Hin. }
  cbn in Hnd. apply NoDup_cons in Hnd as [Hv Hnd].
  cbn [fold_left fst snd]. apply elem_of_cons in Hin as [-> | Hin].
  - cbn [fst snd]. rewrite later_puts_keep by done. apply Hput.
  - by apply IH.
Qed.

Lemma responses_of_assets fetched urls responses :
  mapM (asset_response fetched) urls = Some responses ->
  responses.*1 = urls
  /\ Forall (fun ur => fetched ur.1 = Some ur.2 /\ ok ur.2 = true) responses.
Proof.
  intros H%mapM_Some_1. induction H as [|u ur urls responses Hu _ [IH1 IH2]]; [done |].
  apply asset_response_Some in Hu as (Hu & Hf & Hok). cbn. split.
  - by rewrite Hu, IH1.
  - constructor; [by rewrite Hu | done].
Qed.

Lemma assets_are_distinct : NoDup ASSETS_TO_CACHE.
Proof. apply (bool_decide_eq_true_1 (NoDup ASSETS_TO_CACHE)). vm_compute. reflexivity. Qed.

Lemma own_cache_after_open (cs : CacheStorage) :
  lookup_cache CACHE_NAME (caches_open CACHE_NAME cs).2
  = Some (default empty_cache (lookup_cache CACHE_NAME cs))
  /\ (caches_open CACHE_NAME cs).1 = default empty_cache (lookup_cache CACHE_NAME cs)
  /\ forall name, name ≠ CACHE_NAME ->
       lookup_cache name (caches_open CACHE_NAME cs).2 = lookup_cache name cs.
Proof.
  unfold caches_open. destruct (lookup_cache CACHE_NAME cs) as [c|] eqn:Hc; cbn [fst snd default].
  - done.
  - split; [| split; [done | intros name Hne; by apply lookup_app_ne]].
    induction cs as [|[k old] rest IH]; cbn [lookup_cache app] in *.
    + by rewrite String.eqb_refl.
    + destruct (String.eqb k CACHE_NAME); [done | by apply IH].
Qed.

Lemma addAll_spec (fetched : string -> option Response) (urls : list string) (c : Cache) :
  put_then_match -> put_keeps_others -> NoDup urls ->
  match addAll fetched urls c with
  | Some c' =>
      Forall (fun u => exists r, fetched u = Some r /\ ok r = true) urls
      /\ Forall (fun u => exists r, fetched u = Some r
                   /\ cache_match c' (MkRequest "GET" u) = Some r) urls
  | None => ~ Forall (fun u => exists r, fetched u = Some r /\ ok r = true) urls
  end.
Proof.
  intros Hput Hframe Hnd. unfold addAll.
  destruct (mapM (asset_response fetched) urls) as [responses|] eqn:Hm.
  - destruct (responses_of_assets _ _ _ Hm) as [Hurls Hall]. rewrite <- Hurls. split.
    + apply Forall_fmap. eapply Forall_impl; [exact Hall |].
      intros [u r] [Hf Hok]. by exists r.
    + apply Forall_fmap. apply Forall_forall. intros [u r] Hin.
      rewrite Forall_forall in Hall. destruct (Hall _ Hin) as [Hf _]. cbn in *.
      exists r. split; [done |].
      assert (NoDup responses.*1) as Hnd' by (by rewrite Hurls).
      exact (all_puts_match responses c Hput Hframe Hnd' (u, r) Hin).
  - intros Hall. apply mapM_None_1 in Hm. apply Exists_exists in Hm as (u & Hu & Hnone).
    rewrite Forall_forall in Hall. destruct (Hall u Hu) as (r & Hf & Hok).
    unfold asset_response in Hnone. by rewrite Hf, Hok in Hnone.
Qed.

(** Installation is all or nothing.  If every asset is fetched with
    an ok response, the worker's cache afterwards matches every asset's
    URL with the response fetched for it; if any fetch fails or is not
    ok, the rejection is caught and logged and the cache holds what it
    held before (it is created empty if it did not exist).  Caches of
    other names are not touched either way.  (For caches in which a
    response put under a request is matched by that request, and where
    putting under one URL leaves the matches of other URLs alone.) *)
Theorem install_is_all_or_nothing
    (fetched : string -> option Response) (cs : CacheStorage) :
  put_then_match -> put_keeps_others ->
  let '(cs', logged) := on_install fetched cs in
  (forall name, name ≠ CACHE_NAME -> lookup_cache name cs' = lookup_cache name cs)
  /\ (logged = false <-> all_fetched fetched)
  /\ (logged = true ->
      lookup_cache CACHE_NAME cs' = Some (default empty_cache (lookup_cache CACHE_NAME cs)))
  /\ (logged = false ->
      exists c', lookup_cache CACHE_NAME cs' = Some c'
        /\ Forall (fun u => exists r, fetched u = Some r
                     /\ cache_match c' (MkRequest "GET" u) = Some r) ASSETS_TO_CACHE).
Proof.
  intros Hput Hframe. unfold on_install, all_fetched.
  destruct (own_cache_after_open cs) as (Hown & Hc & Hothers).
  destruct (caches_open CACHE_NAME cs) as [c cs1]. cbn [fst snd] in Hown, Hc, Hothers.
  subst c.
  pose proof (addAll_spec fetched ASSETS_TO_CACHE
                (default empty_cache (lookup_cache CACHE_NAME cs))
                Hput Hframe assets_are_distinct) as Hadd.
  destruct (addAll fetched ASSETS_TO_CACHE _) as [c'|].
  - destruct Hadd as [Hall Hmatch]. split; [| split; [| split]].
    + intros name Hne. rewrite lookup_replace_ne by done. by apply Hothers.
    + by split.
    + done.
    + intros _. exists c'. split; [apply lookup_replace_eq; by rewrite Hown | exact Hmatch].
  - split; [exact Hothers |]. split; [| split; [by intros _ | done]].
    split; [done | intros Hall; by destruct Hadd].
Qed.

End WorkerFacts.

Section WorkerRun.
Import ServiceWorker.

Lemma url_cache_put_then_match : @put_then_match url_cache.
Proof. intros c req r. cbn. by rewrite String.eqb_refl. Qed.

Lemma url_cache_put_keeps_others : @put_keeps_others url_cache.
Proof.
  intros c req r req' Hne. cbn.
  by destruct (String.eqb_spec (url req) (url req')) as [Heq | _]; [destruct Hne |].
Qed.

(** An instance: the page is fetched twice, the second time offline. *)
Lemma revalidated_response_is_served_next_witness :
  let req := MkRequest "GET" "./index.html" in
  let page := MkResponse 200 basic "<html>" in
  let stale := [("old-cache", [("./index.html", MkResponse 200 basic "<old>")])] in
  (on_fetch req None (on_fetch req (Some page) (on_activate stale)).2).1 = Some (Some page).
Proof.
  intros req page stale.
  exact (proj2 (revalidated_response_is_served_next req page stale None
                  url_cache_put_then_match eq_refl eq_refl eq_refl)).
Defined.

(** An instance: the network answers every asset but one. *)
Lemma install_is_all_or_nothing_witness :
  let fetched (u : string) :=
    if String.eqb u "./types.ts" then None else Some (MkResponse 200 basic u) in
  on_install fetched [] = ([(CACHE_NAME, [])], true)
  /\ ~ all_fetched fetched.
Proof.
  intros fetched. split; [reflexivity |].
  pose proof (install_is_all_or_nothing fetched []
                url_cache_put_then_match url_cache_put_keeps_others) as H.
  change (on_install fetched []) with ([(CACHE_NAME, @nil (string * Response))], true) in H.
  destruct H as (_ & [_ H] & _). intros Hall. by specialize (H Hall).
Defined.

End WorkerRun.

(** * The manual exchange *)

Section ManualCodes.
Context {P : Platform}.

(** A manual code carries the descriptor.  When ICE gathering ends,
    the code shown is the compressed JSON text of the connection's local
    description.  If that code decodes back to the description, then
    pasted at the other side it is this description, and no other, that
    is given to [setRemoteDescription]: by the host's Connect on the
    connection the host holds, with the status Connecting... if the
    connection accepts it and the error text otherwise; by the joiner's
    Generate on the connection it has just created, before any answer
    is made. *)
Theorem manual_code_carries_the_descriptor
    (pc : nat) (r : Role) (sender receiver : AppState) :
  let d := localDescription (the_pc pc sender) in
  let code := localOffer (ui (onicecandidate_null pc r sender).1.2) in
  decoded code = Some d ->
  remoteAnswer (ui receiver) = code ->
  code = compressToBase64 (JSON_stringify d)
  /\ (forall held, pcRef (refs receiver) = Some held -> code ≠ "" ->
      handleManualHostConnect receiver =
        match setRemoteDescription (the_pc held receiver) d with
        | Some accepted =>
            (Normal tt,
             (setStatus "Connecting..." (update_pc held (fun _ => accepted) receiver).1.2).1.2,
             [RtcSetRemote held d true])
        | None =>
            (Normal tt, (setErrorMsg "Invalid Answer Code" receiver).1.2,
             [RtcSetRemote held d false])
        end)
  /\ (exists before after,
        (handleManualJoinGenerate receiver).2
        = before ++ RtcSetRemote (next_id (browser receiver)) d
                      (bool_decide (is_Some (setRemoteDescription new_pc d))) :: after
        /\ Forall sets_no_remote before
        /\ Forall (fun x => x ≠ RtcCreateAnswer (next_id (browser receiver)) true) before).
Proof.
  intros d code Hdec Hpaste.
  assert (code = compressToBase64 (JSON_stringify d)) as Hcode by reflexivity.
  split; [exact Hcode |]. unfold decoded in Hdec. split.
  - intros held Hheld Hne.
    unfold handleManualHostConnect, try_catch, decode_descriptor, parse,
      rtc_setRemoteDescription, mbind, M_bind, bind.
    cbn [get_state fst snd]. rewrite Hheld, Hpaste.
    destruct (String.eqb_spec code "") as [| _]; [done |].
    rewrite Hdec. cbn [unwrap ret get_state fst snd].
    by destruct (setRemoteDescription (the_pc held receiver) d).
  - destruct (initPC_spec receiver) as (st1 & out1 & Einit & Hui & Hnew & _ & Hout).
    assert (Forall (fun x => x ≠ RtcCreateAnswer (next_id (browser receiver)) true) out1)
      as Hout'.
    { revert Einit. unfold initPC, mbind, M_bind, bind. cbn [get_state fst snd].
      destruct (pcRef (refs receiver)); cbn; intros [= <- <-]; by repeat constructor. }
    unfold handleManualJoinGenerate, try_catch, decode_descriptor, parse,
      rtc_setRemoteDescription, mbind, M_bind, bind.
    rewrite Einit. cbn [get_state fst snd]. rewrite Hui, Hpaste, Hdec.
    cbn [unwrap ret get_state fst snd]. rewrite Hnew.
    destruct (setRemoteDescription new_pc d) as [accepted|]; cbn [emit throw fst snd app].
    + rewrite bool_decide_eq_true_2 by done.
      unfold rtc_createAnswer, rtc_setLocalDescription, mbind, M_bind, bind.
      cbn [update_pc set_onicecandidate modify get_state emit fst snd app].
      match goal with
      | |- context [createAnswer ?x] => destruct (createAnswer x) as [answer|]
      end; cbn [ret emit throw fst snd app get_state].
      * match goal with
        | |- context [setLocalDescription ?x ?y] => destruct (setLocalDescription x y)
        end; cbn [ret emit throw update_pc setErrorMsg modify fst snd app];
          rewrite <- ?app_assoc; cbn [app];
          eexists out1, _; (split; [reflexivity | by split]).
      * cbn [setErrorMsg modify fst snd app]. rewrite <- ?app_assoc. cbn [app].
        eexists out1, _. split; [reflexivity | by split].
    + rewrite bool_decide_eq_false_2 by (by intros [? ?]).
      cbn [setErrorMsg modify fst snd app]. rewrite <- ?app_assoc. cbn [app].
      eexists out1, _. split; [reflexivity | by split].
Qed.

End ManualCodes.

Section ManualCodesRun.
#[local] Existing Instance Demo.platform.

(** An instance: a manual host's offer code, pasted by a joiner. *)
Lemma manual_code_carries_the_descriptor_witness :
  let sender := page_app (run [EvStartManualHost 1700000000000] (init_page ∅)).1 in
  let d := localDescription (the_pc 0 sender) in
  let code := localOffer (ui (onicecandidate_null 0 HOST sender).1.2) in
  let receiver :=
    with_ui (fun _ => MkUi MANUAL_JOIN "" "" "" "" "" code false [] false) (init_state ∅) in
  d = Demo.descriptor "offer"
  /\ decoded code = Some d
  /\ exists before after,
       (handleManualJoinGenerate receiver).2 = before ++ RtcSetRemote 0 d true :: after
       /\ Forall sets_no_remote before.
Proof.
  intros sender d code receiver.
  assert (decoded code = Some d) as Hdec by (vm_compute; reflexivity).
  split; [reflexivity |]. split; [exact Hdec |].
  destruct (manual_code_carries_the_descriptor 0 HOST sender receiver Hdec eq_refl)
    as (_ & _ & before & after & Hout & Hbefore & _).
  exists before, after. split; [exact Hout | exact Hbefore].
Defined.

End ManualCodesRun.

(** * Host and joiner on the relay *)

Section RelayTopics.
Context {P : Platform}.

Ltac topic_in_list :=
  first [ exact I | cbn; by left | cbn; by right; left ].

Lemma host_publishes_for_joiner client c tp msg :
  sat any_state (publishes_on (joiner_listens (cl_code c))) (host_onconnect client c)
  /\ sat any_state (publishes_on (joiner_listens (cl_code c))) (host_onmessage client c tp msg).
Proof. split; sat_walk; topic_in_list. Qed.

Lemma joiner_publishes_for_host client c tp msg :
  sat any_state (publishes_on (host_listens (cl_code c))) (joiner_onconnect client c)
  /\ sat any_state (publishes_on (host_listens (cl_code c))) (joiner_onmessage client c tp msg).
Proof. split; sat_walk; topic_in_list. Qed.

(** The only timer the joiner's message handler starts is the answer
    timer of its own client, connection and room. *)
Lemma joiner_schedules_its_answer client c tp msg :
  sat any_state (schedules_only (TAnswer client (cl_pc c) (cl_code c)))
    (joiner_onmessage client c tp msg).
Proof. sat_walk; done. Qed.

(** A timer publishes, when it fires, on the answer topic of its room
    if it is an answer timer, and nothing otherwise. *)
Lemma answer_timer_publishes_for_host client pc room st :
  Forall (publishes_on (host_listens room)) (fire_timer (TAnswer client pc room) st).2.
Proof.
  unfold fire_timer, publish_answer, mbind, M_bind, bind. cbn [get_state fst snd].
  destruct (decide _); cbn; repeat constructor.
Qed.

(** When the handling of an offer goes through, the last thing it does
    is to start the answer timer. *)
Lemma offer_handled_starts_timer client c tp msg st :
  endsWith tp "/restart" = false -> endsWith tp "/offer" = true ->
  (joiner_onmessage client c tp msg st).1.1 = Normal tt ->
  last (joiner_onmessage client c tp msg st).2
  = Some (SetTimeout (TAnswer client (cl_pc c) (cl_code c)) 1000).
Proof.
  intros Hr Ho. unfold joiner_onmessage. rewrite Hr, Ho. cbn [when].
  unfold parse, rtc_setRemoteDescription, rtc_createAnswer, rtc_setLocalDescription,
    setTimeout, mbind, M_bind, bind.
  cbn [setStatus modify get_state fst snd].
  destruct (JSON_parse msg) as [desc|]; cbn [unwrap ret throw fst snd]; [| done].
  destruct (setRemoteDescription _ desc) as [pc1|]; cbn [update_pc modify emit throw fst snd];
    [| done].
  destruct (createAnswer _) as [answer|]; cbn [emit ret throw fst snd]; [| done].
  destruct (setLocalDescription _ answer) as [pc2|];
    cbn [update_pc modify emit throw fst snd app]; [| done].
  intros _. reflexivity.
Qed.

Lemma topic_ends_with_leaf (room leaf : string) :
  endsWith (topic room leaf) ("/" +:+ leaf) = true.
Proof. rewrite topic_split. apply endsWith_app. Qed.

Lemma topic_ends_with_one_leaf (room leaf other : string) :
  endsWith ("/" +:+ leaf) ("/" +:+ other) = false ->
  endsWith ("/" +:+ other) ("/" +:+ leaf) = false ->
  endsWith (topic room leaf) ("/" +:+ other) = false.
Proof.
  intros H1 H2. destruct (endsWith (topic room leaf) ("/" +:+ other)) eqn:He; [| done].
  destruct (endsWith_comparable _ _ _ (topic_ends_with_leaf room leaf) He); congruence.
Qed.

(** Host and joiner of one room meet on the relay.  The host
    subscribes to the room's join and answer topics, the joiner to its
    offer and restart topics; everything the host's handlers publish is
    on a topic the joiner subscribed to, and everything the joiner's
    handlers publish is on a topic the host subscribed to.  The only
    timer the joiner's message handler starts is the answer timer of
    its own room, it starts it whenever the handling of an offer goes
    through, and what that timer publishes when it fires is on a topic
    the host subscribed to.  The suffix tests of the receiving handler
    take each of these topics for what it is, whatever the room code. *)
Theorem host_and_joiner_meet_on_topics
    (room : string) (hc jc hp jp : nat) (hr jr he je : bool)
    (tp msg : string) (st : AppState) :
  let h := MkClient HOST room hp hr he in
  let j := MkClient JOINER room jp jr je in
  subscriptions (host_onconnect hc h st).2 = host_listens room
  /\ subscriptions (joiner_onconnect jc j st).2 = joiner_listens room
  /\ Forall (publishes_on (joiner_listens room)) (host_onconnect hc h st).2
  /\ Forall (publishes_on (joiner_listens room)) (host_onmessage hc h tp msg st).2
  /\ Forall (publishes_on (host_listens room)) (joiner_onconnect jc j st).2
  /\ Forall (publishes_on (host_listens room)) (joiner_onmessage jc j tp msg st).2
  /\ (forall t ms later,
        SetTimeout t ms ∈ (joiner_onmessage jc j tp msg st).2 ->
        t = TAnswer jc jp room
        /\ Forall (publishes_on (host_listens room)) (fire_timer t later).2)
  /\ (endsWith tp "/restart" = false -> endsWith tp "/offer" = true ->
      (joiner_onmessage jc j tp msg st).1.1 = Normal tt ->
      last (joiner_onmessage jc j tp msg st).2 = Some (SetTimeout (TAnswer jc jp room) 1000))
  /\ (endsWith (topic room "join") "/join" = true
      /\ endsWith (topic room "join") "/answer" = false
      /\ endsWith (topic room "answer") "/answer" = true
      /\ endsWith (topic room "answer") "/join" || endsWith (topic room "answer") "/restart"
         = false)
  /\ (endsWith (topic room "restart") "/restart" = true
      /\ endsWith (topic room "offer") "/offer" = true
      /\ endsWith (topic room "offer") "/restart" = false).
Proof.
  intros h j.
  destruct (host_publishes_for_joiner hc h tp msg) as [H1 H2].
  destruct (joiner_publishes_for_host jc j tp msg) as (J1 & J2).
  split; [| split; [| split; [| split; [| split; [| split; [| split; [| split; [| split]]]]]]]].
  - unfold host_onconnect, rtc_createOffer, rtc_setLocalDescription, mbind, M_bind, bind.
    cbn [setStatus modify emit get_state fst snd].
    destruct (createOffer _) as [offer|]; cbn [emit ret throw fst snd app]; [| done].
    destruct (setLocalDescription _ _); cbn; by destruct hr.
  - reflexivity.
  - apply H1.
  - apply H2.
  - apply J1.
  - apply J2.
  - intros t ms later Hin.
    destruct (joiner_schedules_its_answer jc j tp msg st) as [_ Hs].
    rewrite Forall_forall in Hs. specialize (Hs _ Hin). cbn in Hs. subst t.
    split; [done |]. apply answer_timer_publishes_for_host.
  - apply (offer_handled_starts_timer jc j tp msg st).
  - split; [apply (topic_ends_with_leaf room "join") |].
    split; [by apply (topic_ends_with_one_leaf room "join" "answer") |].
    split; [apply (topic_ends_with_leaf room "answer") |].
    pose proof (topic_ends_with_one_leaf room "answer" "join" eq_refl eq_refl) as A.
    pose proof (topic_ends_with_one_leaf room "answer" "restart" eq_refl eq_refl) as B.
    change ("/" +:+ "join") with "/join" in A.
    change ("/" +:+ "restart") with "/restart" in B.
    by rewrite A, B.
  - split; [apply (topic_ends_with_leaf room "restart") |].
    split; [apply (topic_ends_with_leaf room "offer") |].
    by apply (topic_ends_with_one_leaf room "offer" "restart").
Qed.

End RelayTopics.

Section RelayTopicsRun.
#[local] Existing Instance Demo.platform.

(** An instance: the joiner of room 1234 handles the host's offer; the
    timer it starts is the answer timer of room 1234, and the topic that
    timer publishes on when it fires is one the host listens on. *)
Lemma host_and_joiner_meet_on_topics_witness :
  let j := MkClient JOINER "1234" 0 false false in
  let st := page_app (run joiner_waiting (init_page ∅)).1 in
  let offer := JSON_stringify (Demo.descriptor "offer") in
  let out := (joiner_onmessage 1 j "chkobba/1234/offer" offer st).2 in
  clients (browser st) !! 1%nat = Some j
  /\ SetTimeout (TAnswer 1 0 "1234") 1000 ∈ out
  /\ Forall (publishes_on (host_listens "1234"))
       (fire_timer (TAnswer 1 0 "1234") (joiner_onmessage 1 j "chkobba/1234/offer" offer st).1.2).2
  /\ (fire_timer (TAnswer 1 0 "1234") (joiner_onmessage 1 j "chkobba/1234/offer" offer st).1.2).2
     = [MqttPublish 1 "chkobba/1234/answer" (JSON_stringify (Demo.descriptor "answer"))].
Proof.
  intros j st offer out.
  assert (SetTimeout (TAnswer 1 0 "1234") 1000 ∈ out) as Hin.
  { vm_compute. repeat constructor. }
  split; [reflexivity |]. split; [exact Hin |].
  destruct (host_and_joiner_meet_on_topics "1234" 2 1 0 0 false false false false
              "chkobba/1234/offer" offer st) as (_ & _ & _ & _ & _ & _ & Htimer & _).
  split; [| vm_compute; reflexivity].
  exact (proj2 (Htimer (TAnswer 1 0 "1234") 1000
                  (joiner_onmessage 1 j "chkobba/1234/offer" offer st).1.2 Hin)).
Defined.

End RelayTopicsRun.

(** * The view and the error text over time *)

Section ViewAndError.
Context {P : Platform}.

#[local] Instance no_entry_to_game_preorder : PreOrder no_entry_to_game.
Proof. split; [intros st H; exact H | intros a b c H1 H2 H; by apply H1, H2]. Qed.

#[local] Instance keeps_error_preorder : PreOrder keeps_error.
Proof. split; [intros st H; exact H | intros a b c H1 H2 H; by apply H2, H1]. Qed.

Lemma saveManualState_ui st : ui (saveManualState st).1.2 = ui st.
Proof.
  unfold saveManualState, mbind, M_bind, bind. cbn [get_state fst snd].
  by destruct (view (ui st)).
Qed.

Lemma step_ui e pg :
  ui (page_app (step e pg).1) = ui ((dispatch e pg).1.1 (page_app pg)).1.2.
Proof.
  unfold step. destruct (dispatch e pg) as [[m b] thrown]; cbn [fst snd].
  unfold app_step. destruct (m (page_app pg)) as [[r st1] out]; cbn [fst snd].
  destruct (manual_deps_changed _ _); [| done].
  pose proof (saveManualState_ui st1) as Hs.
  destruct (saveManualState st1) as [[r2 st2] out2]. exact Hs.
Qed.

Ltac view_side :=
  first [ exact I | intros H; exact H | intros H; cbn in H; discriminate H ].

Lemma handle_no_entry_to_game e :
  link_is_up e = false ->
  (forall pc s, e ≠ EvConnectionState pc s) ->
  sat no_entry_to_game (fun _ => True) (handle e).
Proof.
  destruct e as [ | | | | | | | | | | | | | | | | | | | | pc s | | | | ch s | ];
    try (intros _ _; sat_walk; view_side).
  - intros _ H. by destruct (H pc s).
  - destruct s; try discriminate; intros _ _; sat_walk; view_side.
Qed.

Lemma connection_state_no_entry pc s st :
  s ≠ connected ->
  no_entry_to_game st (handle (EvConnectionState pc s) st).1.2.
Proof.
  intros Hs. unfold handle, onconnectionstatechange, mbind, M_bind, bind.
  cbn [get_state fst snd].
  destruct (pcs (browser st) !! pc) as [cell|] eqn:Hpc; [| by intros H].
  cbn [update_pc modify fst snd get_state].
  assert (connectionState
            (the_pc pc (with_browser (with_pcs
               (alter (fun c => MkPcCell
                  (MkPC (signalingState (pc_obj c)) s (localDescription (pc_obj c))
                        (remoteDescription (pc_obj c))) (pc_onicecandidate c)) pc)) st)) = s)
    as ->.
  { unfold the_pc. cbn. by rewrite lookup_alter_eq, Hpc. }
  destruct s; try done; by intros H.
Qed.

(** The game view is entered only when the link comes up.  A step
    that ends in the game view began in it, unless its event is the
    peer connection reporting connected or the data channel opening: no
    button, timer, relay message or restored session shows the game
    before a connection. *)
Theorem game_view_needs_a_link (e : Event) (pg : Page) :
  link_is_up e = false ->
  view (ui (page_app (step e pg).1)) = GAME ->
  view (ui (page_app pg)) = GAME.
Proof.
  intros He. rewrite step_ui.
  destruct e as [ | | | | | | | | | | | | | | | | | g now | | | pc s | | | | | ];
    try (unfold dispatch; cbn [fst snd];
         apply (handle_no_entry_to_game _ He); intros ? ?; discriminate).
  - unfold dispatch. destruct (view (ui (page_app pg))) eqn:Hv; cbn [fst snd];
      try (by intros _); intros H; change (view (ui (page_app pg)) = GAME) in H;
      congruence.
  - unfold dispatch. cbn [fst snd]. apply connection_state_no_entry.
    intros ->. discriminate He.
Qed.

Ltac error_side :=
  first [ exact I | intros H; exact H | intros _; cbn; discriminate ].

Lemma handle_keeps_error e :
  reloads e = false -> sat keeps_error (fun _ => True) (handle e).
Proof.
  destruct e as [ | | | | | | | | | | | | | | | | confirmed | | | | | | | | | ];
    try discriminate; try (intros _; sat_walk; error_side).
  destruct confirmed; [discriminate |]. intros _. sat_walk; error_side.
Qed.

(** An error text is never cleared.  Once [errorMsg] is not empty it
    stays not empty through every step that does not reload the page:
    the two handlers that set it are the only ones that write it, so the
    text of a failed paste is still shown after a later paste
    succeeded. *)
Theorem error_text_is_never_cleared (e : Event) (pg : Page) :
  reloads e = false ->
  errorMsg (ui (page_app pg)) ≠ "" ->
  errorMsg (ui (page_app (step e pg).1)) ≠ "".
Proof.
  intros He. rewrite step_ui.
  destruct e as [ | | | | | | | | | | | | | | | | | g now | | | | | | | | ];
    try (unfold dispatch; cbn [fst snd]; apply (handle_keeps_error _ He)).
  unfold dispatch. destruct (view (ui (page_app pg))); cbn [fst snd]; try done.
  destruct (DrawingBoard.handle g (board pg)) as [[[pts|]|] b]; cbn [fst snd]; try done.
  assert (sat keeps_error (fun _ => True) (handleStrokeComplete pts now)) as H
    by (sat_walk; error_side).
  apply H.
Qed.

End ViewAndError.

Section ViewAndErrorRun.
#[local] Existing Instance Demo.platform.

(** An instance: a relay message does not open the game view. *)
Lemma game_view_needs_a_link_witness :
  let pg := (run joiner_waiting (init_page ∅)).1 in
  let offer := EvMqttMessage 1 "chkobba/1234/offer"
                 (Demo.json_stringify (Demo.descriptor "offer")) in
  view (ui (page_app pg)) = JOIN_LOBBY
  /\ view (ui (page_app (step offer pg).1)) ≠ GAME.
Proof.
  intros pg offer. split; [reflexivity |].
  intros H. apply (game_view_needs_a_link offer pg eq_refl) in H. discriminate H.
Defined.

(** An instance: a manual host pastes a bad reply, then types on. *)
Lemma error_text_is_never_cleared_witness :
  let pg := (run [EvStartManualHost 1700000000000; EvTypeRemoteAnswer "garbage";
                  EvManualHostConnect] (init_page ∅)).1 in
  errorMsg (ui (page_app pg)) = "Invalid Answer Code"
  /\ errorMsg (ui (page_app (step (EvTypeRemoteAnswer "") pg).1)) ≠ "".
Proof.
  intros pg.
  assert (errorMsg (ui (page_app pg)) = "Invalid Answer Code") as Herr
    by (vm_compute; reflexivity).
  split; [exact Herr |].
  apply (error_text_is_never_cleared (EvTypeRemoteAnswer "") pg eq_refl).
  rewrite Herr. discriminate.
Defined.

End ViewAndErrorRun.

(** * Peer connections *)

Section PeerConnections.
Context {P : Platform}.
Hypothesis closed : closed_stays_closed.

#[local] Instance keeps_one_open_connection_preorder : PreOrder keeps_one_open_connection.
Proof. split; [intros st H; exact H | intros a b c H1 H2 H; by apply H2, H1]. Qed.

(** An update of one connection that leaves its signalling state alone. *)
Lemma alter_keeps (f : PcCell -> PcCell) (i : nat) (st : AppState) :
  (forall c, signalingState (pc_obj (f c)) = signalingState (pc_obj c)) ->
  keeps_one_open_connection st (with_browser (with_pcs (alter f i)) st).
Proof.
  intros Hf H j c Hj Hne. cbn in Hj, Hne.
  destruct (decide (j = i)) as [-> | Hji].
  - rewrite lookup_alter_eq in Hj.
    destruct (pcs (browser st) !! i) as [c0|] eqn:Hc0; [| done].
    cbn in Hj. injection Hj as <-. rewrite Hf. by apply (H i c0).
  - rewrite lookup_alter_ne in Hj by done. by apply (H j c).
Qed.

Lemma initPC_keeps : sat keeps_one_open_connection (fun _ => True) initPC.
Proof.
  intros st. split; [| apply Forall_forall; done].
  unfold initPC, alloc, mbind, M_bind, bind. cbn [get_state fst snd].
  destruct (pcRef (refs st)) as [old|] eqn:Hold; cbn; intros H i c Hi Hne; cbn in Hi.
  - assert (i ≠ next_id (browser st)) as Hi' by (intros ->; by apply Hne).
    rewrite lookup_insert_ne in Hi by done.
    destruct (decide (i = old)) as [-> | Hio].
    + rewrite lookup_alter_eq in Hi.
      destruct (pcs (browser st) !! old); [| done]. cbn in Hi. by injection Hi as <-.
    + rewrite lookup_alter_ne in Hi by done. apply (H i c Hi). congruence.
  - assert (i ≠ next_id (browser st)) as Hi' by (intros ->; by apply Hne).
    rewrite lookup_insert_ne in Hi by done. apply (H i c Hi). congruence.
Qed.

Lemma replaced_keeps (i : nat) (pc' : PC) (st : AppState) :
  (signalingState (the_pc i st) = sig_closed -> signalingState pc' = sig_closed) ->
  keeps_one_open_connection st
    (with_browser (with_pcs (alter (fun c => MkPcCell pc' (pc_onicecandidate c)) i)) st).
Proof.
  intros Hpc H j c Hj Hne. cbn in Hj, Hne.
  destruct (decide (j = i)) as [-> | Hji].
  - rewrite lookup_alter_eq in Hj.
    destruct (pcs (browser st) !! i) as [c0|] eqn:Hc0; [| done].
    cbn in Hj. injection Hj as <-. cbn. apply Hpc.
    unfold the_pc. rewrite Hc0. by apply (H i c0).
  - rewrite lookup_alter_ne in Hj by done. by apply (H j c).
Qed.

Lemma setLocal_keeps (i : nat) (desc : JsValue) :
  sat keeps_one_open_connection (fun _ => True) (rtc_setLocalDescription i desc).
Proof.
  intros st. split; [| apply Forall_forall; done].
  unfold rtc_setLocalDescription, mbind, M_bind, bind. cbn [get_state fst snd].
  destruct (setLocalDescription (the_pc i st) desc) as [pc'|] eqn:Hset; cbn.
  - apply replaced_keeps. intros Hc. apply (closed _ desc pc' Hc). by left.
  - by intros H.
Qed.

Lemma setRemote_keeps (i : nat) (desc : JsValue) :
  sat keeps_one_open_connection (fun _ => True) (rtc_setRemoteDescription i desc).
Proof.
  intros st. split; [| apply Forall_forall; done].
  unfold rtc_setRemoteDescription, mbind, M_bind, bind. cbn [get_state fst snd].
  destruct (setRemoteDescription (the_pc i st) desc) as [pc'|] eqn:Hset; cbn.
  - apply replaced_keeps. intros Hc. apply (closed _ desc pc' Hc). by right.
  - by intros H.
Qed.

Ltac connection_side :=
  first
    [ exact I
    | intros H; exact H
    | apply alter_keeps; intros; reflexivity
    | intros _ i c Hi; cbn in Hi; by rewrite lookup_empty in Hi ].

Ltac connection_walk :=
  repeat first
    [ apply initPC_keeps
    | apply setLocal_keeps
    | apply setRemote_keeps
    | match goal with
      | |- PreOrder _ => apply _
      | |- forall _, sat _ _ _ => intros ?
      | |- sat _ _ (match ?x with _ => _ end) => destruct x
      | |- sat _ _ (let _ := _ in _) => cbv zeta
      | |- sat _ _ alloc => intros ?; simpl; split; [| constructor]
      end
    | apply sat_ret | apply sat_throw | apply sat_get | apply sat_unwrap
    | apply sat_bind
    | apply sat_try
    | apply sat_when
    | apply sat_emit
    | apply sat_modify; intros ?
    | progress autounfold with handlers ].

Lemma handle_keeps_one_open_connection e :
  sat keeps_one_open_connection (fun _ => True) (handle e).
Proof. destruct e; connection_walk; connection_side. Qed.

Lemma step_keeps_one_open_connection e pg :
  one_open_connection (page_app pg) -> one_open_connection (page_app (step e pg).1).
Proof.
  eapply (sat_step_all keeps_one_open_connection (fun _ => True)).
  - exact I.
  - apply handle_keeps_one_open_connection.
  - intros pts now. connection_walk; connection_side.
  - connection_walk; connection_side.
Qed.

(** The page never holds two open peer connections.  On a platform
    where a closed connection stays closed, in every page reached from a
    page that has the property (a freshly loaded page has it), every
    peer connection other than the one [pcRef] holds is closed:
    [initPC] closes the connection it replaces, and the callbacks of a
    replaced connection cannot reopen it. *)
Theorem at_most_one_open_connection (evs : list Event) (pg : Page) :
  one_open_connection (page_app pg) ->
  one_open_connection (page_app (run evs pg).1).
Proof.
  revert pg. induction evs as [|e evs IH]; intros pg Hpg; [exact Hpg |].
  cbn [run]. pose proof (step_keeps_one_open_connection e pg Hpg) as Hstep.
  destruct (step e pg) as [pg1 out]. specialize (IH pg1 Hstep).
  destruct (run evs pg1) as [pg2 log]. exact IH.
Qed.

End PeerConnections.

Section PeerConnectionsRun.
#[local] Existing Instance Demo.platform.

Lemma demo_closed_stays_closed : closed_stays_closed.
Proof.
  intros pc d pc' Hc [H | H]; cbn in H; unfold Demo.set_local, Demo.set_remote in H;
    rewrite Hc in H; discriminate.
Qed.

(** An instance: after the reconnect, connection 0 is closed and
    connection 3 is the current one. *)
Lemma at_most_one_open_connection_witness :
  let pg := (run reconnect_before (init_page ∅)).1 in
  one_open_connection (init_state ∅)
  /\ one_open_connection (page_app pg)
  /\ signalingState (the_pc 0 (page_app pg)) = sig_closed
  /\ pcRef (refs (page_app pg)) = Some 3%nat.
Proof.
  assert (one_open_connection (init_state ∅)) as Hinit.
  { intros i c Hi. cbn in Hi. by rewrite lookup_empty in Hi. }
  split; [exact Hinit |].
  split; [exact (at_most_one_open_connection demo_closed_stays_closed
                   reconnect_before (init_page ∅) Hinit) |].
  split; vm_compute; reflexivity.
Defined.

End PeerConnectionsRun.

(** * One room code throughout *)

Section RoomCodeUse.
Context {P : Platform}.

Lemma host_starts_in_lobby (room : string) (now : Z) (st : AppState) :
  let '(r, st', out) :=
    (setShortCode room;;
     saveSession CLOUD HOST room now;;
     st ← get_state;
     connectCloudHost (isReconnecting (ui st)) room) st in
  r = Normal tt
  /\ shortCode (ui st') = room
  /\ localStorage (browser st') !! "chkobba_session"
     = Some (JSON_stringify (session_obj (MkSession CLOUD HOST room now)))
  /\ view (ui st') = HOST_LOBBY.
Proof.
  unfold connectCloudHost, saveSession, initPC, rtc_createDataChannel,
    mqtt_connect, mqtt_end, alloc, mbind, M_bind, bind.
  cbn [setShortCode setView setStatus setItem set_pcRef set_dataChannelRef
       set_mqttClientRef setupDataChannel update_pc modify emit ret get_state fst snd].
  cbn. destruct (pcRef (refs st)). all: cbn. all: destruct (mqttClientRef (refs st)).
  all: cbn.
  all: split; [done |]. all: split; [done |].
  all: split; [by rewrite lookup_insert_eq | done].
Qed.

Lemma host_starts_a_client (room : string) (now : Z) (st : AppState) :
  let '(r, st', out) :=
    (setShortCode room;;
     saveSession CLOUD HOST room now;;
     st ← get_state;
     connectCloudHost (isReconnecting (ui st)) room) st in
  exists client pc,
    mqttClientRef (refs st') = Some client
    /\ pcRef (refs st') = Some pc
    /\ clients (browser st') !! client
       = Some (MkClient HOST room pc (isReconnecting (ui st)) false)
    /\ last out = Some (MqttConnect client).
Proof.
  unfold connectCloudHost, saveSession, initPC, rtc_createDataChannel,
    mqtt_connect, mqtt_end, alloc, mbind, M_bind, bind.
  cbn [setShortCode setView setStatus setItem set_pcRef set_dataChannelRef
       set_mqttClientRef setupDataChannel update_pc modify emit ret get_state fst snd].
  cbn. destruct (pcRef (refs st)). all: cbn. all: destruct (mqttClientRef (refs st)).
  all: cbn.
  all: eexists _, _. all: split; [done |]. all: split; [done |].
  all: split; [by rewrite lookup_insert_eq | done].
Qed.

Lemma host_starts_a_connection (room : string) (now : Z) (st : AppState) :
  let '(r, st', out) :=
    (setShortCode room;;
     saveSession CLOUD HOST room now;;
     st ← get_state;
     connectCloudHost (isReconnecting (ui st)) room) st in
  exists pc, pcRef (refs st') = Some pc /\ the_pc pc st' = new_pc.
Proof.
  unfold connectCloudHost, saveSession, initPC, rtc_createDataChannel,
    mqtt_connect, mqtt_end, alloc, mbind, M_bind, bind.
  cbn [setShortCode setView setStatus setItem set_pcRef set_dataChannelRef
       set_mqttClientRef setupDataChannel update_pc modify emit ret get_state fst snd].
  cbn. destruct (pcRef (refs st)). all: cbn. all: destruct (mqttClientRef (refs st)).
  all: cbn.
  all: eexists _. all: split; [done |].
  all: unfold the_pc. all: cbn. all: by rewrite lookup_insert_eq.
Qed.

Lemma host_starts_with (room : string) (now : Z) (st : AppState) :
  let '(r, st', out) :=
    (setShortCode room;;
     saveSession CLOUD HOST room now;;
     st ← get_state;
     connectCloudHost (isReconnecting (ui st)) room) st in
  r = Normal tt
  /\ shortCode (ui st') = room
  /\ localStorage (browser st') !! "chkobba_session"
     = Some (JSON_stringify (session_obj (MkSession CLOUD HOST room now)))
  /\ view (ui st') = HOST_LOBBY
  /\ exists client pc,
       mqttClientRef (refs st') = Some client
       /\ pcRef (refs st') = Some pc
       /\ the_pc pc st' = new_pc
       /\ clients (browser st') !! client
          = Some (MkClient HOST room pc (isReconnecting (ui st)) false)
       /\ last out = Some (MqttConnect client).
Proof.
  pose proof (host_starts_in_lobby room now st) as Hlobby.
  pose proof (host_starts_a_client room now st) as Hclient.
  pose proof (host_starts_a_connection room now st) as Hpc.
  revert Hlobby Hclient Hpc.
  destruct ((setShortCode room;; saveSession CLOUD HOST room now;;
             st ← get_state; connectCloudHost (isReconnecting (ui st)) room) st)
    as [[r st'] out].
  intros (Hr & Hcode & Hsaved & Hview) (client & pc & Hc & Hp & Hcl & Hout)
    (pc' & Hp' & Hnew).
  assert (pc' = pc) as -> by congruence.
  repeat (split; [done |]). exists client, pc. done.
Qed.

(** Starting and joining use one code throughout.  The code a host
    draws is the one shown, the one written into the session record and
    the one its relay client is created for; a joiner's entry of
    length four (the [length] of the string, in UTF-16 code units) is
    the one written into its session record and the one its
    relay client is created for.  Either way the page ends in the
    lobby view of its role (a joiner already in the game view stays
    there) with exactly one new peer connection as the current one. *)
Theorem one_room_code_throughout (now : Z) (random : Q) (st : AppState) :
  (let '(r, st', out) := startCloudHost now random st in
   let room := room_code random in
   r = Normal tt
   /\ shortCode (ui st') = room
   /\ localStorage (browser st') !! "chkobba_session"
      = Some (JSON_stringify (session_obj (MkSession CLOUD HOST room now)))
   /\ view (ui st') = HOST_LOBBY
   /\ exists client pc,
        mqttClientRef (refs st') = Some client
        /\ pcRef (refs st') = Some pc
        /\ the_pc pc st' = new_pc
        /\ clients (browser st') !! client
           = Some (MkClient HOST room pc (isReconnecting (ui st)) false)
        /\ last out = Some (MqttConnect client))
  /\ (js_length (inputCode (ui st)) = 4%nat ->
      let '(r, st', out) := joinCloudGame now st in
      let room := inputCode (ui st) in
      r = Normal tt
      /\ inputCode (ui st') = room
      /\ localStorage (browser st') !! "chkobba_session"
         = Some (JSON_stringify (session_obj (MkSession CLOUD JOINER room now)))
      /\ view (ui st') = match view (ui st) with GAME => GAME | _ => JOIN_LOBBY end
      /\ exists client pc,
           mqttClientRef (refs st') = Some client
           /\ pcRef (refs st') = Some pc
           /\ the_pc pc st' = new_pc
           /\ clients (browser st') !! client
              = Some (MkClient JOINER room pc (isReconnecting (ui st)) false)
           /\ last out = Some (MqttConnect client)).
Proof.
  split.
  - exact (host_starts_with (room_code random) now st).
  - intros Hlen.
    unfold joinCloudGame, connectCloudJoiner, saveSession, initPC,
      mqtt_connect, mqtt_end, alloc, mbind, M_bind, bind.
    cbn [get_state fst snd]. rewrite Hlen. cbn [Nat.eqb negb].
    cbn [setView setStatus setItem set_pcRef set_mqttClientRef update_pc modify emit ret
         get_state fst snd].
    destruct (view (ui st)) eqn:Hv. all: cbn. all: rewrite ?Hv.
    all: destruct (pcRef (refs st)). all: cbn. all: destruct (mqttClientRef (refs st)).
    all: cbn.
    all: split; [done |]. all: split; [done |].
    all: split; [by rewrite lookup_insert_eq |]. all: split; [done |].
    all: eexists _, _. all: split; [done |]. all: split; [done |].
    all: split; [unfold the_pc; cbn; by rewrite lookup_insert_eq |].
    all: split; [by rewrite lookup_insert_eq | done].
Qed.

End RoomCodeUse.
